(** * Wachesaw developer tooling: level editor and dev server

    A shallow embedding of [tools/level_editor.py] and [tools/dev_server.py].

    Python values are modelled by the type [json] (the values [json.load]
    produces, numbers restricted to integers), Python strings by lists of
    code points, exceptions by the [Raise] case of [result], and the mutable
    editor window by explicit state passing in the monad [M].

    The GTK widgets are modelled as plain value holders: an entry holds a
    string, a drop-down one of its two items, the spin button a clamped
    number, the board grid a board.  The updates of the display
    ([_rebuild_step_list], [DialogEditor._rebuild], [BoardGrid._refresh],
    titles, the stack and message dialogs) are not modelled, and neither are
    the signals GTK emits while they run: the [select_row] at the end of
    [_rebuild_step_list] makes the list box emit [row-selected], whose
    handler [_on_row_selected] is not part of the methods below.  The
    methods of the window are thus the runs in which the display updates
    return.  What [_rebuild_step_list] and [BoardGrid._refresh] compute
    from the document is modelled apart, in [StepList] and [BoardView],
    with the cases in which they raise. *)

From Stdlib Require Import ZArith NArith List Bool Lia String Ascii.
Import ListNotations.

(** ** Python strings, exceptions and values *)

Module Py.

(** A Python [str]: a sequence of Unicode code points. *)
Definition str := list N.

(** An ASCII literal of the source. *)
Definition lit (s : string) : str := map N_of_ascii (list_ascii_of_string s).

Fixpoint str_eqb (a b : str) : bool :=
  match a, b with
  | [], [] => true
  | x :: a', y :: b' => N.eqb x y && str_eqb a' b'
  | _, _ => false
  end.

(** [str.startswith] *)
Fixpoint startswith (s p : str) {struct p} : bool :=
  match p, s with
  | [], _ => true
  | y :: p', x :: s' => N.eqb x y && startswith s' p'
  | _ :: _, [] => false
  end.

(** The code points [str.strip()] removes ([str.isspace]). *)
Definition isspace (c : N) : bool :=
  ((9 <=? c) && (c <=? 13) || (28 <=? c) && (c <=? 32) || (c =? 133)
   || (c =? 160) || (c =? 5760) || (8192 <=? c) && (c <=? 8202)
   || (c =? 8232) || (c =? 8233) || (c =? 8239) || (c =? 8287)
   || (c =? 12288))%N.

Fixpoint lstrip (s : str) : str :=
  match s with
  | c :: t => if isspace c then lstrip t else s
  | [] => []
  end.

Definition rstrip (s : str) : str := rev (lstrip (rev s)).

(** [s.strip()] *)
Definition strip (s : str) : str := rstrip (lstrip s).

(** [s.lstrip(chars)] for a one-character [chars]. *)
Fixpoint lstrip_char (ch : N) (s : str) : str :=
  match s with
  | c :: t => if N.eqb c ch then lstrip_char ch t else s
  | [] => []
  end.

(** [s.split(sep)] for a one-character separator: never the empty list. *)
Fixpoint split (sep : N) (s : str) : list str :=
  match s with
  | [] => [[]]
  | c :: t =>
      if N.eqb c sep then [] :: split sep t
      else match split sep t with
           | h :: r => (c :: h) :: r
           | [] => [[c]]
           end
  end.

(** [sep.join(parts)] *)
Fixpoint join (sep : str) (parts : list str) : str :=
  match parts with
  | [] => []
  | [p] => p
  | p :: rest => p ++ sep ++ join sep rest
  end.

Fixpoint uint_str (u : Decimal.uint) : str :=
  match u with
  | Decimal.Nil => []
  | Decimal.D0 r => 48%N :: uint_str r
  | Decimal.D1 r => 49%N :: uint_str r
  | Decimal.D2 r => 50%N :: uint_str r
  | Decimal.D3 r => 51%N :: uint_str r
  | Decimal.D4 r => 52%N :: uint_str r
  | Decimal.D5 r => 53%N :: uint_str r
  | Decimal.D6 r => 54%N :: uint_str r
  | Decimal.D7 r => 55%N :: uint_str r
  | Decimal.D8 r => 56%N :: uint_str r
  | Decimal.D9 r => 57%N :: uint_str r
  end.

(** [str(n)] for an [int]: decimal digits, ["-"] first when negative. *)
Definition int_str (z : Z) : str :=
  match Z.to_int z with
  | Decimal.Pos u => uint_str u
  | Decimal.Neg u => 45%N :: uint_str u
  end.

(** [format(n, "02d")]: the decimal digits, padded with zeros on the left
    to at least two characters (after the sign, if any). *)
Definition format_02d (z : Z) : str :=
  match Z.to_int z with
  | Decimal.Pos u =>
      repeat 48%N (2 - List.length (uint_str u)) ++ uint_str u
  | Decimal.Neg u =>
      45%N :: repeat 48%N (1 - List.length (uint_str u)) ++ uint_str u
  end.

Inductive exn : Set :=
| AttributeError | TypeError | IndexError | KeyError | ValueError
| OverflowError | OSError | RuntimeError.

Inductive result (A : Type) : Type :=
| Ok (a : A)
| Raise (e : exn).
Arguments Ok {A} a.
Arguments Raise {A} e.

Definition rbind {A B} (r : result A) (k : A -> result B) : result B :=
  match r with
  | Ok a => k a
  | Raise e => Raise e
  end.

(** The values of a decoded JSON document.  A [dict] keeps its items in
    insertion order, as Python does. *)
Unset Elimination Schemes.
Inductive json : Type :=
| JNull
| JBool (b : bool)
| JInt (z : Z)
| JStr (s : str)
| JList (l : list json)
| JDict (d : list (str * json)).
Set Elimination Schemes.

(** Truth value of an object ([if x], [not x]). *)
Definition truthy (v : json) : bool :=
  match v with
  | JNull => false
  | JBool b => b
  | JInt z => negb (Z.eqb z 0)
  | JStr s => match s with [] => false | _ => true end
  | JList l => match l with [] => false | _ => true end
  | JDict d => match d with [] => false | _ => true end
  end.

(** [v == s] for a string literal [s]. *)
Definition eq_str (v : json) (s : str) : bool :=
  match v with
  | JStr t => str_eqb t s
  | _ => false
  end.

Fixpoint dict_get (d : list (str * json)) (k : str) : option json :=
  match d with
  | [] => None
  | (k', v) :: d' => if str_eqb k' k then Some v else dict_get d' k
  end.

(** [d[k] = v]: an existing key keeps its position, a new one goes last. *)
Fixpoint dict_set (d : list (str * json)) (k : str) (v : json)
  : list (str * json) :=
  match d with
  | [] => [(k, v)]
  | (k', v') :: d' =>
      if str_eqb k' k then (k', v) :: d' else (k', v') :: dict_set d' k v
  end.

(** [o.get(k, dflt)]; only a [dict] has the method. *)
Definition get (o : json) (k : str) (dflt : json) : result json :=
  match o with
  | JDict d => Ok (match dict_get d k with Some v => v | None => dflt end)
  | _ => Raise AttributeError
  end.

(** [len(o)] *)
Definition len (o : json) : result Z :=
  match o with
  | JStr s => Ok (Z.of_nat (List.length s))
  | JList l => Ok (Z.of_nat (List.length l))
  | JDict d => Ok (Z.of_nat (List.length d))
  | _ => Raise TypeError
  end.

(** The items [for x in o] visits. *)
Definition iter (o : json) : result (list json) :=
  match o with
  | JList l => Ok l
  | JStr s => Ok (map (fun c => JStr [c]) s)
  | JDict d => Ok (map (fun kv => JStr (fst kv)) d)
  | _ => Raise TypeError
  end.

(** Position of index [i] in a sequence of length [n]: negative indices
    count from the end, anything else out of range raises [IndexError]. *)
Definition index (n : nat) (i : Z) : result nat :=
  if ((0 <=? i) && (i <? Z.of_nat n))%Z then Ok (Z.to_nat i)
  else if ((- Z.of_nat n <=? i) && (i <? 0))%Z
       then Ok (Z.to_nat (Z.of_nat n + i))
       else Raise IndexError.

Fixpoint update {A} (l : list A) (n : nat) (x : A) : list A :=
  match l, n with
  | [], _ => []
  | _ :: t, O => x :: t
  | h :: t, S n' => h :: update t n' x
  end.

Fixpoint remove_at {A} (l : list A) (n : nat) : list A :=
  match l, n with
  | [], _ => []
  | _ :: t, O => t
  | h :: t, S n' => h :: remove_at t n'
  end.

(** [o[i]] for an integer [i].  The keys of a decoded document are strings,
    so an integer is never a key of a [dict]. *)
Definition getitem (o : json) (i : Z) : result json :=
  match o with
  | JList l =>
      rbind (index (List.length l) i)
            (fun n => match nth_error l n with
                      | Some x => Ok x
                      | None => Raise IndexError
                      end)
  | JStr s =>
      rbind (index (List.length s) i)
            (fun n => match nth_error s n with
                      | Some c => Ok (JStr [c])
                      | None => Raise IndexError
                      end)
  | JDict _ => Raise KeyError
  | _ => Raise TypeError
  end.

(** [l[i] = x] on a list. *)
Definition list_setitem (l : list json) (i : Z) (x : json)
  : result (list json) :=
  rbind (index (List.length l) i) (fun n => Ok (update l n x)).

(** [del l[i]] on a list. *)
Definition list_delitem (l : list json) (i : Z) : result (list json) :=
  rbind (index (List.length l) i) (fun n => Ok (remove_at l n)).

(** [l.insert(i, x)]: the position is clamped into [0..len(l)]. *)
Definition list_insert (l : list json) (i : Z) (x : json) : list json :=
  let n := Z.of_nat (List.length l) in
  let j := if (i <? 0)%Z then Z.max 0 (n + i) else Z.min i n in
  firstn (Z.to_nat j) l ++ x :: skipn (Z.to_nat j) l.

(** Lower-case hexadecimal digits, as [format(n, "x")] writes them. *)
Definition hex_digit (n : N) : N :=
  (if n <? 10 then 48 + n else 87 + n)%N.

(** [format(n, "04x")] for [n < 65536], and its 2- and 8-digit variants. *)
Definition hex2 (n : N) : str :=
  [hex_digit (n / 16 mod 16); hex_digit (n mod 16)]%N.

Definition hex4 (n : N) : str :=
  [hex_digit (n / 4096 mod 16); hex_digit (n / 256 mod 16);
   hex_digit (n / 16 mod 16); hex_digit (n mod 16)]%N.

Definition hex8 (n : N) : str :=
  hex4 (n / 65536 mod 65536)%N ++ hex4 (n mod 65536)%N.

Section Repr.

(** [str.isprintable] on one code point above ASCII: the table of the
    Unicode database, which is not part of the program. *)
Variable isprintable : N -> bool.

(** The quote [repr] encloses the string in: a single quote (39), unless
    the string has a single quote and no double quote (34). *)
Definition repr_quote (s : str) : N :=
  if existsb (N.eqb 39) s && negb (existsb (N.eqb 34) s) then 34%N else 39%N.

Definition repr_char (quote c : N) : str :=
  if (N.eqb c quote || N.eqb c 92) then [92%N; c]
  else if N.eqb c 9 then lit "\t"
  else if N.eqb c 10 then lit "\n"
  else if N.eqb c 13 then lit "\r"
  else if ((c <? 32) || (c =? 127))%N then lit "\x" ++ hex2 c
  else if (c <? 127)%N then [c]
  else if isprintable c then [c]
  else if (c <? 256)%N then lit "\x" ++ hex2 c
  else if (c <? 65536)%N then lit "\u" ++ hex4 c
  else lit "\U" ++ hex8 c.

(** [repr(s)] for a [str]. *)
Definition repr_str (s : str) : str :=
  let q := repr_quote s in
  q :: flat_map (repr_char q) s ++ [q].

(** [repr(v)] *)
Fixpoint repr (v : json) : str :=
  match v with
  | JNull => lit "None"
  | JBool true => lit "True"
  | JBool false => lit "False"
  | JInt z => int_str z
  | JStr s => repr_str s
  | JList l => lit "[" ++ join (lit ", ") (map repr l) ++ lit "]"
  | JDict d =>
      lit "{"
      ++ join (lit ", ")
              (map (fun kv => match kv with
                              | (k, x) => repr_str k ++ lit ": " ++ repr x
                              end) d)
      ++ lit "}"
  end.

(** [str(v)], what an f-string field [{v}] writes. *)
Definition to_str (v : json) : str :=
  match v with
  | JStr s => s
  | _ => repr v
  end.

End Repr.

End Py.

(** ** State passing with exceptions

    A method of a mutable object is a function from the object's state to
    the state it leaves and either a value or the exception it raised; the
    state changes made before an exception stay. *)

Module State.
Import Py.

Definition M (S A : Type) : Type := S -> S * result A.

Definition ret {S A} (a : A) : M S A := fun s => (s, Ok a).

Definition bind {S A B} (c : M S A) (k : A -> M S B) : M S B :=
  fun s => match c s with
           | (s', Ok a) => k a s'
           | (s', Raise e) => (s', Raise e)
           end.

Definition read {S} : M S S := fun s => (s, Ok s).

Definition modify {S} (f : S -> S) : M S unit := fun s => (f s, Ok tt).

(** A pure computation that may raise. *)
Definition lift {S A} (r : result A) : M S A := fun s => (s, r).

(** Run a method of a component on the field that holds it. *)
Definition zoom {S T A} (proj : S -> T) (upd : T -> S -> S) (c : M T A)
  : M S A :=
  fun s => match c (proj s) with (t, r) => (upd t s, r) end.

End State.

Declare Scope monad_scope.
Delimit Scope monad_scope with monad.
Notation "x <- c ;; k" := (State.bind c (fun x => k))
  (at level 61, c at next level, right associativity) : monad_scope.
Notation "c ;;; k" := (State.bind c (fun _ => k))
  (at level 61, right associativity) : monad_scope.

(** ** BoardGrid: the 5x5 board editor *)

Module BoardGrid.
Import Py.

Definition BOARD_SIZE : nat := 5.

(** [[[None] * BOARD_SIZE for _ in range(BOARD_SIZE)]] *)
Definition empty_board : json :=
  JList (repeat (JList (repeat JNull BOARD_SIZE)) BOARD_SIZE).

(** [set_board]: the new value of [self._board]. *)
Definition set_board (board : json) : json :=
  if truthy board then board else empty_board.

Definition get_board (_board : json) : json := _board.

(** A board that is a list of rows, each a list of cells. *)
Definition grid : Type := list (list json).

Definition grid_json (g : grid) : json := JList (map JList g).

(** [_place]: [self._board[row][col] = piece], on a board that is a list
    of row lists. *)
Definition _place (row col : Z) (piece : json) : State.M grid unit :=
  fun _board =>
    match index (List.length _board) row with
    | Raise e => (_board, Raise e)
    | Ok r =>
        match nth_error _board r with
        | None => (_board, Raise IndexError)
        | Some cells =>
            match index (List.length cells) col with
            | Raise e => (_board, Raise e)
            | Ok c => (update _board r (update cells c piece), Ok tt)
            end
        end
    end.

End BoardGrid.

(** ** DialogEditor: the editing buffer of a dialog step

    Its state is [self._lines]. *)

Module DialogEditor.
Import Py State.
Local Open Scope monad_scope.

Definition set_step (step : json) : M json unit :=
  lines <- lift (get step (lit "lines") (JList [])) ;;
  modify (fun _ => lines).

Definition get_step_data (_lines : json) : json :=
  JDict [(lit "type", JStr (lit "dialog")); (lit "lines", _lines)].

(** [entry.get_text().strip() or None] *)
Definition field_value (text : str) : json :=
  match strip text with
  | [] => JNull
  | s => JStr s
  end.

(** [target[key] = val] where [target] was read as [self._lines[idx]]. *)
Definition line_setitem (line : json) (key : str) (val : json)
  : result json :=
  match line with
  | JDict d => Ok (JDict (dict_set d key val))
  | _ => Raise TypeError
  end.

(** [_on_field_changed], [text] being what the entry holds. *)
Definition _on_field_changed (text : str) (idx : Z) (key : str)
  : M json unit :=
  _lines <- read ;;
  n <- lift (len _lines) ;;
  if (idx <? n)%Z then
    line <- lift (getitem _lines idx) ;;
    line' <- lift (line_setitem line key (field_value text)) ;;
    match _lines with
    | JList l =>
        l' <- lift (list_setitem l idx line') ;;
        modify (fun _ => JList l')
    | _ => ret tt
    end
  else ret tt.

Definition blank_line : json :=
  JDict [(lit "speaker", JNull); (lit "portrait", JNull);
         (lit "text", JStr [])].

Definition _add_line : M json unit :=
  _lines <- read ;;
  match _lines with
  | JList l => modify (fun _ => JList (l ++ [blank_line]))
  | _ => lift (Raise AttributeError)
  end.

(** [_delete_line], [sel] being the index of the selected row, if any. *)
Definition _delete_line (sel : option Z) : M json unit :=
  match sel with
  | None => ret tt
  | Some idx =>
      _lines <- read ;;
      if (0 <=? idx)%Z then
        n <- lift (len _lines) ;;
        if (idx <? n)%Z then
          match _lines with
          | JList l =>
              l' <- lift (list_delitem l idx) ;;
              modify (fun _ => JList l')
          | JDict _ => lift (Raise KeyError)
          | _ => lift (Raise TypeError)
          end
        else ret tt
      else ret tt
  end.

End DialogEditor.

(** ** PuzzleEditor: the editing buffer of a puzzle step *)

Module PuzzleEditor.
Import Py State.
Local Open Scope monad_scope.

(** The selected item of a drop-down with two items. *)
Inductive selected : Set := Item0 | Item1.

(** [PLAYERS[i]] and [WIN_CONDITIONS[i]] *)
Definition PLAYERS (i : selected) : str :=
  match i with Item0 => lit "white" | Item1 => lit "black" end.

Definition WIN_CONDITIONS (i : selected) : str :=
  match i with Item0 => lit "capture_chief" | Item1 => lit "cross_piece" end.

(** [xs.index(v) if v in xs else 0] for one of the two lists above. *)
Definition index_or_0 (xs : selected -> str) (v : json) : selected :=
  if eq_str v (xs Item0) then Item0
  else if eq_str v (xs Item1) then Item1
  else Item0.

(** The widgets of the editor: four entries, two drop-downs, the spin
    button (its value, kept within 1..20 by its adjustment), the entry of
    the opponent moves, the board of the grid. *)
Record t : Type := mk {
  _loading : bool;
  _id_entry : str;
  _title_entry : str;
  _desc_entry : str;
  _hint_entry : str;
  _player_combo : selected;
  _win_combo : selected;
  _max_moves_spin : Z;
  _opp_entry : str;
  _board_grid : json
}.

(** The editor as [__init__] leaves it. *)
Definition init : t :=
  mk false [] [] [] [] Item0 Item0 1 [] BoardGrid.empty_board.

Definition set_loading (b : bool) (e : t) : t :=
  mk b (_id_entry e) (_title_entry e) (_desc_entry e) (_hint_entry e)
     (_player_combo e) (_win_combo e) (_max_moves_spin e) (_opp_entry e)
     (_board_grid e).
Definition set_id (s : str) (e : t) : t :=
  mk (_loading e) s (_title_entry e) (_desc_entry e) (_hint_entry e)
     (_player_combo e) (_win_combo e) (_max_moves_spin e) (_opp_entry e)
     (_board_grid e).
Definition set_title (s : str) (e : t) : t :=
  mk (_loading e) (_id_entry e) s (_desc_entry e) (_hint_entry e)
     (_player_combo e) (_win_combo e) (_max_moves_spin e) (_opp_entry e)
     (_board_grid e).
Definition set_desc (s : str) (e : t) : t :=
  mk (_loading e) (_id_entry e) (_title_entry e) s (_hint_entry e)
     (_player_combo e) (_win_combo e) (_max_moves_spin e) (_opp_entry e)
     (_board_grid e).
Definition set_hint (s : str) (e : t) : t :=
  mk (_loading e) (_id_entry e) (_title_entry e) (_desc_entry e) s
     (_player_combo e) (_win_combo e) (_max_moves_spin e) (_opp_entry e)
     (_board_grid e).
Definition set_player (i : selected) (e : t) : t :=
  mk (_loading e) (_id_entry e) (_title_entry e) (_desc_entry e)
     (_hint_entry e) i (_win_combo e) (_max_moves_spin e) (_opp_entry e)
     (_board_grid e).
Definition set_win (i : selected) (e : t) : t :=
  mk (_loading e) (_id_entry e) (_title_entry e) (_desc_entry e)
     (_hint_entry e) (_player_combo e) i (_max_moves_spin e) (_opp_entry e)
     (_board_grid e).
Definition set_max_moves (z : Z) (e : t) : t :=
  mk (_loading e) (_id_entry e) (_title_entry e) (_desc_entry e)
     (_hint_entry e) (_player_combo e) (_win_combo e) z (_opp_entry e)
     (_board_grid e).
Definition set_opp (s : str) (e : t) : t :=
  mk (_loading e) (_id_entry e) (_title_entry e) (_desc_entry e)
     (_hint_entry e) (_player_combo e) (_win_combo e) (_max_moves_spin e) s
     (_board_grid e).
Definition set_grid (b : json) (e : t) : t :=
  mk (_loading e) (_id_entry e) (_title_entry e) (_desc_entry e)
     (_hint_entry e) (_player_combo e) (_win_combo e) (_max_moves_spin e)
     (_opp_entry e) b.

(** [Gtk.Entry.set_text] takes a [str]. *)
Definition as_text (v : json) : result str :=
  match v with
  | JStr s => Ok s
  | _ => Raise TypeError
  end.

(** The largest magnitude an [int] may have to convert to a C double. *)
Definition double_limit : Z := 2 ^ 1024 - 2 ^ 970.

(** [Gtk.SpinButton.set_value] takes a number and keeps it within the
    bounds 1..20 of the adjustment. *)
Definition spin_value (v : json) : result Z :=
  match v with
  | JInt z =>
      if (Z.abs z <? double_limit)%Z then Ok (Z.max 1 (Z.min 20 z))
      else Raise OverflowError
  | JBool _ => Ok 1%Z
  | _ => Raise TypeError
  end.

(** The strings [", ".join(o)] joins: the items of [o], all of them [str]. *)
Fixpoint all_text (items : list json) : result (list str) :=
  match items with
  | [] => Ok []
  | x :: rest =>
      rbind (as_text x) (fun s =>
      rbind (all_text rest) (fun ss => Ok (s :: ss)))
  end.

Definition join_moves (o : json) : result str :=
  rbind (iter o) (fun items =>
  rbind (all_text items) (fun ss => Ok (join (lit ", ") ss))).

Definition set_step (step : json) : M t unit :=
  modify (set_loading true) ;;;
  v <- lift (get step (lit "id") (JStr [])) ;;
  s <- lift (as_text v) ;; modify (set_id s) ;;;
  v <- lift (get step (lit "title") (JStr [])) ;;
  s <- lift (as_text v) ;; modify (set_title s) ;;;
  v <- lift (get step (lit "description") (JStr [])) ;;
  s <- lift (as_text v) ;; modify (set_desc s) ;;;
  v <- lift (get step (lit "hint") (JStr [])) ;;
  s <- lift (as_text v) ;; modify (set_hint s) ;;;
  player <- lift (get step (lit "player") (JStr (lit "white"))) ;;
  modify (set_player (index_or_0 PLAYERS player)) ;;;
  wc <- lift (get step (lit "win_condition") (JDict [])) ;;
  wc_type <- lift (get wc (lit "type") (JStr (lit "capture_chief"))) ;;
  modify (set_win (index_or_0 WIN_CONDITIONS wc_type)) ;;;
  v <- lift (get wc (lit "max_moves") (JInt 1)) ;;
  z <- lift (spin_value v) ;; modify (set_max_moves z) ;;;
  opp_moves <- lift (get step (lit "opponent_moves") (JList [])) ;;
  s <- lift (join_moves opp_moves) ;; modify (set_opp s) ;;;
  board <- lift (get step (lit "board") BoardGrid.empty_board) ;;
  modify (set_grid (BoardGrid.set_board board)) ;;;
  modify (set_loading false).

(** [[m.strip() for m in opp_text.split(",") if m.strip()] if opp_text
    else []], [opp_text] being the stripped text of the entry. *)
Definition opp_moves_of (text : str) : list str :=
  let opp_text := strip text in
  match opp_text with
  | [] => []
  | _ =>
      map strip
          (filter (fun m => match strip m with [] => false | _ => true end)
                  (split 44 opp_text))
  end.

Definition get_step_data (e : t) : json :=
  JDict [
    (lit "type", JStr (lit "puzzle"));
    (lit "id", JStr (strip (_id_entry e)));
    (lit "title", JStr (strip (_title_entry e)));
    (lit "description", JStr (strip (_desc_entry e)));
    (lit "player", JStr (PLAYERS (_player_combo e)));
    (lit "hint", JStr (strip (_hint_entry e)));
    (lit "board", BoardGrid.get_board (_board_grid e));
    (lit "win_condition",
       JDict [(lit "type", JStr (WIN_CONDITIONS (_win_combo e)));
              (lit "max_moves", JInt (_max_moves_spin e))]);
    (lit "opponent_moves", JList (map JStr (opp_moves_of (_opp_entry e))))
  ].

End PuzzleEditor.

(** ** JSON text: [json.dump(obj, fh, indent=2)] and [json.load(fh)] *)

Module Json.
Import Py.

(** ["\n"] and the indentation of nesting level [lv]. *)
Definition newline_indent (lv : nat) : str := 10%N :: repeat 32%N (2 * lv).

(** One character of a string, as [ensure_ascii] writes it. *)
Definition encode_char (c : N) : str :=
  if N.eqb c 34 then [92%N; 34%N]
  else if N.eqb c 92 then lit "\\"
  else if N.eqb c 10 then lit "\n"
  else if N.eqb c 13 then lit "\r"
  else if N.eqb c 9 then lit "\t"
  else if N.eqb c 8 then lit "\b"
  else if N.eqb c 12 then lit "\f"
  else if ((32 <=? c) && (c <=? 126))%N then [c]
  else if (c <? 65536)%N then lit "\u" ++ hex4 c
  else
    let n := (c - 65536)%N in
    lit "\u" ++ hex4 (55296 + n / 1024 mod 1024)%N
    ++ lit "\u" ++ hex4 (56320 + n mod 1024)%N.

Definition encode_string (s : str) : str :=
  34%N :: flat_map encode_char s ++ [34%N].

(** The text of a value at nesting level [lv]. *)
Fixpoint encode (lv : nat) (v : json) {struct v} : str :=
  match v with
  | JNull => lit "null"
  | JBool true => lit "true"
  | JBool false => lit "false"
  | JInt z => int_str z
  | JStr s => encode_string s
  | JList [] => lit "[]"
  | JList (x :: l) =>
      91%N :: newline_indent (S lv) ++ encode (S lv) x
      ++ (fix items (l : list json) : str :=
            match l with
            | [] => newline_indent lv ++ [93%N]
            | y :: l' =>
                44%N :: newline_indent (S lv) ++ encode (S lv) y ++ items l'
            end) l
  | JDict [] => lit "{}"
  | JDict ((k, x) :: d) =>
      123%N :: newline_indent (S lv) ++ encode_string k ++ lit ": "
      ++ encode (S lv) x
      ++ (fix items (d : list (str * json)) : str :=
            match d with
            | [] => newline_indent lv ++ [125%N]
            | (k', y) :: d' =>
                44%N :: newline_indent (S lv) ++ encode_string k'
                ++ lit ": " ++ encode (S lv) y ++ items d'
            end) d
  end.

(** What [json.dump(obj, fh, indent=2)] writes. *)
Definition dump (v : json) : str := encode 0 v.

(** The decoder.  It returns [None] where [json.load] raises, and also
    where the text has a number with a fraction or an exponent, [NaN] or
    [Infinity]: floats are not part of [json]. *)

Definition is_ws (c : N) : bool :=
  (N.eqb c 32 || N.eqb c 9 || N.eqb c 10 || N.eqb c 13).

Fixpoint skip_ws (s : str) : str :=
  match s with
  | c :: r => if is_ws c then skip_ws r else s
  | [] => []
  end.

Definition is_digit (c : N) : bool := ((48 <=? c) && (c <=? 57))%N.

Definition hex_val (c : N) : option N :=
  if ((48 <=? c) && (c <=? 57))%N then Some (c - 48)%N
  else if ((97 <=? c) && (c <=? 102))%N then Some (c - 87)%N
  else if ((65 <=? c) && (c <=? 70))%N then Some (c - 55)%N
  else None.

(** The number four hexadecimal digits write. *)
Definition hex4_val (a b c d : N) : option N :=
  match hex_val a, hex_val b, hex_val c, hex_val d with
  | Some x, Some y, Some z, Some w =>
      Some (x * 4096 + y * 256 + z * 16 + w)%N
  | _, _, _, _ => None
  end.

Definition is_high (c : N) : bool := ((55296 <=? c) && (c <=? 56319))%N.
Definition is_low (c : N) : bool := ((56320 <=? c) && (c <=? 57343))%N.

(** The character of a one-letter escape. *)
Definition unescape (e : N) : option N :=
  if N.eqb e 34 then Some 34%N
  else if N.eqb e 92 then Some 92%N
  else if N.eqb e 47 then Some 47%N
  else if N.eqb e 98 then Some 8%N
  else if N.eqb e 102 then Some 12%N
  else if N.eqb e 110 then Some 10%N
  else if N.eqb e 114 then Some 13%N
  else if N.eqb e 116 then Some 9%N
  else None.

Definition cons_to {A} (c : N) (r : option (str * A)) : option (str * A) :=
  match r with
  | Some (t, x) => Some (c :: t, x)
  | None => None
  end.

(** [scanstring], after the opening quote: the string and the text after
    the closing quote.  A high surrogate escape directly followed by a low
    surrogate escape makes one character. *)
Fixpoint scanstring (s : str) : option (str * str) :=
  match s with
  | [] => None
  | c :: r =>
      if N.eqb c 34 then Some ([], r)
      else if N.eqb c 92 then
        match r with
        | [] => None
        | e :: r1 =>
            if N.eqb e 117 then
              match r1 with
              | a :: b :: c4 :: d :: r2 =>
                  match hex4_val a b c4 d with
                  | None => None
                  | Some uni =>
                      match r2 with
                      | b1 :: u1 :: a2 :: b2 :: c2 :: d2 :: r3 =>
                          if is_high uni && N.eqb b1 92 && N.eqb u1 117 then
                            match hex4_val a2 b2 c2 d2 with
                            | None => None
                            | Some uni2 =>
                                if is_low uni2 then
                                  cons_to (65536 + (uni - 55296) * 1024
                                           + (uni2 - 56320))%N
                                          (scanstring r3)
                                else cons_to uni (scanstring r2)
                            end
                          else cons_to uni (scanstring r2)
                      | _ => cons_to uni (scanstring r2)
                      end
                  end
              | _ => None
              end
            else
              match unescape e with
              | Some ch => cons_to ch (scanstring r1)
              | None => None
              end
        end
      else if (c <? 32)%N then None
      else cons_to c (scanstring r)
  end.

(** The digits at the head of the text, as a decimal numeral. *)
Fixpoint scan_digits (s : str) : Decimal.uint * str :=
  match s with
  | c :: r =>
      if is_digit c then
        let (u, r') := scan_digits r in
        ((if N.eqb c 48 then Decimal.D0
          else if N.eqb c 49 then Decimal.D1
          else if N.eqb c 50 then Decimal.D2
          else if N.eqb c 51 then Decimal.D3
          else if N.eqb c 52 then Decimal.D4
          else if N.eqb c 53 then Decimal.D5
          else if N.eqb c 54 then Decimal.D6
          else if N.eqb c 55 then Decimal.D7
          else if N.eqb c 56 then Decimal.D8
          else Decimal.D9) u, r')
      else (Decimal.Nil, s)
  | [] => (Decimal.Nil, [])
  end.

(** The text after an integer continues it into a float: a [.] and a
    digit, or an exponent with at least one digit. *)
Definition float_tail (s : str) : bool :=
  match s with
  | c :: d :: r =>
      if N.eqb c 46 then is_digit d
      else if (N.eqb c 101 || N.eqb c 69) then
        if (N.eqb d 43 || N.eqb d 45) then
          match r with x :: _ => is_digit x | [] => false end
        else is_digit d
      else false
  | _ => false
  end.

(** The integer part [0|[1-9][0-9]*] at the head of the text. *)
Definition scan_natural (s : str) : option (Decimal.uint * str) :=
  match s with
  | c :: r =>
      if N.eqb c 48 then Some (Decimal.D0 Decimal.Nil, r)
      else if is_digit c then Some (scan_digits s)
      else None
  | [] => None
  end.

(** A number at the head of the text: an integer, unless it goes on as a
    float. *)
Definition scan_number (s : str) : option (json * str) :=
  match s with
  | c :: r =>
      if N.eqb c 45 then
        match scan_natural r with
        | Some (u, r') =>
            if float_tail r' then None
            else Some (JInt (Z.of_int (Decimal.Neg u)), r')
        | None => None
        end
      else
        match scan_natural s with
        | Some (u, r') =>
            if float_tail r' then None
            else Some (JInt (Z.of_int (Decimal.Pos u)), r')
        | None => None
        end
  | [] => None
  end.

(** [dict(pairs)]: a repeated key keeps its first place and takes the last
    value. *)
Definition dict_of_pairs (pairs : list (str * json)) : list (str * json) :=
  fold_left (fun d kv => dict_set d (fst kv) (snd kv)) pairs [].

(** [scan_once] with its loops over the items of an array and of an
    object; [fuel] bounds the number of nested calls. *)
Fixpoint scan_once (fuel : nat) (s : str) {struct fuel}
  : option (json * str) :=
  match fuel with
  | O => None
  | S f =>
      match s with
      | [] => None
      | c :: r =>
          if N.eqb c 34 then
            match scanstring r with
            | Some (t, r') => Some (JStr t, r')
            | None => None
            end
          else if N.eqb c 123 then
            match skip_ws r with
            | c1 :: r1 =>
                if N.eqb c1 125 then Some (JDict [], r1)
                else if N.eqb c1 34 then
                  match object_items f r1 with
                  | Some (pairs, r') => Some (JDict (dict_of_pairs pairs), r')
                  | None => None
                  end
                else None
            | [] => None
            end
          else if N.eqb c 91 then
            match skip_ws r with
            | c1 :: r1 =>
                if N.eqb c1 93 then Some (JList [], r1)
                else
                  match array_items f (c1 :: r1) with
                  | Some (l, r') => Some (JList l, r')
                  | None => None
                  end
            | [] => None
            end
          else if startswith s (lit "null") then Some (JNull, skipn 4 s)
          else if startswith s (lit "true") then Some (JBool true, skipn 4 s)
          else if startswith s (lit "false")
               then Some (JBool false, skipn 5 s)
          else scan_number s
      end
  end

(** The items of an array, from the first character of an item. *)
with array_items (fuel : nat) (s : str) {struct fuel}
  : option (list json * str) :=
  match fuel with
  | O => None
  | S f =>
      match scan_once f s with
      | None => None
      | Some (v, r) =>
          match skip_ws r with
          | c :: r1 =>
              if N.eqb c 93 then Some ([v], r1)
              else if N.eqb c 44 then
                match array_items f (skip_ws r1) with
                | Some (l, r') => Some (v :: l, r')
                | None => None
                end
              else None
          | [] => None
          end
      end
  end

(** The items of an object, from just after the opening quote of a key. *)
with object_items (fuel : nat) (s : str) {struct fuel}
  : option (list (str * json) * str) :=
  match fuel with
  | O => None
  | S f =>
      match scanstring s with
      | None => None
      | Some (k, r) =>
          match skip_ws r with
          | c :: r1 =>
              if N.eqb c 58 then
                match scan_once f (skip_ws r1) with
                | None => None
                | Some (v, r2) =>
                    match skip_ws r2 with
                    | c2 :: r3 =>
                        if N.eqb c2 125 then Some ([(k, v)], r3)
                        else if N.eqb c2 44 then
                          match skip_ws r3 with
                          | c3 :: r4 =>
                              if N.eqb c3 34 then
                                match object_items f r4 with
                                | Some (l, r') => Some ((k, v) :: l, r')
                                | None => None
                                end
                              else None
                          | [] => None
                          end
                        else None
                    | [] => None
                    end
                end
              else None
          | [] => None
          end
      end
  end.

(** [JSONDecoder.decode]: one value, white space around it, nothing else. *)
Definition decode (s : str) : option json :=
  match scan_once (S (List.length s)) (skip_ws s) with
  | Some (v, r) => match skip_ws r with [] => Some v | _ => None end
  | None => None
  end.

(** What [json.load(fh)] returns on a file with this text. *)
Definition load (text : str) : option json := decode text.

End Json.

(** ** The files the editor reads and writes *)

Module Disk.
Import Py.

(** The text of each file that can be opened for reading, and the paths
    that can be opened for writing. *)
Record t : Type := mk {
  content : str -> option str;
  writable : str -> bool
}.

(** The disk after [text] was written to [path]. *)
Definition write (path text : str) (d : t) : t :=
  mk (fun p => if str_eqb p path then Some text else content d p)
     (writable d).

End Disk.

(** ** LevelEditorWindow: the chapter document and its operations *)

Module LevelEditorWindow.
Import Py State.
Local Open Scope monad_scope.
Local Open Scope Z_scope.

Record t : Type := mk {
  _chapter : json;            (* [None] until a file is loaded *)
  _filepath : option str;
  _current_idx : Z;
  _dirty : bool;
  _puzzle_editor : PuzzleEditor.t;
  _dialog_editor : json       (* the [_lines] of the dialog editor *)
}.

(** The window as [__init__] leaves it. *)
Definition init : t := mk JNull None (-1) false PuzzleEditor.init (JList []).

Definition set_chapter (c : json) (w : t) : t :=
  mk c (_filepath w) (_current_idx w) (_dirty w) (_puzzle_editor w)
     (_dialog_editor w).
Definition set_filepath (p : option str) (w : t) : t :=
  mk (_chapter w) p (_current_idx w) (_dirty w) (_puzzle_editor w)
     (_dialog_editor w).
Definition set_current_idx (i : Z) (w : t) : t :=
  mk (_chapter w) (_filepath w) i (_dirty w) (_puzzle_editor w)
     (_dialog_editor w).
Definition set_dirty (b : bool) (w : t) : t :=
  mk (_chapter w) (_filepath w) (_current_idx w) b (_puzzle_editor w)
     (_dialog_editor w).
Definition set_puzzle_editor (e : PuzzleEditor.t) (w : t) : t :=
  mk (_chapter w) (_filepath w) (_current_idx w) (_dirty w) e
     (_dialog_editor w).
Definition set_dialog_editor (e : json) (w : t) : t :=
  mk (_chapter w) (_filepath w) (_current_idx w) (_dirty w)
     (_puzzle_editor w) e.

(** [not self._filepath] *)
Definition no_filepath (w : t) : bool :=
  match _filepath w with
  | None | Some [] => true
  | Some _ => false
  end.

(** The list [steps] was read from the chapter with [get("steps", [])];
    a change made to it in place shows in the chapter when the key is
    there (the default is a fresh list). *)
Definition put_steps (steps : json) (chapter : json) : json :=
  match chapter with
  | JDict d =>
      match dict_get d (lit "steps") with
      | Some _ => JDict (dict_set d (lit "steps") steps)
      | None => chapter
      end
  | _ => chapter
  end.

Definition _mark_dirty : M t unit := modify (set_dirty true).

Definition _show_step (step : json) : M t unit :=
  stype <- lift (get step (lit "type") JNull) ;;
  if eq_str stype (lit "puzzle") then
    zoom _puzzle_editor set_puzzle_editor (PuzzleEditor.set_step step)
  else if eq_str stype (lit "dialog") then
    zoom _dialog_editor set_dialog_editor (DialogEditor.set_step step)
  else ret tt.

(** [steps[self._current_idx] = data] *)
Definition store_step (steps : json) (idx : Z) (data : json) : M t unit :=
  match steps with
  | JList l =>
      l' <- lift (list_setitem l idx data) ;;
      modify (fun w => set_chapter (put_steps (JList l') (_chapter w)) w)
  | _ => lift (Raise TypeError)
  end.

Definition _flush : M t unit :=
  w <- read ;;
  if (_current_idx w <? 0) || negb (truthy (_chapter w)) then ret tt
  else
    steps <- lift (get (_chapter w) (lit "steps") (JList [])) ;;
    n <- lift (len steps) ;;
    if n <=? _current_idx w then ret tt
    else
      step <- lift (getitem steps (_current_idx w)) ;;
      stype <- lift (get step (lit "type") JNull) ;;
      if eq_str stype (lit "puzzle") then
        store_step steps (_current_idx w)
                   (PuzzleEditor.get_step_data (_puzzle_editor w))
      else if eq_str stype (lit "dialog") then
        store_step steps (_current_idx w)
                   (DialogEditor.get_step_data (_dialog_editor w))
      else ret tt.

(** [self._chapter.setdefault("steps", [])] *)
Definition setdefault_steps : M t json :=
  w <- read ;;
  match _chapter w with
  | JDict d =>
      match dict_get d (lit "steps") with
      | Some steps => ret steps
      | None =>
          modify (set_chapter (JDict (dict_set d (lit "steps") (JList []))))
          ;;; ret (JList [])
      end
  | _ => lift (Raise AttributeError)
  end.

(** [sum(1 for s in steps if s.get("type") == "puzzle")] over the items. *)
Fixpoint count_puzzles (items : list json) : result Z :=
  match items with
  | [] => Ok 0
  | s :: rest =>
      rbind (get s (lit "type") JNull) (fun ty =>
      rbind (count_puzzles rest) (fun k =>
      Ok ((if eq_str ty (lit "puzzle") then 1 else 0) + k)))
  end.

Definition new_dialog_step : json :=
  JDict [(lit "type", JStr (lit "dialog"));
         (lit "lines", JList [DialogEditor.blank_line])].

Section Unicode.

(** The table behind [str.isprintable], which [repr] consults. *)
Variable isprintable : N -> bool.

(** [f"ch{chapter_num}_p{puzzle_count:02d}"] *)
Definition puzzle_id (chapter_num : json) (puzzle_count : Z) : str :=
  lit "ch" ++ to_str isprintable chapter_num ++ lit "_p"
  ++ format_02d puzzle_count.

Definition new_puzzle_step (chapter_num : json) (puzzle_count : Z) : json :=
  JDict [
    (lit "type", JStr (lit "puzzle"));
    (lit "id", JStr (puzzle_id chapter_num puzzle_count));
    (lit "title", JStr (lit "New Puzzle"));
    (lit "description", JStr []);
    (lit "player", JStr (lit "white"));
    (lit "hint", JStr []);
    (lit "board", BoardGrid.empty_board);
    (lit "win_condition",
       JDict [(lit "type", JStr (lit "capture_chief"));
              (lit "max_moves", JInt 1)]);
    (lit "opponent_moves", JList [])
  ].

(** The step [_add_step] builds for [step_type]. *)
Definition new_step_for (step_type : str) (steps : json) : M t json :=
  if str_eqb step_type (lit "dialog") then ret new_dialog_step
  else
    items <- lift (iter steps) ;;
    k <- lift (count_puzzles items) ;;
    w <- read ;;
    chapter_num <- lift (get (_chapter w) (lit "chapter") (JInt 1)) ;;
    ret (new_puzzle_step chapter_num (k + 1)).

Definition _add_step (step_type : str) : M t unit :=
  w <- read ;;
  if negb (truthy (_chapter w)) then ret tt
  else
    _flush ;;;
    steps <- setdefault_steps ;;
    w <- read ;;
    insert_at <- (if 0 <=? _current_idx w then ret (_current_idx w + 1)
                  else lift (len steps)) ;;
    new_step <- new_step_for step_type steps ;;
    match steps with
    | JList l =>
        modify (fun w =>
          set_chapter
            (put_steps (JList (list_insert l insert_at new_step))
                       (_chapter w)) w) ;;;
        modify (set_current_idx insert_at) ;;;
        _show_step new_step ;;;
        _mark_dirty
    | _ => lift (Raise AttributeError)
    end.

End Unicode.

Definition _delete_step : M t unit :=
  w <- read ;;
  if negb (truthy (_chapter w)) || (_current_idx w <? 0) then ret tt
  else
    steps <- lift (get (_chapter w) (lit "steps") (JList [])) ;;
    if negb (truthy steps) then ret tt
    else
      n <- lift (len steps) ;;
      if n <=? _current_idx w then ret tt
      else
        match steps with
        | JList l =>
            l' <- lift (list_delitem l (_current_idx w)) ;;
            modify (fun w =>
              set_chapter (put_steps (JList l') (_chapter w)) w) ;;;
            let idx := Z.min (_current_idx w) (Z.of_nat (List.length l') - 1)
            in
            modify (set_current_idx idx) ;;;
            (if 0 <=? idx then
               step <- lift (getitem (JList l') idx) ;; _show_step step
             else ret tt) ;;;
            _mark_dirty
        | JDict _ => lift (Raise KeyError)
        | _ => lift (Raise TypeError)
        end.

Definition _move_step (direction : Z) : M t unit :=
  w <- read ;;
  if negb (truthy (_chapter w)) || (_current_idx w <? 0) then ret tt
  else
    _flush ;;;
    w <- read ;;
    steps <- lift (get (_chapter w) (lit "steps") (JList [])) ;;
    let new_idx := _current_idx w + direction in
    in_range <- (if 0 <=? new_idx then
                   n <- lift (len steps) ;; ret (new_idx <? n)
                 else ret false) ;;
    if negb in_range then ret tt
    else
      a <- lift (getitem steps new_idx) ;;
      b <- lift (getitem steps (_current_idx w)) ;;
      match steps with
      | JList l =>
          l1 <- lift (list_setitem l (_current_idx w) a) ;;
          l2 <- lift (list_setitem l1 new_idx b) ;;
          modify (fun w =>
            set_chapter (put_steps (JList l2) (_chapter w)) w) ;;;
          modify (set_current_idx new_idx) ;;;
          _mark_dirty
      | _ => lift (Raise TypeError)
      end.

(** [_load_file]: a file that cannot be read or decoded leaves the window
    as it was. *)
Definition _load_file (disk : Disk.t) (path : str) : M t unit :=
  match Disk.content disk path with
  | None => ret tt
  | Some text =>
      match Json.load text with
      | None => ret tt
      | Some doc =>
          modify (set_chapter doc) ;;;
          modify (set_filepath (Some path)) ;;;
          modify (set_dirty false) ;;;
          modify (set_current_idx (-1))
      end
  end.

(** [_save_file], on the window and the disk.  Without a file path the
    method opens the file chooser and returns. *)
Definition _save_file : M (t * Disk.t) unit :=
  s <- read ;;
  if negb (truthy (_chapter (fst s))) then ret tt
  else if no_filepath (fst s) then ret tt
  else
    zoom fst (fun w s => (w, snd s)) _flush ;;;
    s <- read ;;
    match _filepath (fst s) with
    | None => ret tt
    | Some path =>
        if Disk.writable (snd s) path then
          modify (fun s =>
            (set_dirty false (fst s),
             Disk.write path (Json.dump (_chapter (fst s)) ++ [10%N])
                        (snd s)))
        else ret tt
    end.

(** The buttons of the step list. *)
Inductive action : Type :=
| AddStep (step_type : str)
| DeleteStep
| MoveStep (direction : Z)
| Flush.

Definition perform (isprintable : N -> bool) (a : action) : M t unit :=
  match a with
  | AddStep step_type => _add_step isprintable step_type
  | DeleteStep => _delete_step
  | MoveStep direction => _move_step direction
  | Flush => _flush
  end.

(** A handler that raises leaves the window as it is at that point, and
    the main loop goes on with the next event. *)
Fixpoint run (isprintable : N -> bool) (acts : list action) (w : t) : t :=
  match acts with
  | [] => w
  | a :: rest => run isprintable rest (fst (perform isprintable a w))
  end.

(** [self._chapter.get("steps", [])] when it is a list, else no steps. *)
Definition steps_of (w : t) : list json :=
  match get (_chapter w) (lit "steps") (JList []) with
  | Ok (JList l) => l
  | _ => []
  end.

End LevelEditorWindow.

(** ** The dev server: [DevHandler] of [tools/dev_server.py] *)

Module DevHandler.
Import Py.

(** The file system the server runs on: a tree of directories, files and
    symbolic links. *)
Unset Elimination Schemes.
Inductive node : Type :=
| File (readable : bool) (content : list Byte.byte)
| Dir (entries : list (str * node))
| Symlink (target : str).
Set Elimination Schemes.

(** An absolute path without [.], [..] or empty components. *)
Definition path : Type := list str.

Fixpoint find_entry (entries : list (str * node)) (name : str)
  : option node :=
  match entries with
  | [] => None
  | (n, x) :: rest => if str_eqb n name then Some x else find_entry rest name
  end.

(** [os.lstat]: the node at a path, links not followed. *)
Fixpoint lstat (root : node) (p : path) : option node :=
  match p with
  | [] => Some root
  | name :: rest =>
      match root with
      | Dir entries =>
          match find_entry entries name with
          | Some x => lstat x rest
          | None => None
          end
      | _ => None
      end
  end.

(** [str(p)] *)
Definition path_str (p : path) : str :=
  match p with
  | [] => lit "/"
  | _ => flat_map (fun c => 47%N :: c) p
  end.

(** [os.path.realpath] on the components [rest] still to walk from the
    resolved directory [p]: [..] drops the last component, a symbolic link
    is replaced by its target, a name that does not exist is kept.  [fuel]
    bounds the steps; a walk that needs more is a loop of links, for which
    [Path.resolve] raises [RuntimeError]. *)
Fixpoint joinrealpath (fuel : nat) (root : node) (p : path)
    (rest : list str) : result path :=
  match fuel with
  | O => Raise RuntimeError
  | S f =>
      match rest with
      | [] => Ok p
      | name :: rest' =>
          if str_eqb name [] || str_eqb name (lit ".") then
            joinrealpath f root p rest'
          else if str_eqb name (lit "..") then
            joinrealpath f root (removelast p) rest'
          else
            match lstat root (p ++ [name]) with
            | Some (Symlink target) =>
                if startswith target (lit "/") then
                  joinrealpath f root [] (split 47 target ++ rest')
                else joinrealpath f root p (split 47 target ++ rest')
            | _ => joinrealpath f root (p ++ [name]) rest'
            end
      end
  end.

Fixpoint count_nodes (n : node) : nat :=
  match n with
  | Dir entries =>
      S ((fix go (es : list (str * node)) : nat :=
            match es with
            | [] => O
            | (_, x) :: rest => count_nodes x + go rest
            end) entries)
  | _ => 1
  end.

(** [Path.resolve()] of the path with components [comps] below the root
    directory; a name with a null character raises [ValueError]. *)
Definition resolve (root : node) (comps : list str) : result path :=
  if existsb (existsb (N.eqb 0)) comps then Raise ValueError
  else
    joinrealpath (S (List.length comps) * S (count_nodes root)) root []
                 comps.

Inductive response : Type :=
| SendError (code : nat)               (* [send_error]: an error page *)
| SendFile (content : list Byte.byte)  (* 200 and the bytes of a file *)
| Crash (e : exn)                      (* the handler raised *)
| ServeWebBuild.                       (* not a [/data/] request *)

Section Server.

Variable root : node.

(** [PROJECT_ROOT], resolved when the module is loaded. *)
Variable PROJECT_ROOT : path.

Definition DATA_DIR : path := PROJECT_ROOT ++ [lit "data"].

Definition _serve_data_file (url_path : str) : response :=
  let rel_path := lstrip_char 47 url_path in
  let file_path := PROJECT_ROOT ++ split 47 rel_path in
  match resolve root file_path with
  | Raise ValueError | Raise OSError => SendError 400
  | Raise e => Crash e
  | Ok file_path =>
      match resolve root DATA_DIR with
      | Raise ValueError | Raise OSError => SendError 400
      | Raise e => Crash e
      | Ok data_dir =>
          if negb (startswith (path_str file_path) (path_str data_dir))
          then SendError 403
          else
            match lstat root file_path with
            | Some (File readable content) =>
                if readable then SendFile content else SendError 500
            | _ => SendError 404
            end
      end
  end.

(** [do_GET], [parsed_path] being [urlparse(self.path).path]. *)
Definition do_GET (parsed_path : str) : response :=
  if startswith parsed_path (lit "/data/") then _serve_data_file parsed_path
  else ServeWebBuild.

(** The path is the directory [dir] or lies below it
    ([Path.is_relative_to]). *)
Fixpoint is_under (dir p : path) : bool :=
  match dir, p with
  | [], _ => true
  | d :: dir', c :: p' => str_eqb d c && is_under dir' p'
  | _ :: _, [] => false
  end.

End Server.

End DevHandler.

(** ** The notions the properties are stated with *)

Module Props.
Import Py State.
Import LevelEditorWindow.
Local Open Scope Z_scope.

(** The current-step pointer is -1 or an index into the steps. *)
Definition idx_ok (w : t) : Prop :=
  _current_idx w = -1
  \/ 0 <= _current_idx w < Z.of_nat (List.length (steps_of w)).

Definition is_dict (v : json) : bool :=
  match v with JDict _ => true | _ => false end.

(** The step is a puzzle step: its [type] is ["puzzle"]. *)
Definition is_puzzle (step : json) : bool :=
  match step with
  | JDict d =>
      match dict_get d (lit "type") with
      | Some ty => eq_str ty (lit "puzzle")
      | None => false
      end
  | _ => false
  end.


(** The opponent moves as the specification words them: the text split on
    commas, each token trimmed, the empty tokens dropped. *)
Definition opponent_moves_spec (text : str) : list str :=
  filter (fun m => match m with [] => false | _ => true end)
         (map strip (split 44 text)).


(** The cell at a position of a grid. *)
Definition cell (g : BoardGrid.grid) (r c : nat) : option json :=
  match nth_error g r with
  | Some cells => nth_error cells c
  | None => None
  end.

(** The fields of the window other than the editing buffers and the
    dirty mark. *)
Definition same_document (w w' : t) : Prop :=
  _chapter w' = _chapter w /\ _current_idx w' = _current_idx w
  /\ _filepath w' = _filepath w.

(** What a flush stores: the data of the editor for the type of the
    active step, or nothing for a step of another type. *)
Definition flush_data (w : t) (step : json) : option json :=
  match get step (lit "type") JNull with
  | Ok stype =>
      if eq_str stype (lit "puzzle")
      then Some (PuzzleEditor.get_step_data (_puzzle_editor w))
      else if eq_str stype (lit "dialog")
           then Some (DialogEditor.get_step_data (_dialog_editor w))
           else None
  | Raise _ => None
  end.

(** The active step after a flush: the data stored, or the step as it
    was. *)
Definition flush_step (w : t) (step : json) : json :=
  match flush_data w step with
  | Some data => data
  | None => step
  end.

(** The puzzle step of the example document. *)
Definition example_puzzle : json :=
  JDict [
    (lit "type", JStr (lit "puzzle"));
    (lit "id", JStr (lit "ch1_p01"));
    (lit "board", BoardGrid.empty_board);
    (lit "win_condition",
       JDict [(lit "type", JStr (lit "capture_chief"));
              (lit "max_moves", JInt 1)]);
    (lit "player", JStr (lit "white"));
    (lit "opponent_moves", JList [])
  ].

(** The example document: chapter 1, titled T, with the one puzzle step. *)
Definition example_doc : json :=
  JDict [(lit "chapter", JInt 1); (lit "title", JStr (lit "T"));
         (lit "steps", JList [example_puzzle])].

(** A window that holds the example document, the pointer at [idx]. *)
Definition example_window (idx : Z) : t :=
  set_current_idx idx (set_chapter example_doc init).

(** A project directory [/srv/wachesaw] with [data/story/chapter_1.json],
    [tools/dev_server.py] and, next to [data], a directory [data_private]
    holding a file. *)
Definition example_tree : DevHandler.node :=
  DevHandler.Dir [
    (lit "srv", DevHandler.Dir [
      (lit "wachesaw", DevHandler.Dir [
        (lit "data", DevHandler.Dir [
          (lit "story", DevHandler.Dir [
            (lit "chapter_1.json",
               DevHandler.File true [Byte.x7b; Byte.x7d])])]);
        (lit "data_private", DevHandler.Dir [
          (lit "secret.json", DevHandler.File true [Byte.x53; Byte.x33])]);
        (lit "tools", DevHandler.Dir [
          (lit "dev_server.py", DevHandler.File true [Byte.x23])])])])].

Definition example_project_root : DevHandler.path :=
  [lit "srv"; lit "wachesaw"].

(** *** Well-formed documents

    The strings a document can hold: code points below 0x110000, and no
    high surrogate directly followed by a low one (the decoder joins such
    a pair of escapes into one character). *)

Definition valid_char (c : N) : bool := (c <? 1114112)%N.

Fixpoint no_pair (s : str) : bool :=
  match s with
  | a :: (b :: _) as t => negb (Json.is_high a && Json.is_low b) && no_pair t
  | _ => true
  end.

Definition wf_str (s : str) : bool := forallb valid_char s && no_pair s.

Fixpoint nodup_keys (ks : list str) : bool :=
  match ks with
  | [] => true
  | k :: rest => negb (existsb (str_eqb k) rest) && nodup_keys rest
  end.

(** A document as [json.load] builds it: well-formed strings, and no key
    twice in a [dict]. *)
Fixpoint wf (v : json) : bool :=
  match v with
  | JStr s => wf_str s
  | JList l => forallb wf l
  | JDict d =>
      nodup_keys (map fst d)
      && forallb (fun kv => match kv with
                            | (k, x) => wf_str k && wf x
                            end) d
  | _ => true
  end.

(** The text of a file as [open(path)] decodes it: Unicode scalar values,
    so no surrogate code points. *)
Definition scalar (c : N) : bool :=
  ((c <? 1114112) && negb ((55296 <=? c) && (c <=? 57343)))%N.

Definition valid_text (s : str) : bool := forallb scalar s.

Definition starts_low (s : str) : bool :=
  match s with
  | c :: _ => Json.is_low c
  | [] => false
  end.

Definition ends_high (s : str) : bool :=
  match rev s with
  | c :: _ => Json.is_high c
  | [] => false
  end.

(** The text does not start with the escape of a low surrogate (or with a
    malformed [\u] escape). *)
Definition no_low_escape (r : str) : bool :=
  match r with
  | b1 :: u1 :: a2 :: b2 :: c2 :: d2 :: _ =>
      if N.eqb b1 92 && N.eqb u1 117 then
        match Json.hex4_val a2 b2 c2 d2 with
        | Some u => negb (Json.is_low u)
        | None => false
        end
      else true
  | _ => true
  end.

(** The items of a list after the first, and the closing bracket, as
    [Json.encode] writes them at level [lv]. *)
Fixpoint encode_items (lv : nat) (l : list json) : str :=
  match l with
  | [] => Json.newline_indent lv ++ [93%N]
  | y :: l' =>
      44%N :: Json.newline_indent (S lv) ++ Json.encode (S lv) y
      ++ encode_items lv l'
  end.

Fixpoint encode_pairs (lv : nat) (d : list (str * json)) : str :=
  match d with
  | [] => Json.newline_indent lv ++ [125%N]
  | (k, y) :: d' =>
      44%N :: Json.newline_indent (S lv) ++ Json.encode_string k
      ++ lit ": " ++ Json.encode (S lv) y ++ encode_pairs lv d'
  end.

(** A bound on the nested calls [Json.scan_once] makes on the text of a
    value. *)
Fixpoint size (v : json) : nat :=
  match v with
  | JList l => S (fold_right (fun x n => S (size x + n)) O l)
  | JDict d =>
      S (fold_right (fun kv n => match kv with
                                 | (_, x) => S (size x + n)
                                 end) O d)
  | _ => 1
  end.

(** The text after a value in an encoded document: a comma, a line break,
    or nothing. *)
Definition after_value (rest : str) : bool :=
  match rest with
  | [] => true
  | c :: _ => N.eqb c 44 || N.eqb c 10
  end.

(** The shapes of an encoded character: itself, a one-letter escape, a
    four-digit escape, or the escapes of a surrogate pair. *)
Inductive enc_shape (c : N) : str -> Prop :=
| enc_plain :
    N.eqb c 34 = false -> N.eqb c 92 = false -> (32 <= c)%N ->
    enc_shape c [c]
| enc_escape e :
    N.eqb e 117%N = false -> Json.unescape e = Some c -> enc_shape c [92%N; e]
| enc_u a b c4 d :
    (c < 65536)%N -> Json.hex4_val a b c4 d = Some c ->
    enc_shape c [92%N; 117%N; a; b; c4; d]
| enc_pair a b c4 d uni a2 b2 c2 d2 uni2 :
    Json.hex4_val a b c4 d = Some uni -> Json.is_high uni = true ->
    Json.hex4_val a2 b2 c2 d2 = Some uni2 -> Json.is_low uni2 = true ->
    c = (65536 + (uni - 55296) * 1024 + (uni2 - 56320))%N ->
    enc_shape c [92%N; 117%N; a; b; c4; d; 92%N; 117%N; a2; b2; c2; d2].

(** The text does not go on with a digit. *)
Definition not_digit_next (rest : str) : Prop :=
  match rest with
  | c :: _ => Json.is_digit c = false
  | [] => True
  end.

(** The first character of an encoded value: not white space and not a
    closing bracket. *)
Definition value_start (c : N) : Prop :=
  Json.is_ws c = false /\ N.eqb c 93%N = false /\ N.eqb c 125%N = false.

(** What the round trip says of one value. *)
Definition scans_back (v : json) : Prop :=
  forall lv rest fuel,
    (size v <= fuel)%nat -> after_value rest = true ->
    Json.scan_once fuel (Json.encode lv v ++ rest) = Some (v, rest).

(** A string that can stand next to any other: well formed, not starting
    with a low surrogate, not ending with a high one. *)
Definition tight (s : str) : Prop :=
  wf_str s = true /\ starts_low s = false /\ ends_high s = false.

Definition is_ascii (c : N) : bool := (c <? 128)%N.

(** The first step of [scanstring] on a text it accepts. *)
Inductive scan_step (s : str) (t r : str) : Prop :=
| step_end : s = 34%N :: r -> t = [] -> scan_step s t r
| step_plain c s' t' :
    s = c :: s' -> N.eqb c 34 = false -> N.eqb c 92 = false -> (32 <= c)%N ->
    Json.scanstring s' = Some (t', r) -> t = c :: t' -> scan_step s t r
| step_escape e ch s' t' :
    s = 92%N :: e :: s' -> Json.unescape e = Some ch ->
    Json.scanstring s' = Some (t', r) -> t = ch :: t' -> scan_step s t r
| step_u a b c d uni s' t' :
    s = 92%N :: 117%N :: a :: b :: c :: d :: s' ->
    Json.hex4_val a b c d = Some uni ->
    Json.is_high uni = false \/ no_low_escape s' = true ->
    Json.scanstring s' = Some (t', r) -> t = uni :: t' -> scan_step s t r
| step_pair a b c d uni a2 b2 c2 d2 uni2 s' t' :
    s = 92%N :: 117%N :: a :: b :: c :: d
        :: 92%N :: 117%N :: a2 :: b2 :: c2 :: d2 :: s' ->
    Json.hex4_val a b c d = Some uni -> Json.is_high uni = true ->
    Json.hex4_val a2 b2 c2 d2 = Some uni2 -> Json.is_low uni2 = true ->
    Json.scanstring s' = Some (t', r) ->
    t = (65536 + (uni - 55296) * 1024 + (uni2 - 56320))%N :: t' ->
    scan_step s t r.

(** The strings and the board of a puzzle editor are well formed. *)
Definition wf_puzzle_editor (e : PuzzleEditor.t) : bool :=
  wf_str (PuzzleEditor._id_entry e) && wf_str (PuzzleEditor._title_entry e)
  && wf_str (PuzzleEditor._desc_entry e)
  && wf_str (PuzzleEditor._hint_entry e)
  && wf_str (PuzzleEditor._opp_entry e)
  && wf (PuzzleEditor._board_grid e).

Definition wf_window (w : t) : bool :=
  wf (_chapter w) && wf_puzzle_editor (_puzzle_editor w)
  && wf (_dialog_editor w).

(** A method keeps the invariant [I] of its object, whether it returns or
    raises, and what it returns satisfies [Q]. *)
Definition keeps {S A} (I : S -> Prop) (Q : A -> Prop) (c : M S A) : Prop :=
  forall s, I s -> I (fst (c s)) /\ (forall a, snd (c s) = Ok a -> Q a).

(** A window that holds a well-formed, non-empty document of the file
    [p]. *)
Definition good (p : option str) (w : t) : Prop :=
  wf_window w = true /\ _filepath w = p /\ truthy (_chapter w) = true.

Definition good_editor (e : PuzzleEditor.t) : Prop :=
  wf_puzzle_editor e = true.

(** A disk whose one file holds the example document, and a session of
    the editor on it. *)
Definition example_path : str := lit "/srv/wachesaw/data/story/chapter_1.json".

Definition example_disk : Disk.t :=
  Disk.mk (fun p => if str_eqb p example_path
                    then Some (Json.dump example_doc ++ [10%N]) else None)
          (fun _ => true).



(** Every step of the document is an object. *)
Definition shaped (w : t) : Prop := forallb is_dict (steps_of w) = true.

(** The value read as [steps], when it is a list, holds objects only. *)
Definition dict_items (steps : json) : Prop :=
  forall l, steps = JList l -> forallb is_dict l = true.

(** The window after the steps, read as the list [l], took a new step at
    [insert_at]. *)
Definition inserted (w : t) (l : list json) (insert_at : Z) (new_step : json)
  : t :=
  set_current_idx insert_at
    (set_chapter (put_steps (JList (list_insert l insert_at new_step))
                            (_chapter w)) w).

(** The position [_add_step] inserts at. *)
Definition insert_position (w : t) (l : list json) : Z :=
  if 0 <=? _current_idx w then _current_idx w + 1
  else Z.of_nat (List.length l).

(** The window after the active step of the list [l1] changed places with
    the step at [new_idx]. *)
Definition swapped (w1 : t) (d1 : list (str * json)) (l1 : list json)
    (new_idx : Z) (a b : json) : t :=
  set_dirty true
    (set_current_idx new_idx
       (set_chapter
          (JDict (dict_set d1 (lit "steps")
                    (JList (update (update l1 (Z.to_nat (_current_idx w1)) a)
                                   (Z.to_nat new_idx) b))))
          w1)).

End Props.


(** ** The handlers of the widgets

    What the window does when the user acts on a widget: the callbacks of
    the step list, of the fields of the two editors and of the board.  The
    editors are built with [on_change=self._mark_dirty]. *)

Module Events.
Import Py State LevelEditorWindow.
Local Open Scope monad_scope.
Local Open Scope Z_scope.

(** [_on_row_selected], [row] being the index of the selected row, or
    [None]. *)
Definition _on_row_selected (row : option Z) : M t unit :=
  match row with
  | None => ret tt
  | Some i =>
      _flush ;;;
      modify (set_current_idx i) ;;;
      w <- read ;;
      steps <- lift (get (_chapter w) (lit "steps") (JList [])) ;;
      in_range <- (if 0 <=? i then n <- lift (len steps) ;; ret (i <? n)
                   else ret false) ;;
      if in_range then step <- lift (getitem steps i) ;; _show_step step
      else ret tt
  end.

(** [PuzzleEditor._notify] *)
Definition _notify : M t unit :=
  w <- read ;;
  if PuzzleEditor._loading (_puzzle_editor w) then ret tt else _mark_dirty.

(** The text entries of the puzzle editor. *)
Inductive entry : Set :=
| IdEntry | TitleEntry | DescEntry | HintEntry | OppEntry.

Definition set_entry (f : entry) (text : str) (e : PuzzleEditor.t)
  : PuzzleEditor.t :=
  match f with
  | IdEntry => PuzzleEditor.set_id text e
  | TitleEntry => PuzzleEditor.set_title text e
  | DescEntry => PuzzleEditor.set_desc text e
  | HintEntry => PuzzleEditor.set_hint text e
  | OppEntry => PuzzleEditor.set_opp text e
  end.

(** The callback of [changed], the entry now holding [text]. *)
Definition entry_changed (f : entry) (text : str) : M t unit :=
  modify (fun w => set_puzzle_editor (set_entry f text (_puzzle_editor w)) w)
  ;;; _notify.

(** The callbacks of [notify::selected], the drop-down now showing item
    [i]. *)
Definition player_selected (i : PuzzleEditor.selected) : M t unit :=
  modify (fun w =>
    set_puzzle_editor (PuzzleEditor.set_player i (_puzzle_editor w)) w)
  ;;; _notify.

Definition win_selected (i : PuzzleEditor.selected) : M t unit :=
  modify (fun w =>
    set_puzzle_editor (PuzzleEditor.set_win i (_puzzle_editor w)) w)
  ;;; _notify.

(** The callback of [value-changed]; the adjustment keeps the value the
    user asks for within 1..20. *)
Definition max_moves_changed (z : Z) : M t unit :=
  modify (fun w =>
    set_puzzle_editor
      (PuzzleEditor.set_max_moves (Z.max 1 (Z.min 20 z)) (_puzzle_editor w))
      w)
  ;;; _notify.

(** [row[col] = piece] for a row of the board.  A row that is a [dict]
    would get the integer [col] as a key, which [json] cannot hold: that
    case is left out ([None]). *)
Definition row_setitem (x : json) (col : Z) (piece : json)
  : option (result json) :=
  match x with
  | JList cells =>
      Some (rbind (index (List.length cells) col)
                  (fun c => Ok (JList (update cells c piece))))
  | JDict _ => None
  | _ => Some (Raise TypeError)
  end.

(** [self._board[row][col] = piece] of [BoardGrid._place], on any board. *)
Definition board_setitem (board : json) (row col : Z) (piece : json)
  : option (result json) :=
  match board with
  | JList rows =>
      match index (List.length rows) row with
      | Raise e => Some (Raise e)
      | Ok r =>
          match nth_error rows r with
          | None => Some (Raise IndexError)
          | Some x =>
              match row_setitem x col piece with
              | Some (Ok x') => Some (Ok (JList (update rows r x')))
              | Some (Raise e) => Some (Raise e)
              | None => None
              end
          end
      end
  | JStr s =>
      match index (List.length s) row with
      | Raise e => Some (Raise e)
      | Ok _ => Some (Raise TypeError)
      end
  | JDict _ => Some (Raise KeyError)
  | _ => Some (Raise TypeError)
  end.

(** A pick in the popover of the cell at ([row], [col]): [BoardGrid._place]
    and then [PuzzleEditor._notify]. *)
Definition cell_picked (row col : Z) (piece : json)
  : t -> option (t * result unit) :=
  fun w =>
    match board_setitem (PuzzleEditor._board_grid (_puzzle_editor w))
                        row col piece with
    | None => None
    | Some (Raise e) => Some (w, Raise e)
    | Some (Ok board) =>
        Some (_notify
                (set_puzzle_editor
                   (PuzzleEditor.set_grid board (_puzzle_editor w)) w))
    end.

(** [DialogEditor._on_field_changed], [text] being what the entry holds. *)
Definition dialog_field_changed (text : str) (idx : Z) (key : str)
  : M t unit :=
  w <- read ;;
  n <- lift (len (_dialog_editor w)) ;;
  if idx <? n then
    zoom _dialog_editor set_dialog_editor
         (DialogEditor._on_field_changed text idx key) ;;;
    _mark_dirty
  else ret tt.

(** [DialogEditor._add_line] *)
Definition dialog_add_line : M t unit :=
  zoom _dialog_editor set_dialog_editor DialogEditor._add_line ;;;
  _mark_dirty.

(** [DialogEditor._delete_line], [sel] being the index of the selected
    row, if any. *)
Definition dialog_delete_line (sel : option Z) : M t unit :=
  match sel with
  | None => ret tt
  | Some idx =>
      w <- read ;;
      in_range <- (if 0 <=? idx then
                     n <- lift (len (_dialog_editor w)) ;; ret (idx <? n)
                   else ret false) ;;
      if in_range then
        zoom _dialog_editor set_dialog_editor
             (DialogEditor._delete_line sel) ;;;
        _mark_dirty
      else ret tt
  end.

(** What the user can do in the window. *)
Inductive event : Type :=
| Button (a : action)
| RowSelected (row : option Z)
| EntryChanged (f : entry) (text : str)
| PlayerSelected (i : PuzzleEditor.selected)
| WinSelected (i : PuzzleEditor.selected)
| MaxMovesChanged (z : Z)
| CellPicked (row col : Z) (piece : json)
| DialogFieldChanged (text : str) (idx : Z) (key : str)
| DialogAddLine
| DialogDeleteLine (sel : option Z).

(** The window after the handler of an event, and what the handler
    returned; [None] for the one case left out of [row_setitem]. *)
Definition handle (isprintable : N -> bool) (ev : event)
  : t -> option (t * result unit) :=
  fun w =>
    match ev with
    | Button a => Some (perform isprintable a w)
    | RowSelected row => Some (_on_row_selected row w)
    | EntryChanged f text => Some (entry_changed f text w)
    | PlayerSelected i => Some (player_selected i w)
    | WinSelected i => Some (win_selected i w)
    | MaxMovesChanged z => Some (max_moves_changed z w)
    | CellPicked row col piece => cell_picked row col piece w
    | DialogFieldChanged text idx key =>
        Some (dialog_field_changed text idx key w)
    | DialogAddLine => Some (dialog_add_line w)
    | DialogDeleteLine sel => Some (dialog_delete_line sel w)
    end.

(** A session: the events in turn.  A handler that raises leaves the
    window as it is at that point. *)
Fixpoint session (isprintable : N -> bool) (evs : list event) (w : t)
  : option t :=
  match evs with
  | [] => Some w
  | ev :: rest =>
      match handle isprintable ev w with
      | Some (w', _) => session isprintable rest w'
      | None => None
      end
  end.

End Events.

(** ** The Play button: the save, the puzzle to open and the command of
    the server ([LevelEditorWindow._play_in_browser]) *)

Module Play.
Import Py State LevelEditorWindow.
Local Open Scope Z_scope.

(** The loop [for s in steps[idx + 1:]]: the id of the first puzzle step,
    [""] when there is none. *)
Fixpoint next_puzzle_id (items : list json) : result json :=
  match items with
  | [] => Ok (JStr [])
  | s :: rest =>
      rbind (get s (lit "type") JNull) (fun ty =>
      if eq_str ty (lit "puzzle") then get s (lit "id") (JStr [])
      else next_puzzle_id rest)
  end.

(** [puzzle_arg]: the id of the active step when it is a puzzle, else of
    the next puzzle step. *)
Definition puzzle_arg (w : t) : result json :=
  if 0 <=? _current_idx w then
    rbind (get (_chapter w) (lit "steps") (JList [])) (fun steps =>
    rbind (len steps) (fun n =>
    if _current_idx w <? n then
      rbind (getitem steps (_current_idx w)) (fun step =>
      rbind (get step (lit "type") JNull) (fun ty =>
      if eq_str ty (lit "puzzle") then get step (lit "id") (JStr [])
      else
        match steps with
        | JList l => next_puzzle_id (skipn (Z.to_nat (_current_idx w + 1)) l)
        | _ => Raise TypeError
        end))
    else Ok (JStr [])))
  else Ok (JStr []).

(** [Path.relative_to]: the components of [p] below [dir]. *)
Fixpoint relative_to (dir p : DevHandler.path) : option DevHandler.path :=
  match dir, p with
  | [], _ => Some p
  | d :: dir', c :: p' => if str_eqb d c then relative_to dir' p' else None
  | _ :: _, [] => None
  end.

(** [str(p)] for a relative path. *)
Definition rel_str (p : DevHandler.path) : str :=
  match p with
  | [] => lit "."
  | _ => join (lit "/") p
  end.

(** What the method goes on to do. *)
Inductive outcome : Type :=
| Launch (cmd : list str)   (* [subprocess.Popen(cmd, ...)] *)
| NotInData                 (* the error dialog, and return *)
| Raised (e : exn).

Section Environment.

(** The file system, the working directory (as [os.getcwd] gives it),
    the resolved directory of the script ([Path(__file__).resolve().parent]),
    [sys.executable] and the table of [str.isprintable]. *)
Variable root : DevHandler.node.
Variable cwd : DevHandler.path.
Variable script_dir : DevHandler.path.
Variable executable : str.
Variable isprintable : N -> bool.

Definition PROJECT_DIR : DevHandler.path := removelast script_dir.

Definition DATA_DIR : DevHandler.path := PROJECT_DIR ++ [lit "data"].

(** The components [Path(filepath).resolve()] walks. *)
Definition absolute (filepath : str) : list str :=
  if startswith filepath (lit "/") then split 47 filepath
  else cwd ++ split 47 filepath.

(** [str(Path(self._filepath).resolve().relative_to(DATA_DIR.resolve()))];
    [None] where the code catches [ValueError]. *)
Definition watch_rel (filepath : str) : result (option str) :=
  match DevHandler.resolve root (absolute filepath) with
  | Raise ValueError => Ok None
  | Raise e => Raise e
  | Ok file =>
      match DevHandler.resolve root DATA_DIR with
      | Raise ValueError => Ok None
      | Raise e => Raise e
      | Ok data =>
          match relative_to data file with
          | Some rel => Ok (Some (rel_str rel))
          | None => Ok None
          end
      end
  end.

(** [self._server_port] *)
Definition _server_port : Z := 8001.

(** [str(server_script)], the script being next to the editor. *)
Definition server_script : str :=
  DevHandler.path_str (script_dir ++ [lit "dev_server.py"]).

(** The command line of the dev server. *)
Definition command (w : t) (filepath : str) : outcome :=
  match watch_rel filepath with
  | Raise e => Raised e
  | Ok None => NotInData
  | Ok (Some rel) =>
      match puzzle_arg w with
      | Raise e => Raised e
      | Ok arg =>
          Launch ([executable; server_script; int_str _server_port;
                   lit "--watch=" ++ rel]
                  ++ (if truthy arg
                      then [lit "--puzzle=" ++ to_str isprintable arg]
                      else []))
      end
  end.

(** [_play_in_browser], on the window and the disk: what the method goes
    on to do after the save, or [None] where it returns before. *)
Definition _play_in_browser (s : t * Disk.t)
  : (t * Disk.t) * option outcome :=
  if negb (truthy (_chapter (fst s))) || no_filepath (fst s) then (s, None)
  else
    match _save_file s with
    | (s', Raise e) => (s', Some (Raised e))
    | (s', Ok _) =>
        if _dirty (fst s') then (s', None)  (* save failed *)
        else
          match _filepath (fst s') with
          | Some filepath => (s', Some (command (fst s') filepath))
          | None => (s', None)
          end
    end.

End Environment.

End Play.

(** ** The dev server's configuration: [tools/dev_server.py] at import *)

Module DevServer.
Import Py.
Local Open Scope Z_scope.

Record config : Type := mk {
  PORT : Z;
  WATCH_PATH : str;
  WATCH_PUZZLE : str
}.

Definition defaults : config := mk 8000 [] [].

Section Unicode.

(** [str.isdigit] on one code point above ASCII, and [int] of a string
    that is not made of at most 4300 ASCII digits: the tables of the
    Unicode database and the limit on the length of a number, which are
    not part of the program. *)
Variable unicode_isdigit : N -> bool.
Variable int_other : str -> result Z.

(** [arg.isdigit()] *)
Definition isdigit (s : str) : bool :=
  match s with
  | [] => false
  | _ => forallb (fun c => if (c <? 128)%N then Json.is_digit c
                           else unicode_isdigit c) s
  end.

(** The number a string of ASCII digits writes. *)
Definition digits_value (s : str) : Z :=
  fold_left (fun acc c => 10 * acc + (Z.of_N c - 48)) s 0.

(** [int(arg)] for a string that passed [isdigit]. *)
Definition int (s : str) : result Z :=
  if forallb Json.is_digit s && (List.length s <=? 4300)%nat
  then Ok (digits_value s)
  else int_other s.

(** One turn of the loop over [sys.argv[1:]]. *)
Definition parse_arg (c : config) (arg : str) : result config :=
  if startswith arg (lit "--watch=") then
    Ok (mk (PORT c) (skipn 8 arg) (WATCH_PUZZLE c))
  else if startswith arg (lit "--puzzle=") then
    Ok (mk (PORT c) (WATCH_PATH c) (skipn 9 arg))
  else if isdigit arg then
    rbind (int arg) (fun n => Ok (mk n (WATCH_PATH c) (WATCH_PUZZLE c)))
  else Ok c.

Fixpoint parse_args (args : list str) (c : config) : result config :=
  match args with
  | [] => Ok c
  | arg :: rest => rbind (parse_arg c arg) (parse_args rest)
  end.

End Unicode.

(** [json.dumps(obj)]: one line, [", "] between items and [": "] after a
    key. *)
Fixpoint dumps (v : json) : str :=
  match v with
  | JNull => lit "null"
  | JBool true => lit "true"
  | JBool false => lit "false"
  | JInt z => int_str z
  | JStr s => Json.encode_string s
  | JList l => lit "[" ++ join (lit ", ") (map dumps l) ++ lit "]"
  | JDict d =>
      lit "{"
      ++ join (lit ", ")
              (map (fun kv => match kv with
                              | (k, x) =>
                                  Json.encode_string k ++ lit ": " ++ dumps x
                              end) d)
      ++ lit "}"
  end.

(** The [config] object of [_build_config_script]. *)
Definition watch_config (c : config) : json :=
  JDict ((lit "watch", JStr (WATCH_PATH c))
         :: match WATCH_PUZZLE c with
            | [] => []
            | _ => [(lit "puzzle", JStr (WATCH_PUZZLE c))]
            end).

Definition _build_config_script (c : config) : str :=
  match WATCH_PATH c with
  | [] => []
  | _ =>
      lit "<script>window.WACHESAW_WATCH=" ++ dumps (watch_config c)
      ++ [59%N] ++ lit "</script>" ++ [10%N]
  end.

End DevServer.

(** ** The dev server: the patched index page and the routes of [do_GET] *)

Module DevPages.
Import Py.

(** [s.replace(old, new, 1)] *)
Fixpoint replace_first (old new s : str) : str :=
  if startswith s old then new ++ skipn (List.length old) s
  else match s with
       | [] => []
       | c :: t => c :: replace_first old new t
       end.

Inductive response : Type :=
| Data (r : DevHandler.response)  (* what [_serve_data_file] answers *)
| Page (html : str)               (* 200 and the UTF-8 bytes of a page *)
| NoIndex                         (* 404, [index.html] is no file *)
| Crash (e : exn)                 (* the handler raised *)
| WebBuild.                       (* [super().do_GET()] *)

Section Server.

Variable root : DevHandler.node.
Variable PROJECT_ROOT : DevHandler.path.

(** The configuration read from the command line. *)
Variable c : DevServer.config.

(** [builds/web/index.html]: [None] when it is no file, else what
    [read_text] gives. *)
Variable index_html : option (result str).

Definition _CONFIG_SCRIPT : str := DevServer._build_config_script c.

Definition _serve_patched_index : response :=
  match index_html with
  | None => NoIndex
  | Some (Raise e) => Crash e
  | Some (Ok html) =>
      Page (replace_first (lit "</head>") (_CONFIG_SCRIPT ++ lit "</head>")
                          html)
  end.

(** [do_GET], [parsed_path] being [urlparse(self.path).path]. *)
Definition do_GET (parsed_path : str) : response :=
  if startswith parsed_path (lit "/data/") then
    Data (DevHandler._serve_data_file root PROJECT_ROOT parsed_path)
  else if match _CONFIG_SCRIPT with [] => false | _ => true end
          && (str_eqb parsed_path (lit "/")
              || str_eqb parsed_path (lit "/index.html")) then
    _serve_patched_index
  else WebBuild.

End Server.

End DevPages.

(** ** What the buttons of the board show

    [piece_symbol], [piece_tooltip] and [BoardGrid._refresh]: the markup
    and the tooltip each of the 25 buttons is given. *)

Module BoardView.
Import Py.
Local Open Scope Z_scope.

Definition PIECE_SYMBOLS : list (str * list (str * str)) :=
  [(lit "white",
    [(lit "CHIEF", [9812%N]); (lit "HUNTER", [9814%N]);
     (lit "KEEPER", [9813%N]); (lit "RIVER_RUNNER", [9815%N]);
     (lit "TRADER", [9816%N])]);
   (lit "black",
    [(lit "CHIEF", [9818%N]); (lit "HUNTER", [9820%N]);
     (lit "KEEPER", [9819%N]); (lit "RIVER_RUNNER", [9821%N]);
     (lit "TRADER", [9822%N])])].

Definition PIECE_LABELS : list (str * json) :=
  [(lit "CHIEF", JStr (lit "Chief")); (lit "HUNTER", JStr (lit "Hunter"));
   (lit "KEEPER", JStr (lit "Keeper"));
   (lit "RIVER_RUNNER", JStr (lit "River Runner"));
   (lit "TRADER", JStr (lit "Trader"))].

(** [cell[key]] for a string [key]: only a [dict] can have it. *)
Definition getitem_str (o : json) (key : str) : result json :=
  match o with
  | JDict d =>
      match dict_get d key with
      | Some v => Ok v
      | None => Raise KeyError
      end
  | _ => Raise TypeError
  end.

Fixpoint lookup {A} (table : list (str * A)) (key : str) : option A :=
  match table with
  | [] => None
  | (k, v) :: rest => if str_eqb k key then Some v else lookup rest key
  end.

(** [table.get(key, dflt)] on one of the tables above, whose keys are
    strings: [key] has to be hashable, and only a string can be found. *)
Definition table_get {A} (table : list (str * A)) (key : json) (dflt : A)
  : result A :=
  match key with
  | JList _ | JDict _ => Raise TypeError
  | JStr s => Ok (match lookup table s with Some v => v | None => dflt end)
  | _ => Ok dflt
  end.

Definition piece_symbol (cell : json) : result str :=
  match cell with
  | JNull => Ok []
  | _ =>
      rbind (getitem_str cell (lit "player")) (fun player =>
      rbind (table_get PIECE_SYMBOLS player []) (fun symbols =>
      rbind (getitem_str cell (lit "type")) (fun ty =>
      table_get symbols ty (lit "?"))))
  end.

Section Display.

(** [str.capitalize] and the table of [str.isprintable]: the Unicode
    database, which is not part of the program. *)
Variable capitalize : str -> str.
Variable isprintable : N -> bool.

Definition piece_tooltip (cell : json) : result str :=
  match cell with
  | JNull => Ok (lit "Empty " ++ 8212%N :: lit " click to place a piece")
  | _ =>
      rbind (getitem_str cell (lit "player")) (fun p =>
      rbind (match p with
             | JStr s => Ok (capitalize s)
             | _ => Raise AttributeError
             end) (fun player =>
      rbind (getitem_str cell (lit "type")) (fun ty =>
      rbind (getitem_str cell (lit "type")) (fun dflt =>
      rbind (table_get PIECE_LABELS ty dflt) (fun label =>
      Ok (player ++ lit " " ++ to_str isprintable label ++ lit " "
          ++ 8212%N :: lit " click to change"))))))
  end.

(** The markup of a button: the symbol in a large font, or a dot. *)
Definition markup (sym : str) : str :=
  match sym with
  | [] =>
      lit "<span font=" ++ 34%N :: lit "14" ++ 34%N :: lit " alpha="
      ++ 34%N :: lit "50%" ++ 34%N :: lit ">" ++ 183%N :: lit "</span>"
  | _ =>
      lit "<span font=" ++ 34%N :: lit "26" ++ 34%N :: lit ">" ++ sym
      ++ lit "</span>"
  end.

(** What one button is given: the markup of its label and its tooltip. *)
Definition button (cell : json) : result (str * str) :=
  rbind (piece_symbol cell) (fun sym =>
  rbind (piece_tooltip cell) (fun tip => Ok (markup sym, tip))).

(** The keys of [self._buttons], in the order [__init__] made them. *)
Definition range5 : list Z := [0; 1; 2; 3; 4].

Definition _buttons : list (Z * Z) :=
  flat_map (fun row => map (fun col => (row, col)) range5) range5.

Fixpoint refresh_from (_board : json) (keys : list (Z * Z))
  : result (list (str * str)) :=
  match keys with
  | [] => Ok []
  | (row, col) :: rest =>
      rbind (getitem _board row) (fun r =>
      rbind (getitem r col) (fun cell =>
      rbind (button cell) (fun x =>
      rbind (refresh_from _board rest) (fun xs => Ok (x :: xs)))))
  end.

(** [_refresh]: what the buttons show, in the order of [_buttons]. *)
Definition _refresh (_board : json) : result (list (str * str)) :=
  refresh_from _board _buttons.

End Display.

End BoardView.
(** ** The rows of the step list

    [LevelEditorWindow._rebuild_step_list]: the label of each row, computed
    from the document, and the row the method selects.  The rows themselves
    are GTK widgets; what is modelled is the text they are made with. *)

Module StepList.
Import Py LevelEditorWindow.
Local Open Scope Z_scope.

Section Labels.

Variable isprintable : N -> bool.

(** The exception of [d[:35]] on a [dict]: [TypeError] up to Python 3.11,
    where a slice cannot be hashed, [KeyError] from 3.12 on. *)
Variable dict_slice_error : exn.

(** [x or dflt] *)
Definition or_else (x dflt : json) : json := if truthy x then x else dflt.

(** [txt[:35]] *)
Definition slice35 (txt : json) : result json :=
  match txt with
  | JStr s => Ok (JStr (firstn 35 s))
  | JList l => Ok (JList (firstn 35 l))
  | JDict _ => Raise dict_slice_error
  | _ => Raise TypeError
  end.

(** [a + b] for a [str] [b]. *)
Definition add_str (a : json) (b : str) : result str :=
  match a with
  | JStr s => Ok (s ++ b)
  | _ => Raise TypeError
  end.

(** [txt[:35] + ("…" if len(txt) > 35 else "")] *)
Definition short (txt : json) : result str :=
  rbind (slice35 txt) (fun head =>
  rbind (len txt) (fun n =>
  add_str head (if 35 <? n then [8230%N] else []))).

(** One turn of the loop: the two counters after it, and the label. *)
Definition row (dialog_n puzzle_n : Z) (step : json)
  : result (Z * Z * str) :=
  rbind (get step (lit "type") JNull) (fun stype =>
  if eq_str stype (lit "dialog") then
    let dialog_n := dialog_n + 1 in
    rbind (get step (lit "lines") (JList [])) (fun lines =>
    if truthy lines then
      rbind (getitem lines 0) (fun first =>
      rbind (get first (lit "speaker") JNull) (fun v =>
      let spkr := or_else v (JStr [8212%N]) in
      rbind (get first (lit "text") (JStr [])) (fun txt =>
      rbind (short txt) (fun short =>
      Ok (dialog_n, puzzle_n,
          128172%N :: lit "  " ++ to_str isprintable spkr ++ lit ": "
          ++ short)))))
    else
      Ok (dialog_n, puzzle_n,
          128172%N :: lit "  Dialog " ++ int_str dialog_n))
  else if eq_str stype (lit "puzzle") then
    let puzzle_n := puzzle_n + 1 in
    rbind (get step (lit "id") (JStr (lit "p" ++ format_02d puzzle_n)))
          (fun pid =>
    rbind (get step (lit "title") (JStr [])) (fun title =>
    Ok (dialog_n, puzzle_n,
        9823%N :: lit "  " ++ to_str isprintable pid
        ++ (if truthy title then lit ": " ++ to_str isprintable title
            else []))))
  else Ok (dialog_n, puzzle_n, lit "?  " ++ to_str isprintable stype)).

(** The loop over the steps: the labels of the rows appended. *)
Fixpoint rows (dialog_n puzzle_n : Z) (steps : list json)
  : result (list str) :=
  match steps with
  | [] => Ok []
  | step :: rest =>
      rbind (row dialog_n puzzle_n step) (fun r =>
      match r with
      | (d, p, label) =>
          rbind (rows d p rest) (fun labels => Ok (label :: labels))
      end)
  end.

(** [_rebuild_step_list]: the labels of the rows, and the index of the row
    selected at the end, if any. *)
Definition _rebuild_step_list (keep_selection : bool) (w : t)
  : result (list str * option Z) :=
  if negb (truthy (_chapter w)) then Ok ([], None)
  else
    rbind (get (_chapter w) (lit "steps") (JList [])) (fun steps =>
    rbind (iter steps) (fun items =>
    rbind (rows 0 0 items) (fun labels =>
    if keep_selection && (0 <=? _current_idx w) then
      rbind (get (_chapter w) (lit "steps") (JList [])) (fun steps =>
      rbind (len steps) (fun n =>
      let idx := Z.min (_current_idx w) (n - 1) in
      Ok (labels,
          if (0 <=? idx) && (idx <? Z.of_nat (List.length labels))
          then Some idx else None)))
    else Ok (labels, None)))).

End Labels.

End StepList.

(** ** Further notions the properties are stated with *)

Module Facts.
Import Py State LevelEditorWindow Props.
Local Open Scope Z_scope.

(** What an event carries is well formed: the texts typed, the piece
    picked, the key of a dialog field. *)
Definition event_ok (ev : Events.event) : bool :=
  match ev with
  | Events.EntryChanged _ text => wf_str text
  | Events.CellPicked _ _ piece => wf piece
  | Events.DialogFieldChanged text _ key => wf_str text && wf_str key
  | _ => true
  end.


(** What the widgets of a puzzle editor keep true: the spin button is
    within its bounds and the grid holds a board. *)
Definition editor_ok (e : PuzzleEditor.t) : Prop :=
  1 <= PuzzleEditor._max_moves_spin e <= 20
  /\ truthy (PuzzleEditor._board_grid e) = true.

(** The id of a step, [""] when it has none. *)
Definition step_id (step : json) : json :=
  match get step (lit "id") (JStr []) with
  | Ok v => v
  | Raise _ => JStr []
  end.

(** The id of the first puzzle step of a list, [""] when it has none. *)
Definition first_puzzle_id (l : list json) : json :=
  match find is_puzzle l with
  | Some step => step_id step
  | None => JStr []
  end.

(** A key, a string value and what follows, as [DevServer.dumps] writes
    them after the opening quote of the key. *)
Definition pair_text (k v : str) (rest : str) : str :=
  flat_map Json.encode_char k
  ++ 34%N :: 58%N :: 32%N :: Json.encode_string v ++ rest.


(** A name without a slash. *)
Definition no_slash (n : str) : bool :=
  forallb (fun c => negb (N.eqb c 47)) n.

(** A name a resolved path can hold: not empty, not [.] or [..], without
    a slash. *)
Definition step_name (n : str) : bool :=
  negb (str_eqb n []) && negb (str_eqb n (lit "."))
  && negb (str_eqb n (lit "..")) && no_slash n.

(** No component of [p], walked from the directory [pre], is a symbolic
    link. *)
Fixpoint no_links (root : DevHandler.node) (pre p : DevHandler.path)
  : bool :=
  match p with
  | [] => true
  | n :: rest =>
      match DevHandler.lstat root (pre ++ [n]) with
      | Some (DevHandler.Symlink _) => false
      | _ => true
      end && no_links root (pre ++ [n]) rest
  end.

(** A path as [Path.resolve] gives it: plain names, none of them a
    symbolic link. *)
Definition resolved (root : DevHandler.node) (p : DevHandler.path) : bool :=
  forallb step_name p && no_links root [] p.


(** A session on the example document: the first step is selected and
    edited, a dialog step is added and edited, and the first step is
    selected again. *)
Definition example_events : list Events.event :=
  [Events.RowSelected (Some 0);
   Events.EntryChanged Events.TitleEntry (lit " First steps ");
   Events.MaxMovesChanged 3;
   Events.CellPicked 0 2
     (JDict [(lit "type", JStr (lit "CHIEF"));
             (lit "player", JStr (lit "white"))]);
   Events.Button (AddStep (lit "dialog"));
   Events.DialogFieldChanged (lit "Welcome") 0 (lit "text");
   Events.DialogAddLine;
   Events.DialogDeleteLine (Some 1);
   Events.RowSelected (Some 0)].

Definition example_events_window : t :=
  match Events.session (fun _ => true) example_events
                       (fst (_load_file example_disk example_path init)) with
  | Some w => w
  | None => init
  end.

End Facts.
(** * Properties *)

From Stdlib Require DecimalFacts DecimalPos DecimalN DecimalZ.

Import Py State Props.
Local Open Scope Z_scope.

(** ** Strings and dictionaries *)

Lemma str_eqb_refl (s : str) : str_eqb s s = true.
Proof.
  induction s as [|c s IH]; cbn; [reflexivity|].
  now rewrite N.eqb_refl, IH.
Qed.

Lemma str_eqb_eq (a b : str) : str_eqb a b = true <-> a = b.
Proof.
  split.
  - revert b; induction a as [|x a IH]; intros [|y b]; cbn; try easy.
    intros H. apply andb_prop in H as [H1 H2].
    apply N.eqb_eq in H1. apply IH in H2. now subst.
  - intros ->. apply str_eqb_refl.
Qed.

Lemma dict_get_set_same d k v : dict_get (dict_set d k v) k = Some v.
Proof.
  induction d as [|[k' v'] d IH]; cbn.
  - now rewrite str_eqb_refl.
  - destruct (str_eqb k' k) eqn:E; cbn; rewrite E; [reflexivity|exact IH].
Qed.

Lemma dict_get_set_other d k k' v :
  str_eqb k k' = false -> dict_get (dict_set d k v) k' = dict_get d k'.
Proof.
  intros Hk. induction d as [|[k0 v0] d IH]; cbn.
  - now rewrite Hk.
  - destruct (str_eqb k0 k) eqn:E; cbn.
    + apply str_eqb_eq in E; subst k0. now rewrite Hk.
    + destruct (str_eqb k0 k'); [reflexivity|exact IH].
Qed.

(** ** Lists with Python indices *)

Lemma index_in_range n i :
  0 <= i < Z.of_nat n -> index n i = Ok (Z.to_nat i).
Proof.
  intros H. unfold index.
  destruct (Z.leb_spec 0 i); [|lia].
  destruct (Z.ltb_spec i (Z.of_nat n)); [reflexivity|lia].
Qed.


Lemma length_update {A} (l : list A) n x :
  List.length (update l n x) = List.length l.
Proof.
  revert n; induction l as [|h l IH]; intros [|n]; cbn; auto.
Qed.

Lemma nth_error_update_same {A} (l : list A) n x :
  (n < List.length l)%nat -> nth_error (update l n x) n = Some x.
Proof.
  revert n; induction l as [|h l IH]; intros [|n] H; cbn in *;
    try lia; [reflexivity|apply IH; lia].
Qed.

Lemma nth_error_update_other {A} (l : list A) n m x :
  n <> m -> nth_error (update l n x) m = nth_error l m.
Proof.
  revert n m; induction l as [|h l IH]; intros [|n] [|m] H; cbn;
    try reflexivity; try congruence.
  apply IH; congruence.
Qed.

Lemma update_same {A} (l : list A) n x :
  nth_error l n = Some x -> update l n x = l.
Proof.
  revert n; induction l as [|h l IH]; intros [|n] H; cbn in *;
    try congruence.
  now rewrite IH.
Qed.


Lemma length_remove_at {A} (l : list A) n :
  (n < List.length l)%nat ->
  List.length (remove_at l n) = pred (List.length l).
Proof.
  revert n; induction l as [|h l IH]; intros [|n] H; cbn in *;
    try lia.
  rewrite IH by lia. destruct l; cbn in *; lia.
Qed.

(** ** The editor window *)

Import LevelEditorWindow.

Arguments lit : simpl never.
Arguments PuzzleEditor.set_step : simpl never.
Arguments PuzzleEditor.get_step_data : simpl never.
Arguments DialogEditor.set_step : simpl never.
Arguments DialogEditor.get_step_data : simpl never.

Ltac unfold_monad :=
  unfold bind, ret, read, modify, lift, zoom in *; cbn [fst snd] in *.


Lemma show_step_document step w :
  same_document w (fst (_show_step step w)).
Proof.
  unfold _show_step, same_document. unfold_monad.
  destruct (get step (lit "type") JNull) as [stype|e]; cbn; [|easy].
  destruct (eq_str stype (lit "puzzle")).
  - destruct (PuzzleEditor.set_step step (_puzzle_editor w)).
    repeat split; reflexivity.
  - destruct (eq_str stype (lit "dialog")); cbn; [|easy].
    destruct (DialogEditor.set_step step (_dialog_editor w)).
    repeat split; reflexivity.
Qed.

Lemma steps_of_put_steps w d l l' :
  _chapter w = JDict d -> dict_get d (lit "steps") = Some l ->
  steps_of (set_chapter (put_steps (JList l') (_chapter w)) w) = l'.
Proof.
  intros Hc Hs. unfold steps_of, put_steps. rewrite Hc, Hs. cbn.
  now rewrite dict_get_set_same.
Qed.

Lemma steps_of_dict w d l :
  _chapter w = JDict d -> dict_get d (lit "steps") = Some (JList l) ->
  steps_of w = l.
Proof. intros Hc Hs. unfold steps_of. rewrite Hc. cbn. now rewrite Hs. Qed.


(** [_flush] on a chapter that is a [dict] whose steps are a list, at a
    valid index. *)
Lemma flush_at w d l step :
  _chapter w = JDict d -> dict_get d (lit "steps") = Some (JList l) ->
  0 <= _current_idx w < Z.of_nat (List.length l) ->
  nth_error l (Z.to_nat (_current_idx w)) = Some step ->
  _flush w =
    match get step (lit "type") JNull with
    | Raise e => (w, Raise e)
    | Ok _ =>
        match flush_data w step with
        | Some data =>
            (set_chapter
               (JDict (dict_set d (lit "steps")
                         (JList (update l (Z.to_nat (_current_idx w)) data))))
               w, Ok tt)
        | None => (w, Ok tt)
        end
    end.
Proof.
  intros Hc Hs Hi Hn. unfold _flush, flush_data. unfold_monad.
  destruct (Z.ltb_spec (_current_idx w) 0); [lia|]. cbn [orb].
  assert (Ht : truthy (JDict d) = true)
    by (destruct d; [discriminate|reflexivity]).
  rewrite Hc, Ht. cbn [negb get]. rewrite Hs. cbn [len].
  destruct (Z.leb_spec (Z.of_nat (List.length l)) (_current_idx w)); [lia|].
  cbn [getitem rbind]. rewrite index_in_range by lia. cbn [rbind].
  rewrite Hn.
  destruct (get step (lit "type") JNull) as [stype|e]; [|reflexivity].
  unfold store_step, list_setitem. unfold_monad.
  rewrite index_in_range by lia. cbn [rbind].
  unfold put_steps.
  destruct (eq_str stype (lit "puzzle"));
    [cbv beta; rewrite Hc, Hs; reflexivity|].
  destruct (eq_str stype (lit "dialog"));
    [cbv beta; rewrite Hc, Hs; reflexivity|reflexivity].
Qed.

Lemma truthy_dict_with_steps d v :
  dict_get d (lit "steps") = Some v -> truthy (JDict d) = true.
Proof. destruct d; [discriminate|reflexivity]. Qed.

(** [_flush] either leaves the window as it is, or replaces the active
    step of a list of steps by the data of an editor. *)
Lemma flush_cases w :
  fst (_flush w) = w
  \/ exists d l step data,
       _chapter w = JDict d /\ dict_get d (lit "steps") = Some (JList l)
       /\ 0 <= _current_idx w < Z.of_nat (List.length l)
       /\ nth_error l (Z.to_nat (_current_idx w)) = Some step
       /\ flush_data w step = Some data
       /\ _flush w =
            (set_chapter
               (JDict (dict_set d (lit "steps")
                         (JList (update l (Z.to_nat (_current_idx w)) data))))
               w, Ok tt).
Proof.
  destruct (_chapter w) as [| | | |cl|d] eqn:Hc;
    try (left; unfold _flush; unfold_monad; rewrite Hc;
         destruct (_current_idx w <? 0); cbn;
         repeat match goal with
                | |- context [if ?b then _ else _] => destruct b; cbn
                end; reflexivity).
  destruct (dict_get d (lit "steps")) as [steps|] eqn:Hs.
  - destruct steps as [| | |s|l|sd];
      try (left; unfold _flush; unfold_monad; rewrite Hc;
           destruct (_current_idx w <? 0); cbn [orb]; [reflexivity|];
           destruct (truthy (JDict d)); cbn [negb]; [|reflexivity];
           cbn [get]; rewrite Hs; cbn [len]; try reflexivity;
           match goal with
           | |- context [if ?b then _ else _] =>
               destruct b; [reflexivity|]
           end;
           cbn [getitem rbind];
           match goal with
           | |- context [index ?n ?i] => destruct (index n i); cbn [rbind]
           | _ => idtac
           end; try reflexivity;
           match goal with
           | |- context [nth_error ?s ?n] =>
               destruct (nth_error s n); reflexivity
           end).
    destruct (Z.ltb_spec (_current_idx w) 0) as [Hneg|Hpos].
    { left. unfold _flush. unfold_monad.
      destruct (Z.ltb_spec (_current_idx w) 0); [reflexivity|lia]. }
    destruct (Z.leb_spec (Z.of_nat (List.length l)) (_current_idx w))
      as [Hbig|Hlt].
    { left. unfold _flush. unfold_monad.
      destruct (Z.ltb_spec (_current_idx w) 0); [lia|]. cbn [orb].
      rewrite Hc, (truthy_dict_with_steps _ _ Hs). cbn [negb get].
      rewrite Hs. cbn [len].
      destruct (Z.leb_spec (Z.of_nat (List.length l)) (_current_idx w));
        [reflexivity|lia]. }
    destruct (nth_error l (Z.to_nat (_current_idx w))) as [step|] eqn:Hn.
    2: { apply nth_error_None in Hn. lia. }
    rewrite (flush_at w d l step Hc Hs (conj Hpos Hlt) Hn).
    unfold flush_data.
    destruct (get step (lit "type") JNull) as [stype|e] eqn:Hg; [|now left].
    destruct (eq_str stype (lit "puzzle")) eqn:Hp.
    { right. exists d, l, step,
        (PuzzleEditor.get_step_data (_puzzle_editor w)).
      unfold flush_data. rewrite Hg, Hp.
      repeat apply conj; try assumption; try lia; reflexivity. }
    destruct (eq_str stype (lit "dialog")) eqn:Hdl.
    { right. exists d, l, step,
        (DialogEditor.get_step_data (_dialog_editor w)).
      unfold flush_data. rewrite Hg, Hp, Hdl.
      repeat apply conj; try assumption; try lia; reflexivity. }
    now left.
  - left. unfold _flush. unfold_monad. rewrite Hc.
    destruct (_current_idx w <? 0) eqn:E; cbn [orb]; [reflexivity|].
    destruct (truthy (JDict d)); cbn [negb]; [|reflexivity].
    cbn [get]. rewrite Hs. cbn [len List.length].
    destruct (Z.leb_spec (Z.of_nat 0) (_current_idx w)); [reflexivity|].
    apply Z.ltb_ge in E. cbn in *. lia.
Qed.

Lemma flush_frame w :
  _current_idx (fst (_flush w)) = _current_idx w
  /\ _filepath (fst (_flush w)) = _filepath w
  /\ _puzzle_editor (fst (_flush w)) = _puzzle_editor w
  /\ _dialog_editor (fst (_flush w)) = _dialog_editor w
  /\ truthy (_chapter (fst (_flush w))) = truthy (_chapter w)
  /\ List.length (steps_of (fst (_flush w))) = List.length (steps_of w).
Proof.
  destruct (flush_cases w) as [->|(d & l & step & data & Hc & Hs & Hi & Hn
                                   & Hd & ->)]; [easy|].
  cbn [fst]. repeat split; try reflexivity.
  - rewrite Hc. cbn [set_chapter _chapter].
    rewrite (truthy_dict_with_steps d _ Hs).
    apply (truthy_dict_with_steps _ (JList (update l (Z.to_nat (_current_idx w)) data))).
    apply dict_get_set_same.
  - rewrite (steps_of_dict w d l Hc Hs).
    erewrite steps_of_dict; [apply length_update|reflexivity|].
    apply dict_get_set_same.
Qed.

(** ** Deleting the active step *)

Lemma delete_out_of_bounds w l :
  get (_chapter w) (lit "steps") (JList []) = Ok (JList l) ->
  _current_idx w < 0 \/ Z.of_nat (List.length l) <= _current_idx w ->
  _delete_step w = (w, Ok tt).
Proof.
  intros Hs Hi. unfold _delete_step. unfold_monad.
  destruct (truthy (_chapter w)); cbn [negb orb]; [|reflexivity].
  destruct (Z.ltb_spec (_current_idx w) 0); [reflexivity|].
  rewrite Hs. destruct l as [|x l]; [reflexivity|].
  cbn [truthy negb len].
  destruct (Z.leb_spec (Z.of_nat (List.length (x :: l))) (_current_idx w));
    [reflexivity|lia].
Qed.

Lemma delete_at w d l :
  _chapter w = JDict d -> dict_get d (lit "steps") = Some (JList l) ->
  0 <= _current_idx w < Z.of_nat (List.length l) ->
  let l' := remove_at l (Z.to_nat (_current_idx w)) in
  let w' := fst (_delete_step w) in
  _chapter w' = JDict (dict_set d (lit "steps") (JList l'))
  /\ _current_idx w' =
       Z.min (_current_idx w) (Z.of_nat (List.length l') - 1).
Proof.
  intros Hc Hs Hi l' w'. subst w'. unfold _delete_step. unfold_monad.
  rewrite Hc, (truthy_dict_with_steps _ _ Hs). cbn [negb orb].
  destruct (Z.ltb_spec (_current_idx w) 0); [lia|].
  cbn [get]. rewrite Hs.
  assert (Ht : truthy (JList l) = true)
    by (destruct l; [cbn in Hi; lia|reflexivity]).
  rewrite Ht. cbn [negb len].
  destruct (Z.leb_spec (Z.of_nat (List.length l)) (_current_idx w)); [lia|].
  unfold list_delitem. rewrite index_in_range by lia. cbn [rbind].
  fold l'. unfold put_steps. cbv beta. rewrite Hc, Hs.
  set (idx := Z.min (_current_idx w) (Z.of_nat (List.length l') - 1)).
  set (w1 := set_current_idx idx _).
  destruct (0 <=? idx); [|split; reflexivity].
  destruct (getitem (JList l') idx) as [step|e]; [|split; reflexivity].
  destruct (show_step_document step w1) as (H1 & H2 & _).
  destruct (_show_step step w1) as [s' [u|e]]; cbn [fst] in *;
    split; assumption.
Qed.

(** ** Adding a step *)

Lemma setdefault_steps_spec w :
  let w' := fst (setdefault_steps w) in
  _current_idx w' = _current_idx w
  /\ steps_of w' = steps_of w
  /\ _puzzle_editor w' = _puzzle_editor w
  /\ _dialog_editor w' = _dialog_editor w
  /\ match snd (setdefault_steps w) with
     | Ok steps =>
         exists d, _chapter w' = JDict d
                   /\ dict_get d (lit "steps") = Some steps
                   /\ (_chapter w' = _chapter w
                       \/ exists d0, _chapter w = JDict d0
                            /\ dict_get d0 (lit "steps") = None
                            /\ steps = JList []
                            /\ d = dict_set d0 (lit "steps") (JList []))
     | Raise _ => w' = w
     end.
Proof.
  unfold setdefault_steps. unfold_monad.
  destruct (_chapter w) as [| | | | |d] eqn:Hc; cbn [fst snd]; try easy.
  destruct (dict_get d (lit "steps")) as [steps|] eqn:Hs; cbn [fst snd].
  - repeat apply conj; try reflexivity. exists d. auto.
  - repeat apply conj; try reflexivity.
    + unfold steps_of. rewrite Hc. cbn [set_chapter _chapter get].
      now rewrite dict_get_set_same, Hs.
    + exists (dict_set d (lit "steps") (JList [])).
      repeat apply conj; [reflexivity|apply dict_get_set_same|].
      right. exists d. auto.
Qed.

Lemma new_step_for_state isprintable step_type steps w :
  fst (new_step_for isprintable step_type steps w) = w.
Proof.
  unfold new_step_for. unfold_monad.
  destruct (str_eqb step_type (lit "dialog")); [reflexivity|].
  destruct (iter steps); [|reflexivity].
  destruct (count_puzzles a); [|reflexivity].
  destruct (get (_chapter w) (lit "chapter") (JInt 1)); reflexivity.
Qed.

Lemma length_list_insert l i x :
  List.length (list_insert l i x) = S (List.length l).
Proof.
  unfold list_insert. rewrite length_app. cbn [List.length].
  rewrite length_firstn, length_skipn. lia.
Qed.




(** [_add_step] from the point where the steps have been read: a list of
    steps takes the new step, and the document is then as [inserted]
    leaves it. *)
Lemma add_step_after_setdefault isprintable step_type w l :
  truthy (_chapter w) = true ->
  snd (_flush w) = Ok tt ->
  let w1 := fst (_flush w) in
  snd (setdefault_steps w1) = Ok (JList l) ->
  let w2 := fst (setdefault_steps w1) in
  forall new_step,
  snd (new_step_for isprintable step_type (JList l) w2) = Ok new_step ->
  same_document (inserted w2 l (insert_position w2 l) new_step)
                (fst (_add_step isprintable step_type w))
  /\ (snd (_show_step new_step
             (inserted w2 l (insert_position w2 l) new_step)) = Ok tt ->
      snd (_add_step isprintable step_type w) = Ok tt).
Proof.
  intros Ht Hf w1 Hsd w2 new_step Hnew.
  unfold _add_step. unfold_monad. rewrite Ht. cbn [negb].
  subst w2 w1.
  destruct (_flush w) as [w1 r1]. cbn [fst snd] in *. subst r1.
  destruct (setdefault_steps w1) as [w2 r2]. cbn [fst snd] in *. subst r2.
  unfold insert_position, inserted.
  destruct (0 <=? _current_idx w2); cbn [len].
  all: pose proof (new_step_for_state isprintable step_type (JList l) w2)
         as Hst;
       destruct (new_step_for isprintable step_type (JList l) w2)
         as [w3 r3];
       cbn [fst snd] in *; subst w3 r3;
       match goal with
       | |- context [_show_step ?ns ?w4] =>
           pose proof (show_step_document ns w4) as Hdoc;
           destruct (_show_step ns w4) as [w5 [u|e]];
           cbn [fst snd] in *
       end.
  all: try (split; [exact Hdoc|discriminate]).
  all: destruct u; split; [|reflexivity]; unfold same_document in *; cbn;
    intuition.
Qed.

(** ** The current-step pointer *)

Lemma idx_ok_same_document w w' :
  same_document w w' -> idx_ok w -> idx_ok w'.
Proof.
  intros (Hc & Hi & _). unfold idx_ok, steps_of. now rewrite Hc, Hi.
Qed.

Lemma flush_idx_ok w : idx_ok w -> idx_ok (fst (_flush w)).
Proof.
  destruct (flush_frame w) as (Hi & _ & _ & _ & _ & Hl).
  unfold idx_ok. now rewrite Hi, Hl.
Qed.

Lemma steps_of_inserted w d l pos x :
  _chapter w = JDict d -> dict_get d (lit "steps") = Some (JList l) ->
  steps_of (inserted w l pos x) = list_insert l pos x.
Proof.
  intros Hc Hs. unfold inserted, steps_of, put_steps.
  cbn [set_current_idx set_chapter _chapter]. rewrite Hc, Hs. cbn [get].
  now rewrite dict_get_set_same.
Qed.

Lemma add_step_idx_ok isprintable step_type w :
  idx_ok w -> idx_ok (fst (_add_step isprintable step_type w)).
Proof.
  intros Hok.
  destruct (truthy (_chapter w)) eqn:Ht.
  2: { unfold _add_step. unfold_monad. now rewrite Ht. }
  pose proof (flush_idx_ok w Hok) as Hok1.
  destruct (snd (_flush w)) as [[]|e1] eqn:Hf.
  2: { unfold _add_step. unfold_monad. rewrite Ht. cbn [negb].
       destruct (_flush w) as [w1 r1]. cbn [fst snd] in *. now subst r1. }
  pose proof (setdefault_steps_spec (fst (_flush w))) as Hsd.
  cbv zeta in Hsd. destruct Hsd as (Hi2 & Hs2 & _ & _ & Hr2).
  assert (Hok2 : idx_ok (fst (setdefault_steps (fst (_flush w))))).
  { unfold idx_ok. rewrite Hi2, Hs2. exact Hok1. }
  destruct (snd (setdefault_steps (fst (_flush w)))) as [steps|e2] eqn:Hsd.
  2: { unfold _add_step. unfold_monad. rewrite Ht. cbn [negb].
       destruct (_flush w) as [w1 r1]. cbn [fst snd] in *. subst r1.
       destruct (setdefault_steps w1) as [w2 r2]. cbn [fst snd] in *.
       now subst r2. }
  destruct Hr2 as (d & Hc2 & Hd2 & _).
  set (w2 := fst (setdefault_steps (fst (_flush w)))) in *.
  assert (Hother : match steps with JList _ => False | _ => True end ->
                   idx_ok (fst (_add_step isprintable step_type w))).
  { intros Hns. unfold _add_step. unfold_monad. rewrite Ht. cbn [negb].
    subst w2.
    destruct (_flush w) as [w1 r1]. cbn [fst snd] in *. subst r1.
    destruct (setdefault_steps w1) as [w2 r2]. cbn [fst snd] in *. subst r2.
    destruct (0 <=? _current_idx w2).
    all: try (destruct (len steps); [|exact Hok2]).
    all: pose proof (new_step_for_state isprintable step_type steps w2)
           as Hst;
         destruct (new_step_for isprintable step_type steps w2)
           as [w3 [ns|e3]];
         cbn [fst snd] in *; subst w3; try exact Hok2.
    all: destruct steps; try exact Hok2; contradiction. }
  destruct steps as [| | | |l|]; try (apply Hother; exact I).
  clear Hother.
  destruct (snd (new_step_for isprintable step_type (JList l) w2))
    as [new_step|e3] eqn:Hnew.
  2: { unfold _add_step. unfold_monad. rewrite Ht. cbn [negb].
       subst w2.
       destruct (_flush w) as [w1 r1]. cbn [fst snd] in *. subst r1.
       destruct (setdefault_steps w1) as [w2 r2]. cbn [fst snd] in *.
       subst r2.
       pose proof (new_step_for_state isprintable step_type (JList l) w2)
         as Hst.
       destruct (0 <=? _current_idx w2); cbn [len];
         destruct (new_step_for isprintable step_type (JList l) w2)
           as [w3 r3];
         cbn [fst snd] in *; subst w3 r3; exact Hok2. }
  destruct (add_step_after_setdefault isprintable step_type w l Ht Hf Hsd
              new_step Hnew) as [Hdoc _].
  fold w2 in Hdoc. apply (idx_ok_same_document _ _ Hdoc).
  unfold idx_ok. rewrite (steps_of_inserted w2 d l _ _ Hc2 Hd2).
  rewrite length_list_insert.
  unfold inserted, insert_position. cbn [set_current_idx _current_idx].
  right. destruct Hok2 as [Hm|Hr].
  - rewrite Hm. cbn. lia.
  - rewrite (steps_of_dict w2 d l Hc2 Hd2) in Hr.
    destruct (Z.leb_spec 0 (_current_idx w2)); lia.
Qed.

(** ** Moving the active step *)


Lemma move_step_unfold direction w :
  truthy (_chapter w) = true -> 0 <= _current_idx w ->
  _move_step direction w =
    match _flush w with
    | (w1, Raise e) => (w1, Raise e)
    | (w1, Ok _) =>
        match get (_chapter w1) (lit "steps") (JList []) with
        | Raise e => (w1, Raise e)
        | Ok steps =>
            let new_idx := _current_idx w1 + direction in
            match (if 0 <=? new_idx
                   then rbind (len steps) (fun n => Ok (new_idx <? n))
                   else Ok false) with
            | Raise e => (w1, Raise e)
            | Ok false => (w1, Ok tt)
            | Ok true =>
                match getitem steps new_idx with
                | Raise e => (w1, Raise e)
                | Ok a =>
                    match getitem steps (_current_idx w1) with
                    | Raise e => (w1, Raise e)
                    | Ok b =>
                        match steps with
                        | JList l =>
                            match list_setitem l (_current_idx w1) a with
                            | Raise e => (w1, Raise e)
                            | Ok l1 =>
                                match list_setitem l1 new_idx b with
                                | Raise e => (w1, Raise e)
                                | Ok l2 =>
                                    (set_dirty true
                                       (set_current_idx new_idx
                                          (set_chapter
                                             (put_steps (JList l2)
                                                        (_chapter w1)) w1)),
                                     Ok tt)
                                end
                            end
                        | _ => (w1, Raise TypeError)
                        end
                    end
                end
            end
        end
    end.
Proof.
  intros Ht Hi. unfold _move_step. unfold_monad. rewrite Ht.
  destruct (Z.ltb_spec (_current_idx w) 0); [lia|]. cbn [negb orb].
  destruct (_flush w) as [w1 [[]|e]]; [|reflexivity].
  destruct (get (_chapter w1) (lit "steps") (JList [])) as [steps|e];
    [|reflexivity].
  cbv zeta.
  destruct (0 <=? _current_idx w1 + direction); cbn [rbind negb].
  - destruct (len steps) as [n|e]; cbn [rbind]; [|reflexivity].
    destruct (_current_idx w1 + direction <? n); cbn [negb]; [|reflexivity].
    destruct (getitem steps (_current_idx w1 + direction)); [|reflexivity].
    destruct (getitem steps (_current_idx w1)); [|reflexivity].
    destruct steps; reflexivity.
  - reflexivity.
Qed.



Lemma move_step_idx_ok direction w :
  idx_ok w -> idx_ok (fst (_move_step direction w)).
Proof.
  intros Hok.
  destruct (truthy (_chapter w)) eqn:Ht.
  2: { unfold _move_step. unfold_monad. now rewrite Ht. }
  destruct (Z.ltb_spec (_current_idx w) 0) as [Hneg|Hpos].
  { unfold _move_step. unfold_monad. rewrite Ht. cbn [negb orb].
    destruct (Z.ltb_spec (_current_idx w) 0); [exact Hok|lia]. }
  rewrite move_step_unfold by assumption.
  pose proof (flush_idx_ok w Hok) as Hok1.
  destruct (_flush w) as [w1 [[]|e]]; cbn [fst] in *; [|exact Hok1].
  destruct (_chapter w1) as [| | | | |d1] eqn:Hc1; cbn [get]; try exact Hok1.
  destruct (dict_get d1 (lit "steps")) as [steps|] eqn:Hs1.
  2: { cbv zeta. destruct (Z.leb_spec 0 (_current_idx w1 + direction));
         cbn [len rbind List.length]; [|exact Hok1].
       destruct (Z.ltb_spec (_current_idx w1 + direction) (Z.of_nat 0));
         [cbn in *; lia|exact Hok1]. }
  cbv zeta.
  destruct (Z.leb_spec 0 (_current_idx w1 + direction)); [|exact Hok1].
  destruct (len steps) as [n|e] eqn:Hlen; cbn [rbind]; [|exact Hok1].
  destruct (Z.ltb_spec (_current_idx w1 + direction) n); [|exact Hok1].
  destruct (getitem steps (_current_idx w1 + direction)); [|exact Hok1].
  destruct (getitem steps (_current_idx w1)); [|exact Hok1].
  destruct steps as [| | | |l|]; try exact Hok1.
  cbn in Hlen. injection Hlen as <-.
  unfold list_setitem.
  destruct (index (List.length l) (_current_idx w1)) as [i1|e];
    cbn [rbind]; [|exact Hok1].
  rewrite length_update.
  destruct (index (List.length l) (_current_idx w1 + direction)) as [i2|e];
    cbn [rbind fst]; [|exact Hok1].
  unfold idx_ok, steps_of, put_steps.
  cbn [set_dirty set_current_idx set_chapter _chapter _current_idx].
  rewrite ?Hc1, ?Hs1. cbn [get]. rewrite dict_get_set_same.
  rewrite !length_update. right. lia.
Qed.

Lemma delete_cases w :
  fst (_delete_step w) = w
  \/ exists d l,
       _chapter w = JDict d /\ dict_get d (lit "steps") = Some (JList l)
       /\ 0 <= _current_idx w < Z.of_nat (List.length l).
Proof.
  unfold _delete_step. unfold_monad.
  destruct (truthy (_chapter w)); cbn [negb orb]; [|now left].
  destruct (Z.ltb_spec (_current_idx w) 0); [now left|].
  destruct (_chapter w) as [| | | | |d]; cbn [get]; try now left.
  destruct (dict_get d (lit "steps")) as [steps|] eqn:Hs;
    [|cbn; now left].
  destruct (truthy steps); cbn [negb]; [|now left].
  destruct (len steps) as [n|e] eqn:Hlen; [|now left].
  destruct (Z.leb_spec n (_current_idx w)); [now left|].
  destruct steps as [| | | |l|]; try now left.
  cbn in Hlen. injection Hlen as <-.
  right. exists d, l. repeat apply conj; auto.
Qed.

Lemma delete_step_idx_ok w : idx_ok w -> idx_ok (fst (_delete_step w)).
Proof.
  intros Hok.
  destruct (delete_cases w) as [->|(d & l & Hc & Hs & Hi)]; [exact Hok|].
  destruct (delete_at w d l Hc Hs Hi) as [Hc' Hi'].
  unfold idx_ok.
  rewrite (steps_of_dict _ _ _ Hc' (dict_get_set_same _ _ _)), Hi'.
  rewrite length_remove_at by lia. lia.
Qed.

Lemma perform_idx_ok isprintable a w :
  idx_ok w -> idx_ok (fst (perform isprintable a w)).
Proof.
  destruct a; cbn [perform].
  - apply add_step_idx_ok.
  - apply delete_step_idx_ok.
  - apply move_step_idx_ok.
  - apply flush_idx_ok.
Qed.

Lemma load_file_idx_ok disk path w :
  idx_ok w -> idx_ok (fst (_load_file disk path w)).
Proof.
  intros Hok. unfold _load_file.
  destruct (Disk.content disk path) as [text|]; [|exact Hok].
  destruct (Json.load text) as [doc|]; [|exact Hok].
  left. reflexivity.
Qed.

Lemma run_idx_ok isprintable acts w :
  idx_ok w -> idx_ok (run isprintable acts w).
Proof.
  revert w; induction acts as [|a acts IH]; intros w Hok; cbn [run];
    [exact Hok|].
  apply IH, perform_idx_ok, Hok.
Qed.

(** ** A flush, seen as a change of the active step *)

Lemma dict_set_same_value d k v :
  dict_get d k = Some v -> dict_set d k v = d.
Proof.
  induction d as [|[k' v'] d IH]; cbn; [discriminate|].
  destruct (str_eqb k' k); intros H.
  - now injection H as ->.
  - now rewrite IH.
Qed.

Lemma set_chapter_same w c : _chapter w = c -> set_chapter c w = w.
Proof. intros <-. now destruct w. Qed.

Lemma flush_at_step w d l step ty :
  _chapter w = JDict d -> dict_get d (lit "steps") = Some (JList l) ->
  0 <= _current_idx w < Z.of_nat (List.length l) ->
  nth_error l (Z.to_nat (_current_idx w)) = Some step ->
  get step (lit "type") JNull = Ok ty ->
  _flush w =
    (set_chapter
       (JDict (dict_set d (lit "steps")
                 (JList (update l (Z.to_nat (_current_idx w))
                                (flush_step w step)))))
       w, Ok tt).
Proof.
  intros Hc Hs Hi Hn Hty.
  rewrite (flush_at w d l step Hc Hs Hi Hn), Hty. unfold flush_step.
  destruct (flush_data w step); [reflexivity|].
  rewrite (update_same _ _ _ Hn), (dict_set_same_value _ _ _ Hs).
  now rewrite (set_chapter_same w _ Hc).
Qed.

Lemma get_type_puzzle_data e :
  get (PuzzleEditor.get_step_data e) (lit "type") JNull
  = Ok (JStr (lit "puzzle")).
Proof. reflexivity. Qed.

Lemma get_type_dialog_data e :
  get (DialogEditor.get_step_data e) (lit "type") JNull
  = Ok (JStr (lit "dialog")).
Proof. reflexivity. Qed.



Lemma update_update_same {A} (l : list A) n x y :
  update (update l n x) n y = update l n y.
Proof.
  revert n; induction l as [|h l IH]; intros [|n]; cbn; try reflexivity.
  now rewrite IH.
Qed.

Lemma update_comm {A} (l : list A) n m x y :
  n <> m -> update (update l n x) m y = update (update l m y) n x.
Proof.
  revert n m; induction l as [|h l IH]; intros [|n] [|m] H; cbn;
    try reflexivity; try congruence.
  rewrite IH; [reflexivity|congruence].
Qed.


(** ** Counting puzzle steps and numbering a new one *)

Lemma is_puzzle_get step ty :
  get step (lit "type") JNull = Ok ty ->
  is_puzzle step = eq_str ty (lit "puzzle").
Proof.
  destruct step; cbn [get]; try discriminate.
  intros H. injection H as <-. unfold is_puzzle.
  destruct (dict_get d (lit "type")); reflexivity.
Qed.

Lemma is_dict_get step :
  is_dict step = true -> exists ty, get step (lit "type") JNull = Ok ty.
Proof. destruct step; try discriminate. cbn [get]. eauto. Qed.



Lemma count_puzzles_dicts l :
  forallb is_dict l = true ->
  count_puzzles l = Ok (Z.of_nat (List.length (filter is_puzzle l))).
Proof.
  induction l as [|s l IH]; cbn [forallb count_puzzles filter];
    [reflexivity|].
  intros H. apply andb_prop in H as [Hs Hl].
  destruct (is_dict_get s Hs) as [ty Hty].
  rewrite Hty, (IH Hl), (is_puzzle_get s ty Hty). cbn [rbind].
  destruct (eq_str ty (lit "puzzle")); cbn [List.length]; f_equal; lia.
Qed.


Lemma forallb_update {A} (p : A -> bool) l n x :
  forallb p l = true -> p x = true -> forallb p (update l n x) = true.
Proof.
  revert n; induction l as [|h l IH]; intros [|n] Hl Hx; cbn in *;
    try reflexivity; apply andb_prop in Hl as [H1 H2];
    apply andb_true_intro; auto.
Qed.

Lemma forallb_nth_error {A} (p : A -> bool) l n x :
  forallb p l = true -> nth_error l n = Some x -> p x = true.
Proof.
  intros Hl Hn. apply nth_error_In in Hn.
  rewrite forallb_forall in Hl. auto.
Qed.



(** ** Trimming and splitting *)

Lemma lstrip_app_ws a t :
  forallb isspace a = true -> lstrip (a ++ t) = lstrip t.
Proof.
  induction a as [|c a IH]; cbn [forallb app lstrip]; [reflexivity|].
  intros H. apply andb_prop in H as [Hc Ha]. now rewrite Hc, IH.
Qed.

Lemma lstrip_decomp s :
  exists a, s = a ++ lstrip s /\ forallb isspace a = true.
Proof.
  induction s as [|c s (a & Hs & Ha)]; [now exists []|].
  cbn [lstrip]. destruct (isspace c) eqn:Hc.
  - exists (c :: a). cbn. now rewrite Hc, Ha, <- Hs.
  - now exists [].
Qed.

Lemma lstrip_nil_ws s : lstrip s = [] -> forallb isspace s = true.
Proof.
  induction s as [|c s IH]; cbn [lstrip forallb]; [reflexivity|].
  destruct (isspace c); [exact IH|discriminate].
Qed.

Lemma lstrip_ws_nil s : forallb isspace s = true -> lstrip s = [].
Proof.
  intros H. rewrite <- (app_nil_r s). now rewrite lstrip_app_ws.
Qed.

Lemma lstrip_app_nonempty s b :
  lstrip s <> [] -> lstrip (s ++ b) = lstrip s ++ b.
Proof.
  induction s as [|c s IH]; cbn [lstrip app]; [congruence|].
  destruct (isspace c); [exact IH|reflexivity].
Qed.

Lemma forallb_rev {A} (p : A -> bool) l :
  forallb p (rev l) = forallb p l.
Proof.
  induction l as [|x l IH]; [reflexivity|].
  cbn [rev forallb]. rewrite forallb_app, IH. cbn [forallb].
  rewrite andb_true_r. apply andb_comm.
Qed.

Lemma rstrip_app_ws t b :
  forallb isspace b = true -> rstrip (t ++ b) = rstrip t.
Proof.
  intros Hb. unfold rstrip. rewrite rev_app_distr, lstrip_app_ws;
    [reflexivity|now rewrite forallb_rev].
Qed.

Lemma rstrip_decomp t :
  exists b, t = rstrip t ++ b /\ forallb isspace b = true.
Proof.
  destruct (lstrip_decomp (rev t)) as (a & Ht & Ha).
  exists (rev a). split; [|now rewrite forallb_rev].
  unfold rstrip. rewrite <- rev_app_distr, <- Ht. now rewrite rev_involutive.
Qed.

(** White space around a string does not change what is left of it. *)
Lemma strip_pad a s b :
  forallb isspace a = true -> forallb isspace b = true ->
  strip (a ++ s ++ b) = strip s.
Proof.
  intros Ha Hb. unfold strip. rewrite lstrip_app_ws by exact Ha.
  destruct (lstrip s) as [|c t] eqn:Hs.
  - rewrite lstrip_ws_nil; [reflexivity|].
    rewrite forallb_app, Hb, (lstrip_nil_ws s Hs). reflexivity.
  - rewrite lstrip_app_nonempty by congruence. rewrite Hs.
    now apply rstrip_app_ws.
Qed.

Lemma strip_decomp s :
  exists a b, s = a ++ strip s ++ b
              /\ forallb isspace a = true /\ forallb isspace b = true.
Proof.
  destruct (lstrip_decomp s) as (a & Hs & Ha).
  destruct (rstrip_decomp (lstrip s)) as (b & Ht & Hb).
  exists a, b. unfold strip. now rewrite <- Ht, <- Hs.
Qed.

Lemma split_nonempty sep s : split sep s <> [].
Proof.
  destruct s as [|c s]; cbn [split]; [discriminate|].
  destruct (N.eqb c sep); [discriminate|].
  destruct (split sep s); discriminate.
Qed.

Lemma ws_not_comma c : isspace c = true -> N.eqb c 44 = false.
Proof.
  intros H. destruct (N.eqb_spec c 44) as [->|]; [discriminate|reflexivity].
Qed.

Lemma split_ws b : forallb isspace b = true -> split 44 b = [b].
Proof.
  induction b as [|c b IH]; cbn [forallb split]; [reflexivity|].
  intros H. apply andb_prop in H as [Hc Hb].
  now rewrite (ws_not_comma c Hc), (IH Hb).
Qed.

(** White space before a text extends its first token. *)
Lemma split_app_ws_l a x :
  forallb isspace a = true ->
  exists h r, split 44 x = h :: r /\ split 44 (a ++ x) = (a ++ h) :: r.
Proof.
  intros Ha. induction a as [|c a IH].
  - destruct (split 44 x) as [|h r] eqn:E; [now apply split_nonempty in E|].
    now exists h, r.
  - cbn [forallb] in Ha. apply andb_prop in Ha as [Hc Ha].
    destruct (IH Ha) as (h & r & Hx & Hax). exists h, r. split; [exact Hx|].
    cbn [app split]. now rewrite (ws_not_comma c Hc), Hax.
Qed.

(** White space after a text extends its last token. *)
Lemma split_app_ws_r x b :
  forallb isspace b = true ->
  exists init lst,
    split 44 x = init ++ [lst] /\ split 44 (x ++ b) = init ++ [lst ++ b].
Proof.
  intros Hb. induction x as [|c x (init & lst & Hx & Hxb)].
  - exists [], []. split; [reflexivity|]. now apply split_ws.
  - cbn [app split]. destruct (N.eqb c 44).
    + exists ([] :: init), lst. now rewrite Hx, Hxb.
    + rewrite Hx, Hxb. destruct init as [|h r].
      * now exists [], (c :: lst).
      * now exists ((c :: h) :: r), lst.
Qed.

Lemma map_strip_split_pad a x b :
  forallb isspace a = true -> forallb isspace b = true ->
  map strip (split 44 (a ++ x ++ b)) = map strip (split 44 x).
Proof.
  intros Ha Hb.
  destruct (split_app_ws_r x b Hb) as (init & lst & Hx & Hxb).
  destruct (split_app_ws_l a (x ++ b) Ha) as (h & r & Hy & Hay).
  rewrite Hay, Hx. rewrite Hxb in Hy.
  assert (Hlst : strip (lst ++ b) = strip lst)
    by apply (strip_pad [] lst b eq_refl Hb).
  assert (Hpre : forall t, strip (a ++ t) = strip t).
  { intros t. rewrite <- (app_nil_r t) at 1.
    now apply (strip_pad a t []). }
  destruct init as [|h0 r0]; cbn [app] in Hy; injection Hy as <- <-.
  - cbn [map app]. rewrite Hpre, Hlst. reflexivity.
  - cbn [map app]. rewrite Hpre, !map_app. cbn [map]. now rewrite Hlst.
Qed.

Lemma map_strip_filter l :
  map strip
      (filter (fun m => match strip m with [] => false | _ => true end) l)
  = filter (fun m => match m with [] => false | _ => true end)
           (map strip l).
Proof.
  induction l as [|m l IH]; cbn [filter map]; [reflexivity|].
  destruct (strip m) eqn:E; cbn [map]; now rewrite ?E, IH.
Qed.

Lemma opp_moves_of_spec text :
  PuzzleEditor.opp_moves_of text = opponent_moves_spec text.
Proof.
  unfold PuzzleEditor.opp_moves_of, opponent_moves_spec.
  destruct (strip_decomp text) as (a & b & Ht & Ha & Hb).
  assert (H : map strip (split 44 text)
              = map strip (split 44 (strip text))).
  { rewrite Ht at 1. now apply map_strip_split_pad. }
  rewrite H. cbv zeta.
  destruct (strip text) as [|c m]; [reflexivity|].
  apply map_strip_filter.
Qed.

(** ** JSON text: strings *)

Section JsonText.

Import Json.
Local Open Scope N_scope.

Lemma hex_val_hex_digit k : k < 16 -> hex_val (hex_digit k) = Some k.
Proof.
  intros Hk. unfold hex_val, hex_digit.
  destruct (N.ltb_spec k 10).
  - destruct (N.leb_spec 48 (48 + k)); [|lia].
    destruct (N.leb_spec (48 + k) 57); [|lia]. cbn [andb].
    f_equal. lia.
  - destruct (N.leb_spec 48 (87 + k)); [|lia].
    destruct (N.leb_spec (87 + k) 57); [lia|]. cbn [andb].
    destruct (N.leb_spec 97 (87 + k)); [|lia].
    destruct (N.leb_spec (87 + k) 102); [|lia]. cbn [andb].
    f_equal. lia.
Qed.

Lemma hex4_val_hex4 n a b c d :
  n < 65536 -> hex4 n = [a; b; c; d] -> hex4_val a b c d = Some n.
Proof.
  intros Hn H. unfold hex4 in H. injection H as <- <- <- <-.
  unfold hex4_val.
  rewrite !hex_val_hex_digit by (apply N.mod_lt; discriminate).
  f_equal.
  rewrite (N.div_mod n 4096) at 5 by discriminate.
  rewrite (N.mod_small (n / 4096) 16)
    by (apply N.Div0.div_lt_upper_bound; lia).
  rewrite (N.div_mod (n mod 4096) 256) at 1 by discriminate.
  rewrite (N.div_mod ((n mod 4096) mod 256) 16) at 1 by discriminate.
  replace (n / 256 mod 16) with (n mod 4096 / 256).
  2: { change 4096 with (256 * 16). rewrite N.Div0.mod_mul_r.
       rewrite N.mul_comm, N.div_add by discriminate.
       rewrite (N.div_small (n mod 256)) by (apply N.mod_lt; discriminate).
       reflexivity. }
  replace (n / 16 mod 16) with ((n mod 4096) mod 256 / 16).
  2: { replace ((n mod 4096) mod 256) with (n mod 256).
       2: { change 4096 with (256 * 16). rewrite N.Div0.mod_mul_r.
            rewrite N.mul_comm, N.Div0.mod_add.
            now rewrite N.Div0.mod_mod. }
       change 256 with (16 * 16). rewrite N.Div0.mod_mul_r.
       rewrite N.mul_comm, N.div_add by discriminate.
       rewrite (N.div_small (n mod 16)) by (apply N.mod_lt; discriminate).
       reflexivity. }
  replace (n mod 16) with (((n mod 4096) mod 256) mod 16).
  2: { replace ((n mod 4096) mod 256) with (n mod 256).
       2: { change 4096 with (256 * 16). rewrite N.Div0.mod_mul_r.
            rewrite N.mul_comm, N.Div0.mod_add.
            now rewrite N.Div0.mod_mod. }
       change 256 with (16 * 16). rewrite N.Div0.mod_mul_r.
       rewrite N.mul_comm, N.Div0.mod_add. now rewrite N.Div0.mod_mod. }
  lia.
Qed.

Lemma scanstring_u_plain a b c d uni r2 :
  hex4_val a b c d = Some uni -> is_high uni = false ->
  scanstring (92 :: 117 :: a :: b :: c :: d :: r2) = cons_to uni (scanstring r2).
Proof.
  intros Hh Hu. cbn [scanstring]. change (N.eqb 92 34) with false.
  change (N.eqb 92 92) with true. change (N.eqb 117 117) with true.
  cbv iota. rewrite Hh, Hu. cbn [andb].
  destruct r2 as [|? [|? [|? [|? [|? [|? ?]]]]]]; reflexivity.
Qed.

Lemma scanstring_u_alone a b c d uni r2 :
  hex4_val a b c d = Some uni -> no_low_escape r2 = true ->
  scanstring (92 :: 117 :: a :: b :: c :: d :: r2) = cons_to uni (scanstring r2).
Proof.
  intros Hh Hn. cbn [scanstring]. change (N.eqb 92 34) with false.
  change (N.eqb 92 92) with true. change (N.eqb 117 117) with true.
  cbv iota. rewrite Hh.
  destruct r2 as [|b1 [|u1 [|a2 [|b2 [|c2 [|d2 r3]]]]]]; try reflexivity.
  unfold no_low_escape in Hn.
  destruct (is_high uni); cbn [andb]; [|reflexivity].
  destruct (N.eqb b1 92 && N.eqb u1 117); [|reflexivity].
  destruct (hex4_val a2 b2 c2 d2) as [u2|]; [|discriminate].
  destruct (is_low u2); [discriminate|reflexivity].
Qed.

Lemma scanstring_u_pair a b c d uni a2 b2 c2 d2 uni2 r3 :
  hex4_val a b c d = Some uni -> is_high uni = true ->
  hex4_val a2 b2 c2 d2 = Some uni2 -> is_low uni2 = true ->
  scanstring (92 :: 117 :: a :: b :: c :: d
              :: 92 :: 117 :: a2 :: b2 :: c2 :: d2 :: r3)
  = cons_to (65536 + (uni - 55296) * 1024 + (uni2 - 56320)) (scanstring r3).
Proof.
  intros Hh Hu Hh2 Hl. cbn [scanstring]. change (N.eqb 92 34) with false.
  change (N.eqb 92 92) with true. change (N.eqb 117 117) with true.
  cbv iota. rewrite Hh, Hu. cbn [andb]. now rewrite Hh2, Hl.
Qed.

Lemma scanstring_escape e ch r :
  N.eqb e 117 = false -> unescape e = Some ch ->
  scanstring (92 :: e :: r) = cons_to ch (scanstring r).
Proof.
  intros He Hu. cbn [scanstring]. change (N.eqb 92 34) with false.
  change (N.eqb 92 92) with true. cbv iota. now rewrite He, Hu.
Qed.

Lemma scanstring_plain c r :
  N.eqb c 34 = false -> N.eqb c 92 = false -> 32 <= c ->
  scanstring (c :: r) = cons_to c (scanstring r).
Proof.
  intros H1 H2 H3. cbn [scanstring]. rewrite H1, H2.
  destruct (N.ltb_spec c 32); [lia|reflexivity].
Qed.

Lemma no_low_escape_other b1 t :
  N.eqb b1 92 = false -> no_low_escape (b1 :: t) = true.
Proof.
  intros H. destruct t as [|? [|? [|? [|? [|? ?]]]]]; try reflexivity.
  cbn [no_low_escape]. now rewrite H.
Qed.

Lemma no_low_escape_short_escape u1 t :
  N.eqb u1 117 = false -> no_low_escape (92 :: u1 :: t) = true.
Proof.
  intros H. destruct t as [|? [|? [|? [|? ?]]]]; try reflexivity.
  cbn [no_low_escape]. rewrite H. now rewrite andb_false_r.
Qed.

Lemma no_low_escape_u a b c d uni t :
  hex4_val a b c d = Some uni -> is_low uni = false ->
  no_low_escape (92 :: 117 :: a :: b :: c :: d :: t) = true.
Proof.
  intros Hh Hl. cbn [no_low_escape]. change (N.eqb 92 92) with true.
  change (N.eqb 117 117) with true. cbn [andb]. now rewrite Hh, Hl.
Qed.


Lemma hex4_shape n : exists a b c d, hex4 n = [a; b; c; d].
Proof. unfold hex4. eauto. Qed.

Lemma encode_char_shape c :
  valid_char c = true -> enc_shape c (encode_char c).
Proof.
  unfold valid_char. intros Hv. apply N.ltb_lt in Hv. unfold encode_char.
  destruct (N.eqb_spec c 34) as [->|H34];
    [apply (enc_escape 34 34); reflexivity|].
  destruct (N.eqb_spec c 92) as [->|H92];
    [apply (enc_escape 92 92); reflexivity|].
  destruct (N.eqb_spec c 10) as [->|H10];
    [apply (enc_escape 10 110); reflexivity|].
  destruct (N.eqb_spec c 13) as [->|H13];
    [apply (enc_escape 13 114); reflexivity|].
  destruct (N.eqb_spec c 9) as [->|H9];
    [apply (enc_escape 9 116); reflexivity|].
  destruct (N.eqb_spec c 8) as [->|H8];
    [apply (enc_escape 8 98); reflexivity|].
  destruct (N.eqb_spec c 12) as [->|H12];
    [apply (enc_escape 12 102); reflexivity|].
  destruct (N.leb_spec 32 c) as [H32|H32]; cbn [andb].
  - destruct (N.leb_spec c 126) as [H126|H126].
    + apply enc_plain; [now apply N.eqb_neq..|exact H32].
    + destruct (N.ltb_spec c 65536) as [Hb|Hb].
      * destruct (hex4_shape c) as (a & b & c4 & d & Hx). rewrite Hx.
        apply enc_u; [exact Hb|now apply hex4_val_hex4].
      * set (n := c - 65536).
        assert (Hc : c = 65536 + n) by (unfold n; lia).
        assert (Hn : n < 1048576) by (unfold n; lia).
        clearbody n.
        assert (Hq : n / 1024 < 1024)
          by (apply N.Div0.div_lt_upper_bound; lia).
        assert (Hr : n mod 1024 < 1024) by (apply N.mod_lt; discriminate).
        rewrite (N.mod_small _ _ Hq).
        pose proof (N.div_mod n 1024 ltac:(discriminate)) as Hdm.
        set (q := n / 1024) in *. set (r := n mod 1024) in *.
        clearbody q r.
        destruct (hex4_shape (55296 + q)) as (a & b & c4 & d & Hx).
        destruct (hex4_shape (56320 + r)) as (a2 & b2 & c2 & d2 & Hx2).
        rewrite Hx, Hx2.
        apply (enc_pair c a b c4 d (55296 + q) a2 b2 c2 d2 (56320 + r)).
        -- apply hex4_val_hex4; [lia|exact Hx].
        -- unfold is_high.
           destruct (N.leb_spec 55296 (55296 + q)); [|lia].
           destruct (N.leb_spec (55296 + q) 56319); [reflexivity|lia].
        -- apply hex4_val_hex4; [lia|exact Hx2].
        -- unfold is_low.
           destruct (N.leb_spec 56320 (56320 + r)); [|lia].
           destruct (N.leb_spec (56320 + r) 57343); [reflexivity|lia].
        -- lia.
  - destruct (N.ltb_spec c 65536) as [Hb|Hb]; [|lia].
    destruct (hex4_shape c) as (a & b & c4 & d & Hx). rewrite Hx.
    apply enc_u; [exact Hb|now apply hex4_val_hex4].
Qed.

Lemma wf_str_cons c s :
  wf_str (c :: s) = true ->
  valid_char c = true /\ wf_str s = true
  /\ is_high c && starts_low s = false.
Proof.
  unfold wf_str. cbn [forallb]. intros H.
  apply andb_prop in H as [Hv Hp]. apply andb_prop in Hv as [Hc Hs].
  destruct s as [|b s'].
  - cbn. rewrite andb_false_r. auto.
  - change (no_pair (c :: b :: s'))
      with (negb (is_high c && is_low b) && no_pair (b :: s')) in Hp.
    apply andb_prop in Hp as [Hn Hp']. rewrite Hs, Hp'.
    apply negb_true_iff in Hn. auto.
Qed.

Lemma high_not_low c : is_high c = true -> is_low c = false.
Proof.
  unfold is_high, is_low. intros H. apply andb_prop in H as [_ H].
  apply N.leb_le in H. destruct (N.leb_spec 56320 c); [lia|reflexivity].
Qed.

Lemma flat_map_cons {A B} (f : A -> list B) x l :
  flat_map f (x :: l) = f x ++ flat_map f l.
Proof. reflexivity. Qed.

Lemma encode_no_low_escape s rest :
  forallb valid_char s = true -> starts_low s = false ->
  no_low_escape (flat_map encode_char s ++ 34 :: rest) = true.
Proof.
  destruct s as [|c s]; intros Hv Hl.
  - now apply no_low_escape_other.
  - cbn [forallb] in Hv. apply andb_prop in Hv as [Hc _].
    rewrite flat_map_cons, <- app_assoc.
    destruct (encode_char_shape c Hc)
      as [H34 H92 H32|e He Hu|a b c4 d Hb Hh
          |a b c4 d uni a2 b2 c2 d2 uni2 Hh Hhi Hh2 Hlo Hc'];
      cbn [app].
    + now apply no_low_escape_other.
    + now apply no_low_escape_short_escape.
    + now apply (no_low_escape_u a b c4 d c).
    + apply (no_low_escape_u a b c4 d uni); [exact Hh|].
      now apply high_not_low.
Qed.

Lemma scanstring_encode s rest :
  wf_str s = true ->
  scanstring (flat_map encode_char s ++ 34 :: rest) = Some (s, rest).
Proof.
  induction s as [|c s IH]; intros Hwf; [reflexivity|].
  destruct (wf_str_cons c s Hwf) as (Hc & Hs & Hpair).
  specialize (IH Hs).
  rewrite flat_map_cons, <- app_assoc.
  destruct (encode_char_shape c Hc)
    as [H34 H92 H32|e He Hu|a b c4 d Hb Hh
        |a b c4 d uni a2 b2 c2 d2 uni2 Hh Hhi Hh2 Hlo Hc'];
    cbn [app].
  - rewrite scanstring_plain by assumption. now rewrite IH.
  - rewrite (scanstring_escape e c) by assumption. now rewrite IH.
  - destruct (is_high c) eqn:Hhigh.
    + assert (Hesc : no_low_escape (flat_map encode_char s ++ 34 :: rest)
                     = true).
      { apply encode_no_low_escape; [|exact Hpair].
        unfold wf_str in Hs. now apply andb_prop in Hs as [? _]. }
      rewrite (scanstring_u_alone a b c4 d c _ Hh Hesc). now rewrite IH.
    + rewrite (scanstring_u_plain a b c4 d c) by assumption.
      now rewrite IH.
  - rewrite (scanstring_u_pair a b c4 d uni a2 b2 c2 d2 uni2)
      by assumption.
    rewrite IH. cbn [cons_to]. now subst c.
Qed.

Lemma scanstring_encode_string s rest :
  wf_str s = true ->
  match encode_string s ++ rest with
  | q :: r => q = 34 /\ scanstring r = Some (s, rest)
  | [] => False
  end.
Proof.
  intros Hwf. unfold encode_string. cbn [app]. split; [reflexivity|].
  rewrite <- app_assoc. now apply scanstring_encode.
Qed.

(** ** JSON text: integers *)


Lemma scan_digits_uint_str u rest :
  not_digit_next rest -> scan_digits (uint_str u ++ rest) = (u, rest).
Proof.
  intros Hr. induction u; cbn [uint_str app scan_digits];
    try (rewrite IHu; reflexivity).
  destruct rest as [|c r]; [reflexivity|]. cbn in Hr.
  cbn [scan_digits]. now rewrite Hr.
Qed.

Lemma after_value_not_digit rest :
  after_value rest = true -> not_digit_next rest /\ float_tail rest = false.
Proof.
  destruct rest as [|c r]; [now split|]. cbn [after_value not_digit_next].
  intros H. apply orb_prop in H as [H|H]; apply N.eqb_eq in H; subst c;
    split; try reflexivity; destruct r; reflexivity.
Qed.

Lemma to_uint_head p d' : Pos.to_uint p <> Decimal.D0 d'.
Proof.
  intros H.
  assert (Hn : Decimal.unorm (Pos.to_uint p) = Pos.to_uint p).
  { rewrite <- DecimalPos.Unsigned.to_of.
    now rewrite DecimalPos.Unsigned.of_to. }
  destruct (Decimal.nzhead (Pos.to_uint p)) eqn:Hz;
    unfold Decimal.unorm in Hn; rewrite Hz in Hn;
    try (rewrite <- Hn in H; discriminate H).
  - symmetry in Hn. now apply DecimalPos.Unsigned.to_uint_nonzero in Hn.
  - now apply DecimalFacts.nzhead_nonzero in Hz.
Qed.

Lemma scan_natural_to_uint p rest :
  not_digit_next rest ->
  scan_natural (uint_str (Pos.to_uint p) ++ rest)
  = Some (Pos.to_uint p, rest).
Proof.
  intros Hr. pose proof (to_uint_head p) as Hh.
  pose proof (DecimalPos.Unsigned.to_uint_nonnil p) as Hnil.
  pose proof (scan_digits_uint_str (Pos.to_uint p) rest Hr) as Hs.
  destruct (Pos.to_uint p) as [|u|u|u|u|u|u|u|u|u|u];
    try congruence; try (now destruct (Hh u));
    cbn [uint_str app] in *; unfold scan_natural;
    match goal with
    | |- context [N.eqb ?c 48] => change (N.eqb c 48) with false
    end; cbv iota;
    match goal with
    | |- context [is_digit ?c] => change (is_digit c) with true
    end; cbv iota; now rewrite Hs.
Qed.

Lemma uint_str_head_digit p :
  exists c r, uint_str (Pos.to_uint p) = c :: r /\ is_digit c = true.
Proof.
  pose proof (DecimalPos.Unsigned.to_uint_nonnil p) as Hnil.
  destruct (Pos.to_uint p); try congruence; cbn [uint_str];
    eexists; eexists; split; reflexivity.
Qed.

Lemma scan_number_int_str z rest :
  after_value rest = true ->
  scan_number (int_str z ++ rest) = Some (JInt z, rest).
Proof.
  intros Ha. destruct (after_value_not_digit rest Ha) as [Hd Hf].
  unfold int_str.
  pose proof (DecimalZ.of_to z) as Hz.
  destruct z as [|p|p]; cbn [Z.to_int] in *.
  - cbn [uint_str app]. unfold scan_number, scan_natural.
    change (N.eqb 48 45) with false. change (N.eqb 48 48) with true.
    cbv iota. now rewrite Hf.
  - destruct (uint_str_head_digit p) as (c & r & Hu & Hc).
    pose proof (scan_natural_to_uint p rest Hd) as Hs. rewrite Hu in *.
    cbn [app] in *. unfold scan_number.
    assert (H45 : N.eqb c 45 = false).
    { destruct (N.eqb_spec c 45) as [->|]; [discriminate|reflexivity]. }
    rewrite H45, Hs, Hf. now rewrite Hz.
  - pose proof (scan_natural_to_uint p rest Hd) as Hs.
    cbn [app]. unfold scan_number. change (N.eqb 45 45) with true.
    cbv iota. rewrite Hs, Hf. now rewrite Hz.
Qed.

(** ** JSON text: whole values *)

Lemma json_induction (P : json -> Prop) :
  P JNull -> (forall b, P (JBool b)) -> (forall z, P (JInt z)) ->
  (forall s, P (JStr s)) ->
  (forall l, Forall P l -> P (JList l)) ->
  (forall d, Forall (fun kv => P (snd kv)) d -> P (JDict d)) ->
  forall v, P v.
Proof.
  intros Hn Hb Hi Hs Hl Hd.
  fix IH 1. intros [| b | z | s | l | d].
  - exact Hn.
  - apply Hb.
  - apply Hi.
  - apply Hs.
  - apply Hl. induction l as [|x l IHl]; constructor; [apply IH|exact IHl].
  - apply Hd. induction d as [|[k x] d IHd]; constructor;
      [apply IH|exact IHd].
Qed.

Lemma nodup_keys_NoDup ks : nodup_keys ks = true <-> NoDup ks.
Proof.
  induction ks as [|k ks IH]; cbn [nodup_keys].
  - split; [constructor|reflexivity].
  - rewrite andb_true_iff, negb_true_iff, IH. split.
    + intros [Hn Hd]. constructor; [|exact Hd]. intros Hin.
      assert (existsb (str_eqb k) ks = true)
        by (apply existsb_exists; exists k; split;
            [exact Hin|apply str_eqb_refl]).
      congruence.
    + intros H. inversion H as [|? ? Hn Hd]; subst. split; [|exact Hd].
      destruct (existsb (str_eqb k) ks) eqn:E; [|reflexivity].
      apply existsb_exists in E as (k' & Hin & Hk).
      apply str_eqb_eq in Hk. now subst k'.
Qed.

Lemma dict_set_fresh d k v :
  ~ In k (map fst d) -> dict_set d k v = d ++ [(k, v)].
Proof.
  induction d as [|[k' v'] d IH]; cbn [dict_set map fst app In];
    [reflexivity|].
  intros Hn. destruct (str_eqb k' k) eqn:E.
  - apply str_eqb_eq in E. tauto.
  - rewrite IH by tauto. reflexivity.
Qed.

Lemma dict_of_pairs_nodup d :
  nodup_keys (map fst d) = true -> dict_of_pairs d = d.
Proof.
  intros Hd. apply nodup_keys_NoDup in Hd. unfold dict_of_pairs.
  change d with ([] ++ d) in Hd. change d with ([] ++ d) at 2.
  generalize dependent (@nil (str * json)).
  induction d as [|[k v] d IH]; intros acc Hd; cbn [fold_left fst snd].
  - now rewrite app_nil_r.
  - rewrite dict_set_fresh.
    + rewrite IH; rewrite <- app_assoc; [reflexivity|exact Hd].
    + rewrite map_app in Hd. cbn [map fst] in Hd.
      apply NoDup_remove_2 in Hd. rewrite in_app_iff in Hd. tauto.
Qed.

Lemma skip_ws_spaces n s : skip_ws (repeat 32%N n ++ s) = skip_ws s.
Proof. induction n as [|n IH]; [reflexivity|exact IH]. Qed.

Lemma skip_ws_newline_indent lv s :
  skip_ws (newline_indent lv ++ s) = skip_ws s.
Proof. unfold newline_indent. cbn [app skip_ws is_ws]. apply skip_ws_spaces.
Qed.

Lemma encode_list_unfold lv x l :
  encode lv (JList (x :: l))
  = 91%N :: newline_indent (S lv) ++ encode (S lv) x ++ encode_items lv l.
Proof.
  cbn [encode]. do 3 f_equal.
  induction l as [|y l IH]; cbn [encode_items]; [reflexivity|].
  now rewrite IH.
Qed.

Lemma encode_dict_unfold lv k x d :
  encode lv (JDict ((k, x) :: d))
  = 123%N :: newline_indent (S lv) ++ encode_string k ++ lit ": "
    ++ encode (S lv) x ++ encode_pairs lv d.
Proof.
  cbn [encode]. do 5 f_equal.
  induction d as [|[k' y] d IH]; cbn [encode_pairs]; [reflexivity|].
  now rewrite IH.
Qed.


Lemma uint_str_digits u : Forall (fun c => is_digit c = true) (uint_str u).
Proof. induction u; cbn [uint_str]; constructor; auto. Qed.

Lemma encode_head lv v :
  exists c r, encode lv v = c :: r /\ value_start c.
Proof.
  destruct v as [| [|] | z | s | [|x l] | [|[k x] d]];
    try (eexists; eexists; split; [reflexivity|repeat split]).
  - unfold encode, int_str. destruct z as [|p|p]; cbn [Z.to_int].
    + eexists; eexists; split; [reflexivity|repeat split].
    + destruct (uint_str_head_digit p) as (c & r & Hu & Hc).
      exists c, r. split; [exact Hu|].
      unfold is_digit in Hc. apply andb_prop in Hc as [H1 H2].
      apply N.leb_le in H1, H2. unfold value_start, is_ws.
      repeat split;
        repeat match goal with
               | |- context [N.eqb c ?k] =>
                   destruct (N.eqb_spec c k); [lia|]
               end; reflexivity.
    + eexists; eexists; split; [reflexivity|repeat split].
Qed.

Lemma skip_ws_value lv v rest :
  skip_ws (encode lv v ++ rest) = encode lv v ++ rest.
Proof.
  destruct (encode_head lv v) as (c & r & -> & Hws & _).
  cbn [app skip_ws]. now rewrite Hws.
Qed.

Lemma skip_ws_encode_string k rest :
  skip_ws (encode_string k ++ rest) = encode_string k ++ rest.
Proof. reflexivity. Qed.

Lemma skip_ws_comma t : skip_ws (44%N :: t) = 44%N :: t.
Proof. reflexivity. Qed.

Lemma skip_ws_quote t : skip_ws (34%N :: t) = 34%N :: t.
Proof. reflexivity. Qed.

Lemma after_value_items lv l rest :
  after_value (encode_items lv l ++ rest) = true.
Proof. destruct l; reflexivity. Qed.

Lemma after_value_pairs lv d rest :
  after_value (encode_pairs lv d ++ rest) = true.
Proof. destruct d as [|[k x] d]; reflexivity. Qed.


Lemma scan_once_number f c r :
  is_digit c = true \/ c = 45%N ->
  scan_once (S f) (c :: r) = scan_number (c :: r).
Proof.
  intros Hc. cbn [scan_once].
  assert (H : N.eqb c 34 = false /\ N.eqb c 123 = false
              /\ N.eqb c 91 = false /\ N.eqb c 110 = false
              /\ N.eqb c 116 = false /\ N.eqb c 102 = false).
  { destruct Hc as [Hc| ->]; [|repeat split; reflexivity].
    unfold is_digit in Hc. apply andb_prop in Hc as [H1 H2].
    apply N.leb_le in H1, H2.
    repeat split; apply N.eqb_neq; lia. }
  destruct H as (H1 & H2 & H3 & H4 & H5 & H6).
  rewrite H1, H2, H3.
  change (startswith (c :: r) (lit "null"))
    with (N.eqb c 110 && startswith r (lit "ull")).
  change (startswith (c :: r) (lit "true"))
    with (N.eqb c 116 && startswith r (lit "rue")).
  change (startswith (c :: r) (lit "false"))
    with (N.eqb c 102 && startswith r (lit "alse")).
  now rewrite H4, H5, H6.
Qed.

Lemma int_str_head z :
  exists c r, int_str z = c :: r /\ (is_digit c = true \/ c = 45%N).
Proof.
  unfold int_str. destruct z as [|p|p]; cbn [Z.to_int].
  - eexists; eexists; split; [reflexivity|now left].
  - destruct (uint_str_head_digit p) as (c & r & Hu & Hc).
    exists c, r. auto.
  - eexists; eexists; split; [reflexivity|now right].
Qed.

Lemma array_items_encode l :
  forall x lv rest f,
    scans_back x -> Forall scans_back l ->
    (S (size x + fold_right (fun y n => S (size y + n)) O l) <= f)%nat ->
    after_value rest = true ->
    array_items f (encode (S lv) x ++ encode_items lv l ++ rest)
    = Some (x :: l, rest).
Proof.
  induction l as [|y l IH]; intros x lv rest f Hx Hl Hf Ha;
    (destruct f as [|f]; [lia|]); cbn [array_items].
  - rewrite (Hx (S lv) (encode_items lv [] ++ rest) f)
      by (cbn [fold_right] in Hf; try lia; apply after_value_items).
    cbn [encode_items]. rewrite <- app_assoc, skip_ws_newline_indent.
    reflexivity.
  - cbn [fold_right] in Hf.
    rewrite (Hx (S lv) (encode_items lv (y :: l) ++ rest) f)
      by (try lia; apply after_value_items).
    cbn [encode_items]. rewrite <- app_comm_cons, skip_ws_comma.
    change (N.eqb 44 93) with false.
    change (N.eqb 44 44) with true. cbv iota.
    rewrite <- !app_assoc, skip_ws_newline_indent, skip_ws_value.
    inversion Hl as [|? ? Hy Hl']; subst.
    rewrite (IH y lv rest f Hy Hl') by (try lia; assumption).
    reflexivity.
Qed.

Lemma object_items_encode d :
  forall k x lv rest f,
    wf_str k = true -> scans_back x ->
    Forall (fun kv => wf_str (fst kv) = true /\ scans_back (snd kv)) d ->
    (S (size x + fold_right (fun kv n => match kv with
                                         | (_, y) => S (size y + n)
                                         end) O d) <= f)%nat ->
    after_value rest = true ->
    object_items f (flat_map encode_char k ++ 34%N :: lit ": "
                    ++ encode (S lv) x ++ encode_pairs lv d ++ rest)
    = Some ((k, x) :: d, rest).
Proof.
  induction d as [|[k' y] d IH]; intros k x lv rest f Hk Hx Hd Hf Ha;
    (destruct f as [|f]; [lia|]); cbn [object_items];
    rewrite (scanstring_encode k _ Hk);
    change (skip_ws (lit ": " ++ ?t)) with (58%N :: 32%N :: t);
    change (N.eqb 58 58) with true; cbv iota;
    change (skip_ws (32%N :: ?t)) with (skip_ws t);
    rewrite skip_ws_value.
  - rewrite (Hx (S lv) (encode_pairs lv [] ++ rest) f)
      by (cbn [fold_right] in Hf; try lia; apply after_value_pairs).
    cbn [encode_pairs]. rewrite <- app_assoc, skip_ws_newline_indent.
    reflexivity.
  - cbn [fold_right] in Hf.
    rewrite (Hx (S lv) (encode_pairs lv ((k', y) :: d) ++ rest) f)
      by (try lia; apply after_value_pairs).
    cbn [encode_pairs]. rewrite <- app_comm_cons, skip_ws_comma.
    change (N.eqb 44 125) with false.
    change (N.eqb 44 44) with true. cbv iota.
    rewrite <- !app_assoc, skip_ws_newline_indent.
    unfold encode_string at 1. rewrite <- !app_comm_cons, skip_ws_quote.
    change (N.eqb 34 34) with true. cbv iota.
    rewrite <- !app_assoc. rewrite <- !app_comm_cons. cbn [app].
    inversion Hd as [|? ? [Hk' Hy] Hd']; subst. cbn [fst snd] in *.
    rewrite (IH k' y lv rest f Hk' Hy Hd') by (try lia; assumption).
    reflexivity.
Qed.

Lemma scan_once_encode v : wf v = true -> scans_back v.
Proof.
  induction v as [| b | z | s | l IHl | d IHd] using json_induction;
    intros Hwf lv rest fuel Hfuel Ha;
    (destruct fuel as [|f]; [cbn in Hfuel; lia|]).
  - reflexivity.
  - destruct b; reflexivity.
  - cbn [encode]. destruct (int_str_head z) as (c & r & Hz & Hc).
    pose proof (scan_number_int_str z rest Ha) as Hs. rewrite Hz in *.
    cbn [app] in *. rewrite scan_once_number by exact Hc. exact Hs.
  - cbn [encode wf] in *. unfold encode_string. cbn [app scan_once].
    change (N.eqb 34 34) with true. cbv iota.
    rewrite <- app_assoc. cbn [app]. now rewrite scanstring_encode.
  - destruct l as [|x l]; [reflexivity|].
    rewrite encode_list_unfold. cbn [app scan_once].
    change (N.eqb 91 34) with false. change (N.eqb 91 123) with false.
    change (N.eqb 91 91) with true. cbv iota.
    rewrite <- !app_assoc, skip_ws_newline_indent, skip_ws_value.
    destruct (encode_head (S lv) x) as (c & r & Hx & _ & H93 & _).
    assert (Hitems : array_items f (encode (S lv) x ++ encode_items lv l
                                    ++ rest) = Some (x :: l, rest)).
    { cbn [wf forallb] in Hwf. apply andb_prop in Hwf as [Hwx Hwl].
      inversion IHl as [|? ? Hx' Hl']; subst.
      apply array_items_encode; auto.
      - clear - Hl' Hwl. induction Hl' as [|y l Hy Hl IH]; constructor;
          cbn [forallb] in Hwl; apply andb_prop in Hwl as [H1 H2]; auto.
      - cbn [size fold_right] in Hfuel. lia. }
    rewrite Hx in *. cbn [app] in *. rewrite H93, Hitems. reflexivity.
  - destruct d as [|[k x] d]; [reflexivity|].
    rewrite encode_dict_unfold. cbn [app scan_once].
    change (N.eqb 123 34) with false. change (N.eqb 123 123) with true.
    cbv iota.
    rewrite <- !app_assoc, skip_ws_newline_indent.
    unfold encode_string at 1. rewrite <- !app_comm_cons, skip_ws_quote.
    change (N.eqb 34 125) with false. change (N.eqb 34 34) with true.
    cbv iota. rewrite <- !app_assoc. rewrite <- !app_comm_cons.
    cbn [app].
    cbn [wf map fst forallb] in Hwf.
    apply andb_prop in Hwf as [Hnd Hall].
    apply andb_prop in Hall as [Hkx Hall].
    apply andb_prop in Hkx as [Hk Hwx].
    inversion IHd as [|? ? Hx' Hd']; subst. cbn [snd] in Hx'.
    rewrite (object_items_encode d k x lv rest f); auto.
    + rewrite dict_of_pairs_nodup; [reflexivity|exact Hnd].
    + clear - Hd' Hall. induction Hd' as [|[k' y] d Hy Hd IH]; constructor;
        cbn [forallb] in Hall; apply andb_prop in Hall as [H1 H2];
        apply andb_prop in H1 as [H3 H4]; auto.
    + cbn [size fold_right] in Hfuel. lia.
Qed.

Lemma size_le_encode v : forall lv, (size v <= List.length (encode lv v))%nat.
Proof.
  induction v as [| b | z | s | l IHl | d IHd] using json_induction;
    intros lv.
  - vm_compute. lia.
  - destruct b; vm_compute; lia.
  - cbn [size encode]. destruct (int_str_head z) as (c & r & -> & _).
    cbn. lia.
  - cbn [size encode]. unfold encode_string. cbn [List.length]. lia.
  - destruct l as [|x l]; [vm_compute; lia|].
    rewrite encode_list_unfold. cbn [size fold_right List.length].
    rewrite !length_app. inversion IHl as [|? ? Hx Hl]; subst.
    specialize (Hx (S lv)).
    assert (Hi : (fold_right (fun y n => S (size y + n)) O l
                  < List.length (encode_items lv l))%nat).
    { clear - Hl. induction Hl as [|y l Hy Hl IH]; cbn [fold_right
        encode_items List.length]; rewrite ?length_app; cbn [List.length].
      - lia.
      - specialize (Hy (S lv)). lia. }
    lia.
  - destruct d as [|[k x] d]; [vm_compute; lia|].
    rewrite encode_dict_unfold. cbn [size fold_right List.length].
    rewrite !length_app. inversion IHd as [|? ? Hx Hd]; subst.
    cbn [snd] in Hx. specialize (Hx (S lv)).
    assert (Hi : (fold_right (fun kv n => match kv with
                                          | (_, y) => S (size y + n)
                                          end) O d
                  < List.length (encode_pairs lv d))%nat).
    { clear - Hd. induction Hd as [|[k' y] d Hy Hd IH]; cbn [fold_right
        encode_pairs List.length]; rewrite ?length_app; cbn [List.length].
      - lia.
      - cbn [snd] in Hy. specialize (Hy (S lv)). lia. }
    lia.
Qed.

(** Decoding the text [json.dump] writes, followed by the line break of
    [_save_file], gives the document back. *)
Lemma load_dump v : wf v = true -> load (dump v ++ [10%N]) = Some v.
Proof.
  intros Hwf. unfold load, decode, dump. rewrite skip_ws_value.
  rewrite (scan_once_encode v Hwf 0%nat [10%N]); [reflexivity| |reflexivity].
  rewrite length_app. pose proof (size_le_encode v 0). lia.
Qed.

End JsonText.

(** ** Well-formed strings *)

Section WellFormedStrings.

Import Json.
Local Open Scope N_scope.

Lemma ends_high_app a b : b <> [] -> ends_high (a ++ b) = ends_high b.
Proof.
  intros Hb. unfold ends_high. rewrite rev_app_distr.
  destruct (rev b) as [|c r] eqn:E; [|reflexivity].
  apply (f_equal (@rev N)) in E. rewrite rev_involutive in E. now subst b.
Qed.

Lemma ends_high_single c : ends_high [c] = is_high c.
Proof. reflexivity. Qed.

Lemma ends_high_cons c s : s <> [] -> ends_high (c :: s) = ends_high s.
Proof. intros Hs. now apply (ends_high_app [c] s). Qed.

Lemma no_pair_cons c s :
  no_pair (c :: s) = negb (is_high c && starts_low s) && no_pair s.
Proof.
  destruct s as [|b s]; [|reflexivity].
  cbn. now rewrite andb_false_r.
Qed.

Lemma no_pair_app a b :
  no_pair (a ++ b)
  = no_pair a && no_pair b && negb (ends_high a && starts_low b).
Proof.
  induction a as [|c a IH].
  - cbn [app no_pair ends_high rev andb negb]. now rewrite andb_true_r.
  - cbn [app]. rewrite !no_pair_cons, IH.
    destruct a as [|c' a'].
    + cbn [app no_pair]. rewrite ends_high_single.
      change (starts_low []) with false.
      destruct (is_high c), (starts_low b), (no_pair b); reflexivity.
    + rewrite (ends_high_cons c (c' :: a')) by discriminate.
      cbn [app starts_low].
      destruct (negb (is_high c && is_low c')), (no_pair (c' :: a')),
        (no_pair b); reflexivity.
Qed.

Lemma wf_str_app a b :
  wf_str (a ++ b)
  = wf_str a && wf_str b && negb (ends_high a && starts_low b).
Proof.
  unfold wf_str. rewrite forallb_app, no_pair_app.
  destruct (forallb valid_char a), (forallb valid_char b), (no_pair a),
    (no_pair b); reflexivity.
Qed.

Lemma wf_str_app_inv a b :
  wf_str (a ++ b) = true -> wf_str a = true /\ wf_str b = true.
Proof.
  rewrite wf_str_app. intros H. apply andb_prop in H as [H _].
  now apply andb_prop in H.
Qed.

Lemma wf_str_strip s : wf_str s = true -> wf_str (strip s) = true.
Proof.
  destruct (strip_decomp s) as (a & b & Hs & _ & _). intros H.
  rewrite Hs in H. apply wf_str_app_inv in H as [_ H].
  now apply wf_str_app_inv in H.
Qed.

Lemma wf_str_single c : valid_char c = true -> wf_str [c] = true.
Proof.
  intros H. unfold wf_str. cbn [forallb no_pair]. now rewrite H.
Qed.


Lemma starts_low_app a b :
  starts_low (a ++ b) = match a with [] => starts_low b | _ => starts_low a end.
Proof. destruct a; reflexivity. Qed.

Lemma tight_nil : tight [].
Proof. now repeat split. Qed.

Lemma tight_app a b : tight a -> tight b -> tight (a ++ b).
Proof.
  intros (Ha & Hal & Hah) (Hb & Hbl & Hbh). repeat split.
  - rewrite wf_str_app, Ha, Hb, Hah. reflexivity.
  - rewrite starts_low_app. destruct a; assumption.
  - destruct b as [|c b]; [now rewrite app_nil_r|].
    now rewrite ends_high_app.
Qed.

Lemma wf_str_tight_l a s : tight a -> wf_str s = true -> wf_str (a ++ s) = true.
Proof.
  intros (Ha & _ & Hah) Hs. now rewrite wf_str_app, Ha, Hs, Hah.
Qed.

Lemma wf_str_tight_r s b : wf_str s = true -> tight b -> wf_str (s ++ b) = true.
Proof.
  intros Hs (Hb & Hbl & _). rewrite wf_str_app, Hs, Hb, Hbl.
  now rewrite andb_false_r.
Qed.


Lemma ascii_not_surrogate c :
  is_ascii c = true ->
  valid_char c = true /\ is_high c = false /\ is_low c = false.
Proof.
  unfold is_ascii, valid_char, is_high, is_low. intros H.
  apply N.ltb_lt in H. repeat split.
  - apply N.ltb_lt. lia.
  - destruct (N.leb_spec 55296 c); [lia|reflexivity].
  - destruct (N.leb_spec 56320 c); [lia|reflexivity].
Qed.

Lemma tight_ascii s : forallb is_ascii s = true -> tight s.
Proof.
  induction s as [|c s IH]; [intros _; apply tight_nil|].
  cbn [forallb]. intros H. apply andb_prop in H as [Hc Hs].
  destruct (ascii_not_surrogate c Hc) as (Hv & Hh & Hl).
  apply (tight_app [c] s); [|now apply IH].
  split; [now apply wf_str_single|]. split; [exact Hl|exact Hh].
Qed.

End WellFormedStrings.

(** ** Decoded strings are well formed *)

Section DecodedStrings.

Import Json.
Local Open Scope N_scope.


Lemma cons_to_some {A} c (o : option (str * A)) t x :
  cons_to c o = Some (t, x) -> exists t', o = Some (t', x) /\ t = c :: t'.
Proof.
  destruct o as [[t' y]|]; cbn [cons_to]; [|discriminate].
  intros H. injection H as <- <-. eauto.
Qed.

Lemma scanstring_step s t r : scanstring s = Some (t, r) -> scan_step s t r.
Proof.
  destruct s as [|c s0]; [discriminate|]. cbn [scanstring].
  destruct (N.eqb_spec c 34) as [->|H34].
  { intros H. injection H as <- <-. now apply step_end. }
  destruct (N.eqb_spec c 92) as [->|H92].
  - destruct s0 as [|e r1]; [discriminate|].
    destruct (N.eqb_spec e 117) as [->|H117].
    + destruct r1 as [|a [|b [|c4 [|d r2]]]]; try discriminate.
      destruct (hex4_val a b c4 d) as [uni|] eqn:Hh; [|discriminate].
      assert (Hlone : no_low_escape r2 = true \/ is_high uni = false ->
                cons_to uni (scanstring r2) = Some (t, r) ->
                scan_step (92 :: 117 :: a :: b :: c4 :: d :: r2) t r).
      { intros Hc H. apply cons_to_some in H as (t' & Hs & ->).
        eapply step_u; eauto. tauto. }
      destruct r2 as [|b1 [|u1 [|a2 [|b2 [|c2 [|d2 r3]]]]]];
        try (apply Hlone; left; reflexivity).
      destruct (is_high uni) eqn:Hhi; cbn [andb];
        [|apply Hlone; now right].
      destruct (N.eqb_spec b1 92) as [->|Hb1]; cbn [andb].
      2: { apply Hlone. left. apply no_low_escape_other.
           now apply N.eqb_neq. }
      destruct (N.eqb_spec u1 117) as [->|Hu1].
      2: { apply Hlone. left. apply no_low_escape_short_escape.
           now apply N.eqb_neq. }
      destruct (hex4_val a2 b2 c2 d2) as [uni2|] eqn:Hh2; [|discriminate].
      destruct (is_low uni2) eqn:Hlo.
      * intros H. apply cons_to_some in H as (t' & Hs & ->).
        eapply step_pair; eauto.
      * apply Hlone. left. now apply (no_low_escape_u a2 b2 c2 d2 uni2).
    + destruct (unescape e) as [ch|] eqn:Hu; [|discriminate].
      intros H. apply cons_to_some in H as (t' & Hs & ->).
      eapply step_escape; eauto.
  - destruct (N.ltb_spec c 32) as [Hlt|Hge]; [discriminate|].
    intros Hc. apply cons_to_some in Hc as (t' & Hs & ->).
    eapply step_plain; eauto; now apply N.eqb_neq.
Qed.

Lemma hex_val_bound c k : hex_val c = Some k -> k < 16.
Proof.
  unfold hex_val.
  destruct ((48 <=? c) && (c <=? 57)) eqn:E1.
  { apply andb_prop in E1 as [H1 H2]. apply N.leb_le in H1, H2.
    intros H. injection H as <-. lia. }
  destruct ((97 <=? c) && (c <=? 102)) eqn:E2.
  { apply andb_prop in E2 as [H1 H2]. apply N.leb_le in H1, H2.
    intros H. injection H as <-. lia. }
  destruct ((65 <=? c) && (c <=? 70)) eqn:E3; [|discriminate].
  apply andb_prop in E3 as [H1 H2]. apply N.leb_le in H1, H2.
  intros H. injection H as <-. lia.
Qed.

Lemma hex4_val_bound a b c d n : hex4_val a b c d = Some n -> n < 65536.
Proof.
  unfold hex4_val.
  destruct (hex_val a) as [x|] eqn:Ha; [|discriminate].
  destruct (hex_val b) as [y|] eqn:Hb; [|discriminate].
  destruct (hex_val c) as [z|] eqn:Hc; [|discriminate].
  destruct (hex_val d) as [w|] eqn:Hd; [|discriminate].
  apply hex_val_bound in Ha, Hb, Hc, Hd.
  intros H. injection H as <-. lia.
Qed.

Lemma unescape_ascii e ch : unescape e = Some ch -> is_ascii ch = true.
Proof.
  unfold unescape.
  repeat match goal with
         | |- context [N.eqb e ?k] => destruct (N.eqb e k)
         end; intros H; try discriminate; now injection H as <-.
Qed.

Lemma scalar_facts c :
  scalar c = true ->
  valid_char c = true /\ is_high c = false /\ is_low c = false.
Proof.
  unfold scalar, valid_char, is_high, is_low. intros H.
  apply andb_prop in H as [Hv Hs]. rewrite Hv.
  apply negb_true_iff in Hs.
  destruct (N.leb_spec 55296 c), (N.leb_spec c 57343); cbn [andb] in Hs;
    try discriminate; repeat split;
    try (destruct (N.leb_spec c 56319); cbn [andb]; reflexivity || lia);
    try (destruct (N.leb_spec 56320 c); cbn [andb]; reflexivity || lia);
    destruct (N.leb_spec 55296 c); cbn [andb]; try reflexivity; lia.
Qed.

(** A decoded string starts with a low surrogate only when the text
    starts with the escape of one. *)
Lemma scanstring_starts_low s t r :
  scanstring s = Some (t, r) -> valid_text s = true ->
  starts_low t = true -> no_low_escape s = false.
Proof.
  intros Hs Hv Hl.
  destruct (scanstring_step s t r Hs)
    as [-> ->|c s' t' -> H34 H92 H32 _ ->|e ch s' t' -> Hu _ ->
        |a b c d uni s' t' -> Hh _ _ ->
        |a b c d uni a2 b2 c2 d2 uni2 s' t' -> Hh Hhi Hh2 Hlo _ ->];
    cbn [starts_low] in Hl.
  - discriminate.
  - cbn [valid_text forallb] in Hv. apply andb_prop in Hv as [Hc _].
    destruct (scalar_facts c Hc) as (_ & _ & Hcl). congruence.
  - apply unescape_ascii in Hu.
    destruct (ascii_not_surrogate ch Hu) as (_ & _ & Hcl). congruence.
  - cbn [no_low_escape]. change (N.eqb 92 92) with true.
    change (N.eqb 117 117) with true. cbn [andb]. now rewrite Hh, Hl.
  - unfold is_low in Hl. apply andb_prop in Hl as [_ Hl].
    apply N.leb_le in Hl. lia.
Qed.

Lemma valid_text_cons c s :
  valid_text (c :: s) = true -> scalar c = true /\ valid_text s = true.
Proof. cbn [valid_text forallb]. apply andb_prop. Qed.

Lemma scanstring_wf_aux n :
  forall s t r, (List.length s <= n)%nat ->
    scanstring s = Some (t, r) -> valid_text s = true ->
    wf_str t = true /\ valid_text r = true.
Proof.
  induction n as [|n IH]; intros s t r Hlen Hs Hv.
  { destruct s; [discriminate|cbn in Hlen; lia]. }
  destruct (scanstring_step s t r Hs)
    as [-> ->|c s' t' -> H34 H92 H32 Hs' ->|e ch s' t' -> Hu Hs' ->
        |a b c d uni s' t' -> Hh Hlone Hs' ->
        |a b c d uni a2 b2 c2 d2 uni2 s' t' -> Hh Hhi Hh2 Hlo Hs' ->].
  - split; [reflexivity|]. now apply valid_text_cons in Hv.
  - apply valid_text_cons in Hv as [Hc Hv'].
    destruct (IH s' t' r ltac:(cbn in Hlen; lia) Hs' Hv') as [Hwf Hr].
    split; [|exact Hr].
    destruct (scalar_facts c Hc) as (Hcv & Hch & _).
    change (c :: t') with ([c] ++ t').
    rewrite wf_str_app, (wf_str_single c Hcv), Hwf, ends_high_single, Hch.
    reflexivity.
  - apply valid_text_cons in Hv as [_ Hv].
    apply valid_text_cons in Hv as [_ Hv'].
    destruct (IH s' t' r ltac:(cbn in Hlen; lia) Hs' Hv') as [Hwf Hr].
    split; [|exact Hr].
    apply unescape_ascii in Hu.
    apply (wf_str_tight_l [ch] t'); [|exact Hwf].
    apply tight_ascii. cbn [forallb]. now rewrite Hu.
  - do 6 (apply valid_text_cons in Hv as [_ Hv]).
    destruct (IH s' t' r ltac:(cbn in Hlen; lia) Hs' Hv) as [Hwf Hr].
    split; [|exact Hr].
    assert (Hval : valid_char uni = true).
    { apply hex4_val_bound in Hh. unfold valid_char. apply N.ltb_lt. lia. }
    change (uni :: t') with ([uni] ++ t').
    rewrite wf_str_app, (wf_str_single uni Hval), Hwf, ends_high_single.
    destruct Hlone as [Hnh|Hesc]; [now rewrite Hnh|].
    destruct (starts_low t') eqn:Hsl; [|now rewrite andb_false_r].
    pose proof (scanstring_starts_low s' t' r Hs' Hv Hsl). congruence.
  - do 12 (apply valid_text_cons in Hv as [_ Hv]).
    destruct (IH s' t' r ltac:(cbn in Hlen; lia) Hs' Hv) as [Hwf Hr].
    split; [|exact Hr].
    apply hex4_val_bound in Hh, Hh2.
    unfold is_high in Hhi. apply andb_prop in Hhi as [Hhi1 Hhi2].
    unfold is_low in Hlo. apply andb_prop in Hlo as [Hlo1 Hlo2].
    apply N.leb_le in Hhi1, Hhi2, Hlo1, Hlo2.
    set (u := 65536 + (uni - 55296) * 1024 + (uni2 - 56320)).
    assert (Hu : 65536 <= u < 1114112) by (unfold u; lia).
    assert (Hval : valid_char u = true)
      by (unfold valid_char; apply N.ltb_lt; lia).
    assert (Hnh : is_high u = false).
    { unfold is_high. destruct (N.leb_spec u 56319); [lia|].
      now rewrite andb_false_r. }
    change (u :: t') with ([u] ++ t').
    rewrite wf_str_app, (wf_str_single u Hval), Hwf, ends_high_single, Hnh.
    reflexivity.
Qed.

Lemma scanstring_wf s t r :
  scanstring s = Some (t, r) -> valid_text s = true ->
  wf_str t = true /\ valid_text r = true.
Proof. apply (scanstring_wf_aux (List.length s)). lia. Qed.

End DecodedStrings.

(** ** Decoded documents are well formed *)

Section DecodedValues.

Import Json.
Local Open Scope N_scope.

Lemma wf_dict d :
  wf (JDict d)
  = nodup_keys (map fst d)
    && forallb (fun kv => match kv with (k, x) => wf_str k && wf x end) d.
Proof. reflexivity. Qed.

Lemma wf_list l : wf (JList l) = forallb wf l.
Proof. reflexivity. Qed.

Lemma in_keys_dict_set d k v x :
  In x (map fst (dict_set d k v)) -> x = k \/ In x (map fst d).
Proof.
  induction d as [|[k' v'] d IH]; cbn [dict_set map fst In].
  - intros [H|[]]; auto.
  - destruct (str_eqb k' k); cbn [map fst In]; [tauto|].
    intros [H|H]; [tauto|]. apply IH in H. tauto.
Qed.

Lemma NoDup_keys_dict_set d k v :
  NoDup (map fst d) -> NoDup (map fst (dict_set d k v)).
Proof.
  induction d as [|[k' v'] d IH]; cbn [dict_set map fst]; intros Hd.
  - repeat constructor. intros [].
  - inversion Hd as [|? ? Hn Hd']; subst.
    destruct (str_eqb k' k) eqn:E; cbn [map fst]; [exact Hd|].
    constructor; [|now apply IH].
    intros Hin. apply in_keys_dict_set in Hin as [->|Hin]; [|tauto].
    now rewrite str_eqb_refl in E.
Qed.

Lemma wf_items_dict_set d k v :
  forallb (fun kv => match kv with (k, x) => wf_str k && wf x end) d = true ->
  wf_str k = true -> wf v = true ->
  forallb (fun kv => match kv with (k, x) => wf_str k && wf x end)
          (dict_set d k v) = true.
Proof.
  intros Hd Hk Hv. induction d as [|[k' v'] d IH]; cbn [dict_set forallb].
  - now rewrite Hk, Hv.
  - cbn [forallb] in Hd. apply andb_prop in Hd as [H1 H2].
    apply andb_prop in H1 as [H3 H4].
    destruct (str_eqb k' k); cbn [forallb].
    + now rewrite H3, Hv, H2.
    + now rewrite H3, H4, IH.
Qed.

(** Setting a key of a well-formed [dict] to a well-formed value. *)
Lemma wf_dict_set d k v :
  wf (JDict d) = true -> wf_str k = true -> wf v = true ->
  wf (JDict (dict_set d k v)) = true.
Proof.
  rewrite !wf_dict. intros H Hk Hv. apply andb_prop in H as [Hn Hi].
  apply andb_true_intro. split.
  - apply nodup_keys_NoDup, NoDup_keys_dict_set. now apply nodup_keys_NoDup.
  - now apply wf_items_dict_set.
Qed.

Lemma wf_dict_of_pairs pairs :
  forallb (fun kv => match kv with (k, x) => wf_str k && wf x end) pairs
  = true ->
  wf (JDict (dict_of_pairs pairs)) = true.
Proof.
  unfold dict_of_pairs. intros Hp.
  assert (Hacc : wf (JDict []) = true) by reflexivity.
  revert Hacc. generalize (@nil (str * json)) as acc.
  induction pairs as [|[k v] pairs IH]; intros acc Hacc;
    cbn [fold_left fst snd]; [exact Hacc|].
  cbn [forallb] in Hp. apply andb_prop in Hp as [H1 H2].
  apply andb_prop in H1 as [Hk Hv].
  apply IH; [exact H2|]. now apply wf_dict_set.
Qed.

Lemma valid_text_skip_ws s :
  valid_text s = true -> valid_text (skip_ws s) = true.
Proof.
  induction s as [|c s IH]; [reflexivity|]. cbn [skip_ws].
  intros H. destruct (is_ws c); [|exact H].
  apply IH. now apply valid_text_cons in H.
Qed.

Lemma valid_text_skipn n s :
  valid_text s = true -> valid_text (skipn n s) = true.
Proof.
  revert s; induction n as [|n IH]; intros [|c s] H; cbn [skipn];
    try exact H. apply IH. now apply valid_text_cons in H.
Qed.

Lemma scan_digits_valid s :
  valid_text s = true -> valid_text (snd (scan_digits s)) = true.
Proof.
  induction s as [|c s IH]; [reflexivity|]. cbn [scan_digits].
  intros H. destruct (is_digit c); [|exact H].
  apply valid_text_cons in H as [_ H]. specialize (IH H).
  destruct (scan_digits s) as [u r]. exact IH.
Qed.

Lemma scan_natural_valid s u r :
  scan_natural s = Some (u, r) -> valid_text s = true ->
  valid_text r = true.
Proof.
  unfold scan_natural. destruct s as [|c s0]; [discriminate|].
  intros H Hv. destruct (N.eqb c 48).
  - injection H as <- <-. now apply valid_text_cons in Hv.
  - destruct (is_digit c); [|discriminate].
    pose proof (scan_digits_valid (c :: s0) Hv) as Hd.
    destruct (scan_digits (c :: s0)) as [u' r']. now injection H as <- <-.
Qed.

Lemma scan_number_wf s v r :
  scan_number s = Some (v, r) -> valid_text s = true ->
  wf v = true /\ valid_text r = true.
Proof.
  unfold scan_number. destruct s as [|c s0]; [discriminate|].
  intros H Hv. destruct (N.eqb c 45).
  - destruct (scan_natural s0) as [[u r']|] eqn:Hn; [|discriminate].
    destruct (float_tail r'); [discriminate|]. injection H as <- <-.
    split; [reflexivity|].
    apply (scan_natural_valid s0 u r' Hn). now apply valid_text_cons in Hv.
  - destruct (scan_natural (c :: s0)) as [[u r']|] eqn:Hn; [|discriminate].
    destruct (float_tail r'); [discriminate|]. injection H as <- <-.
    split; [reflexivity|]. now apply (scan_natural_valid _ u r' Hn).
Qed.

Lemma scan_wf fuel :
  (forall s v r, scan_once fuel s = Some (v, r) -> valid_text s = true ->
                 wf v = true /\ valid_text r = true)
  /\ (forall s l r, array_items fuel s = Some (l, r) ->
                    valid_text s = true ->
                    forallb wf l = true /\ valid_text r = true)
  /\ (forall s l r, object_items fuel s = Some (l, r) ->
                    valid_text s = true ->
                    forallb (fun kv => match kv with
                                       | (k, x) => wf_str k && wf x
                                       end) l = true
                    /\ valid_text r = true).
Proof.
  induction fuel as [|f (IHv & IHa & IHo)];
    [repeat split; discriminate|].
  repeat apply conj.
  - intros s v r H Hv. cbn [scan_once] in H.
    destruct s as [|c s0]; [discriminate|].
    destruct (N.eqb c 34).
    { destruct (scanstring s0) as [[t r']|] eqn:Hs; [|discriminate].
      injection H as <- <-. apply valid_text_cons in Hv as [_ Hv].
      exact (scanstring_wf s0 t r' Hs Hv). }
    destruct (N.eqb c 123).
    { apply valid_text_cons in Hv as [_ Hv].
      pose proof (valid_text_skip_ws s0 Hv) as Hw.
      destruct (skip_ws s0) as [|c1 r1]; [discriminate|].
      apply valid_text_cons in Hw as [_ Hw].
      destruct (N.eqb c1 125); [injection H as <- <-; now split|].
      destruct (N.eqb c1 34); [|discriminate].
      destruct (object_items f r1) as [[pairs r']|] eqn:Ho; [|discriminate].
      injection H as <- <-. destruct (IHo r1 pairs r' Ho Hw) as [Hp Hr].
      split; [now apply wf_dict_of_pairs|exact Hr]. }
    destruct (N.eqb c 91).
    { apply valid_text_cons in Hv as [_ Hv].
      pose proof (valid_text_skip_ws s0 Hv) as Hw.
      destruct (skip_ws s0) as [|c1 r1]; [discriminate|].
      destruct (N.eqb c1 93).
      { injection H as <- <-. split; [reflexivity|].
        now apply valid_text_cons in Hw. }
      destruct (array_items f (c1 :: r1)) as [[l r']|] eqn:Ha;
        [|discriminate].
      injection H as <- <-. exact (IHa (c1 :: r1) l r' Ha Hw). }
    destruct (startswith (c :: s0) (lit "null")).
    { injection H as <- <-. split; [reflexivity|].
      exact (valid_text_skipn 4 (c :: s0) Hv). }
    destruct (startswith (c :: s0) (lit "true")).
    { injection H as <- <-. split; [reflexivity|].
      exact (valid_text_skipn 4 (c :: s0) Hv). }
    destruct (startswith (c :: s0) (lit "false")).
    { injection H as <- <-. split; [reflexivity|].
      exact (valid_text_skipn 5 (c :: s0) Hv). }
    exact (scan_number_wf (c :: s0) v r H Hv).
  - intros s l r H Hv. cbn [array_items] in H.
    destruct (scan_once f s) as [[v r0]|] eqn:Hs; [|discriminate].
    destruct (IHv s v r0 Hs Hv) as [Hwv Hr0].
    pose proof (valid_text_skip_ws r0 Hr0) as Hw.
    destruct (skip_ws r0) as [|c r1]; [discriminate|].
    apply valid_text_cons in Hw as [_ Hw].
    destruct (N.eqb c 93).
    { injection H as <- <-. cbn [forallb]. now rewrite Hwv. }
    destruct (N.eqb c 44); [|discriminate].
    destruct (array_items f (skip_ws r1)) as [[l' r']|] eqn:Ha;
      [|discriminate].
    injection H as <- <-.
    destruct (IHa _ l' r' Ha (valid_text_skip_ws r1 Hw)) as [Hl Hr].
    cbn [forallb]. now rewrite Hwv, Hl.
  - intros s l r H Hv. cbn [object_items] in H.
    destruct (scanstring s) as [[k r0]|] eqn:Hs; [|discriminate].
    destruct (scanstring_wf s k r0 Hs Hv) as [Hk Hr0].
    pose proof (valid_text_skip_ws r0 Hr0) as Hw.
    destruct (skip_ws r0) as [|c r1]; [discriminate|].
    apply valid_text_cons in Hw as [_ Hw].
    destruct (N.eqb c 58); [|discriminate].
    destruct (scan_once f (skip_ws r1)) as [[v r2]|] eqn:Hsv;
      [|discriminate].
    destruct (IHv _ v r2 Hsv (valid_text_skip_ws r1 Hw)) as [Hwv Hr2].
    pose proof (valid_text_skip_ws r2 Hr2) as Hw2.
    destruct (skip_ws r2) as [|c2 r3]; [discriminate|].
    apply valid_text_cons in Hw2 as [_ Hw2].
    destruct (N.eqb c2 125).
    { injection H as <- <-. cbn [forallb]. now rewrite Hk, Hwv. }
    destruct (N.eqb c2 44); [|discriminate].
    pose proof (valid_text_skip_ws r3 Hw2) as Hw3.
    destruct (skip_ws r3) as [|c3 r4]; [discriminate|].
    apply valid_text_cons in Hw3 as [_ Hw3].
    destruct (N.eqb c3 34); [|discriminate].
    destruct (object_items f r4) as [[l' r']|] eqn:Ho; [|discriminate].
    injection H as <- <-. destruct (IHo r4 l' r' Ho Hw3) as [Hl Hr].
    cbn [forallb]. now rewrite Hk, Hwv, Hl.
Qed.

(** A document decoded from the text of a file is well formed. *)
Lemma load_wf text doc :
  load text = Some doc -> valid_text text = true -> wf doc = true.
Proof.
  unfold load, decode. intros H Hv.
  destruct (scan_once (S (List.length text)) (skip_ws text))
    as [[v r]|] eqn:Hs; [|discriminate].
  destruct (skip_ws r); [|discriminate]. injection H as <-.
  destruct (scan_wf (S (List.length text))) as (Hw & _ & _).
  now apply (Hw _ v r Hs), valid_text_skip_ws.
Qed.

End DecodedValues.

(** ** The strings the editor builds are well formed *)

Section BuiltStrings.

Import Json.
Local Open Scope N_scope.

Lemma tight_wrap a s b :
  tight a -> a <> [] -> wf_str s = true -> tight b -> b <> [] ->
  tight (a ++ s ++ b).
Proof.
  intros Ha Hna Hs Hb Hnb. repeat split.
  - apply wf_str_tight_l; [exact Ha|]. now apply wf_str_tight_r.
  - rewrite starts_low_app. destruct a; [congruence|]. apply Ha.
  - rewrite app_assoc, ends_high_app by exact Hnb. apply Hb.
Qed.

Lemma tight_wf s : tight s -> wf_str s = true.
Proof. now intros [H _]. Qed.

Lemma wf_str_join sep ss :
  tight sep -> sep <> [] -> forallb wf_str ss = true ->
  wf_str (join sep ss) = true.
Proof.
  intros Hsep Hne. induction ss as [|p ss IH]; [reflexivity|].
  cbn [forallb]. intros H. apply andb_prop in H as [Hp Hss].
  destruct ss as [|q ss]; [exact Hp|].
  change (join sep (p :: q :: ss)) with (p ++ sep ++ join sep (q :: ss)).
  rewrite wf_str_app, Hp, (wf_str_tight_l _ _ Hsep (IH Hss)).
  rewrite starts_low_app. destruct sep as [|c sep]; [congruence|].
  destruct Hsep as (_ & -> & _). now rewrite andb_false_r.
Qed.

Lemma tight_join sep ss :
  tight sep -> Forall tight ss -> tight (join sep ss).
Proof.
  intros Hsep. induction 1 as [|p ss Hp Hss IH]; [apply tight_nil|].
  destruct ss as [|q ss]; [exact Hp|].
  change (join sep (p :: q :: ss)) with (p ++ sep ++ join sep (q :: ss)).
  apply tight_app; [exact Hp|]. now apply tight_app.
Qed.

Lemma join_split c s : join [c] (split c s) = s.
Proof.
  induction s as [|x t IH]; [reflexivity|]. cbn [split].
  destruct (N.eqb_spec x c) as [->|Hx].
  - pose proof (split_nonempty c t) as Hn.
    destruct (split c t) as [|h r]; [congruence|].
    change (join [c] ([] :: h :: r)) with (c :: join [c] (h :: r)).
    now rewrite IH.
  - destruct (split c t) as [|h r]; [now rewrite <- IH|].
    rewrite <- IH. destruct r; reflexivity.
Qed.

Lemma wf_str_join_inv sep ss :
  wf_str (join sep ss) = true -> forallb wf_str ss = true.
Proof.
  induction ss as [|p ss IH]; [reflexivity|].
  destruct ss as [|q ss].
  - intros H. cbn [forallb join] in *. now rewrite H.
  - change (join sep (p :: q :: ss)) with (p ++ sep ++ join sep (q :: ss)).
    intros H. apply wf_str_app_inv in H as [Hp H].
    apply wf_str_app_inv in H as [_ H].
    change (forallb wf_str (p :: q :: ss))
      with (wf_str p && forallb wf_str (q :: ss)).
    now rewrite Hp, IH.
Qed.

Lemma wf_str_split c s :
  wf_str s = true -> forallb wf_str (split c s) = true.
Proof.
  intros H. apply (wf_str_join_inv [c]). now rewrite join_split.
Qed.

Lemma wf_opp_moves_of text :
  wf_str text = true ->
  forallb wf (map JStr (PuzzleEditor.opp_moves_of text)) = true.
Proof.
  intros H. unfold PuzzleEditor.opp_moves_of.
  destruct (strip text) as [|c t] eqn:E; [reflexivity|].
  rewrite <- E. apply forallb_forall. intros x Hx.
  apply in_map_iff in Hx as (m & <- & Hm).
  apply in_map_iff in Hm as (m' & <- & Hm').
  apply filter_In in Hm' as [Hm' _].
  cbn [wf]. apply wf_str_strip.
  pose proof (wf_str_split 44 _ (wf_str_strip _ H)) as Hs.
  rewrite forallb_forall in Hs. now apply Hs.
Qed.

Lemma is_ascii_digit c : is_digit c = true -> is_ascii c = true.
Proof.
  unfold is_digit, is_ascii. intros H. apply andb_prop in H as [_ H].
  apply N.leb_le in H. apply N.ltb_lt. lia.
Qed.

Lemma uint_str_ascii u : forallb is_ascii (uint_str u) = true.
Proof.
  apply forallb_forall. intros c Hc.
  pose proof (uint_str_digits u) as H. rewrite Forall_forall in H.
  now apply is_ascii_digit, H.
Qed.

Lemma int_str_ascii z : forallb is_ascii (int_str z) = true.
Proof.
  unfold int_str. destruct (Z.to_int z); cbn [forallb];
    now rewrite uint_str_ascii.
Qed.

Lemma repeat_ascii c n : is_ascii c = true -> forallb is_ascii (repeat c n) = true.
Proof.
  intros H. induction n as [|n IH]; [reflexivity|].
  cbn [repeat forallb]. now rewrite H, IH.
Qed.

Lemma format_02d_ascii z : forallb is_ascii (format_02d z) = true.
Proof.
  unfold format_02d. destruct (Z.to_int z); cbn [forallb];
    rewrite ?forallb_app, repeat_ascii, uint_str_ascii; reflexivity.
Qed.

Lemma hex_digit_ascii n : n < 16 -> is_ascii (hex_digit n) = true.
Proof.
  intros H. unfold hex_digit, is_ascii.
  destruct (n <? 10); apply N.ltb_lt; lia.
Qed.

Lemma hex2_ascii n : forallb is_ascii (hex2 n) = true.
Proof.
  unfold hex2. cbn [forallb].
  rewrite !hex_digit_ascii; [reflexivity| |]; now apply N.mod_lt.
Qed.

Lemma hex4_ascii n : forallb is_ascii (hex4 n) = true.
Proof.
  unfold hex4. cbn [forallb].
  rewrite !hex_digit_ascii; [reflexivity| | | |]; now apply N.mod_lt.
Qed.

Lemma hex8_ascii n : forallb is_ascii (hex8 n) = true.
Proof. unfold hex8. now rewrite forallb_app, !hex4_ascii. Qed.

Section Printable.

Variable isprintable : N -> bool.

(** An escaped character is written in ASCII; any other stands for
    itself. *)
Lemma repr_char_shape q c :
  is_ascii q = true ->
  repr_char isprintable q c = [c]
  \/ (forallb is_ascii (repr_char isprintable q c) = true
      /\ repr_char isprintable q c <> []).
Proof.
  intros Hq. unfold repr_char.
  destruct (N.eqb_spec c q) as [->|Hcq].
  { right. cbn [orb forallb]. rewrite Hq. split; [reflexivity|discriminate]. }
  destruct (N.eqb_spec c 92) as [->|_].
  { right. split; [reflexivity|discriminate]. }
  cbn [orb].
  destruct (N.eqb c 9); [right; split; [reflexivity|discriminate]|].
  destruct (N.eqb c 10); [right; split; [reflexivity|discriminate]|].
  destruct (N.eqb c 13); [right; split; [reflexivity|discriminate]|].
  destruct ((c <? 32) || (c =? 127)).
  { right. split; [|discriminate].
    rewrite forallb_app, hex2_ascii. reflexivity. }
  destruct (c <? 127); [now left|].
  destruct (isprintable c); [now left|].
  destruct (c <? 256).
  { right. split; [|discriminate].
    rewrite forallb_app, hex2_ascii. reflexivity. }
  destruct (c <? 65536).
  { right. split; [|discriminate].
    rewrite forallb_app, hex4_ascii. reflexivity. }
  right. split; [|discriminate].
  rewrite forallb_app, hex8_ascii. reflexivity.
Qed.

Lemma wf_flat_map (f : N -> str) s :
  (forall c, f c = [c] \/ (forallb is_ascii (f c) = true /\ f c <> [])) ->
  wf_str s = true ->
  wf_str (flat_map f s) = true
  /\ (starts_low (flat_map f s) = true -> starts_low s = true).
Proof.
  intros Hf. induction s as [|c s IH]; [now split|].
  intros H. apply wf_str_cons in H as (Hc & Hs & Hp).
  destruct (IH Hs) as [IH1 IH2]. cbn [flat_map].
  destruct (Hf c) as [->|[Ha Hne]].
  - split; [|intros H; exact H].
    rewrite wf_str_app, (wf_str_single c Hc), IH1, ends_high_single.
    cbn [andb]. destruct (is_high c); [|reflexivity].
    destruct (starts_low (flat_map f s)); [|reflexivity].
    cbn [andb] in Hp. now rewrite IH2 in Hp.
  - pose proof (tight_ascii _ Ha) as Ht. split.
    + now apply wf_str_tight_l.
    + rewrite starts_low_app. destruct (f c) as [|x r]; [congruence|].
      destruct Ht as (_ & -> & _). discriminate.
Qed.

Lemma repr_quote_ascii s : is_ascii (repr_quote s) = true.
Proof. unfold repr_quote. now destruct (_ && _). Qed.

Lemma tight_repr_str s : wf_str s = true -> tight (repr_str isprintable s).
Proof.
  intros H. unfold repr_str.
  pose proof (repr_quote_ascii s) as Hq.
  change (repr_quote s :: flat_map (repr_char isprintable (repr_quote s)) s
            ++ [repr_quote s])
    with ([repr_quote s] ++ flat_map (repr_char isprintable (repr_quote s)) s
            ++ [repr_quote s]).
  assert (Ht : tight [repr_quote s]).
  { apply tight_ascii. cbn [forallb]. now rewrite Hq. }
  apply tight_wrap; try exact Ht; try discriminate.
  apply wf_flat_map; [|exact H]. intros c. now apply repr_char_shape.
Qed.

Lemma tight_repr v : wf v = true -> tight (repr isprintable v).
Proof.
  induction v as [|b|z|s|l IH|d IH] using json_induction; intros H.
  - now apply tight_ascii.
  - destruct b; now apply tight_ascii.
  - apply tight_ascii, int_str_ascii.
  - now apply tight_repr_str.
  - cbn [repr]. apply tight_app; [now apply tight_ascii|].
    apply tight_app; [|now apply tight_ascii].
    apply tight_join; [now apply tight_ascii|].
    rewrite wf_list in H. rewrite forallb_forall in H.
    rewrite Forall_forall in IH. apply Forall_forall. intros x Hx.
    apply in_map_iff in Hx as (y & <- & Hy). auto.
  - cbn [repr]. apply tight_app; [now apply tight_ascii|].
    apply tight_app; [|now apply tight_ascii].
    apply tight_join; [now apply tight_ascii|].
    rewrite wf_dict in H. apply andb_prop in H as [_ H].
    rewrite forallb_forall in H.
    rewrite Forall_forall in IH. apply Forall_forall. intros x Hx.
    apply in_map_iff in Hx as ([k y] & <- & Hy).
    specialize (H _ Hy). cbn beta iota in H.
    apply andb_prop in H as [Hk Hv].
    apply tight_app; [now apply tight_repr_str|].
    apply tight_app; [now apply tight_ascii|].
    exact (IH _ Hy Hv).
Qed.

Lemma wf_to_str v : wf v = true -> wf_str (to_str isprintable v) = true.
Proof.
  intros H. destruct v; try exact (tight_wf _ (tight_repr _ H)). exact H.
Qed.

Lemma wf_puzzle_id chapter_num k :
  wf chapter_num = true ->
  wf_str (puzzle_id isprintable chapter_num k) = true.
Proof.
  intros H. unfold puzzle_id.
  apply wf_str_tight_l; [now apply tight_ascii|].
  apply wf_str_tight_r; [now apply wf_to_str|].
  apply tight_app; [now apply tight_ascii|].
  apply tight_ascii, format_02d_ascii.
Qed.

End Printable.

End BuiltStrings.

(** ** The operations keep the window well formed *)

Section Keeps.

Local Open Scope monad_scope.

Lemma keeps_ret {S A} (I : S -> Prop) (Q : A -> Prop) a :
  Q a -> keeps I Q (ret a).
Proof. intros Ha s Hs. split; [exact Hs|]. now intros ? [= <-]. Qed.

Lemma keeps_bind {S A B} (I : S -> Prop) (Q : A -> Prop) (R : B -> Prop)
    (c : M S A) (k : A -> M S B) :
  keeps I Q c -> (forall a, Q a -> keeps I R (k a)) ->
  keeps I R (bind c k).
Proof.
  intros Hc Hk s Hs. unfold bind. destruct (Hc s Hs) as [H1 H2].
  destruct (c s) as [s' [a|e]]; cbn [fst snd] in *.
  - apply (Hk a (H2 a eq_refl) s' H1).
  - split; [exact H1|discriminate].
Qed.

Lemma keeps_read {S} (I : S -> Prop) : keeps I I read.
Proof. intros s Hs. split; [exact Hs|]. now intros ? [= <-]. Qed.

Lemma keeps_modify {S} (I : S -> Prop) (Q : unit -> Prop) (f : S -> S) :
  (forall s, I s -> I (f s)) -> Q tt -> keeps I Q (modify f).
Proof. intros Hf Hq s Hs. split; [now apply Hf|]. now intros [] _. Qed.

Lemma keeps_lift {S A} (I : S -> Prop) (Q : A -> Prop) (r : result A) :
  (forall a, r = Ok a -> Q a) -> keeps I Q (lift r).
Proof. intros Hr s Hs. split; [exact Hs|exact Hr]. Qed.

Lemma keeps_zoom {S T A} (I : S -> Prop) (J : T -> Prop) (Q : A -> Prop)
    (proj : S -> T) (upd : T -> S -> S) (c : M T A) :
  keeps J Q c -> (forall s, I s -> J (proj s)) ->
  (forall t s, I s -> J t -> I (upd t s)) ->
  keeps I Q (zoom proj upd c).
Proof.
  intros Hc Hp Hu s Hs. unfold zoom.
  destruct (Hc (proj s) (Hp s Hs)) as [H1 H2].
  destruct (c (proj s)) as [t' r]; cbn [fst snd] in *. split; auto.
Qed.

Lemma keeps_any {S A} (I : S -> Prop) (Q : A -> Prop) (c : M S A) :
  keeps I Q c -> keeps I (fun _ => True) c.
Proof. intros Hc s Hs. split; [apply (Hc s Hs)|trivial]. Qed.

Lemma good_iff p w :
  good p w <-> wf (_chapter w) = true
               /\ wf_puzzle_editor (_puzzle_editor w) = true
               /\ wf (_dialog_editor w) = true
               /\ _filepath w = p /\ truthy (_chapter w) = true.
Proof.
  unfold good, wf_window. rewrite !andb_true_iff. tauto.
Qed.

Lemma good_set_chapter p c w :
  good p w -> wf c = true -> truthy c = true -> good p (set_chapter c w).
Proof. rewrite !good_iff. cbn. tauto. Qed.

Lemma good_set_current_idx p i w : good p w -> good p (set_current_idx i w).
Proof. rewrite !good_iff. cbn. tauto. Qed.

Lemma good_set_dirty p b w : good p w -> good p (set_dirty b w).
Proof. rewrite !good_iff. cbn. tauto. Qed.

Lemma good_set_filepath p q w : good p w -> good q (set_filepath q w).
Proof. rewrite !good_iff. cbn. tauto. Qed.

Lemma good_set_puzzle_editor p e w :
  good p w -> good_editor e -> good p (set_puzzle_editor e w).
Proof. unfold good_editor. rewrite !good_iff. cbn. tauto. Qed.

Lemma good_set_dialog_editor p e w :
  good p w -> wf e = true -> good p (set_dialog_editor e w).
Proof. rewrite !good_iff. cbn. tauto. Qed.

(** *** Reading well-formed values *)

Lemma wf_dict_get d k x :
  wf (JDict d) = true -> dict_get d k = Some x -> wf x = true.
Proof.
  rewrite wf_dict. intros H. apply andb_prop in H as [_ H].
  induction d as [|[k' v] d IH]; cbn [dict_get]; [discriminate|].
  cbn [forallb] in H. apply andb_prop in H as [H1 H2].
  apply andb_prop in H1 as [_ Hv].
  destruct (str_eqb k' k); [now intros [= <-]|now apply IH].
Qed.

Lemma wf_get o k dflt x :
  get o k dflt = Ok x -> wf o = true -> wf dflt = true -> wf x = true.
Proof.
  destruct o; try discriminate. intros [= <-] Ho Hd.
  destruct (dict_get d k) eqn:E; [now apply (wf_dict_get d k)|exact Hd].
Qed.

Lemma wf_nth_error l n x :
  forallb wf l = true -> nth_error l n = Some x -> wf x = true.
Proof. apply forallb_nth_error. Qed.

Lemma wf_str_nth_error s n c :
  wf_str s = true -> nth_error s n = Some c -> wf_str [c] = true.
Proof.
  unfold wf_str at 1. intros H Hn. apply andb_prop in H as [H _].
  apply wf_str_single. exact (forallb_nth_error _ _ _ _ H Hn).
Qed.

Lemma wf_getitem o i x :
  getitem o i = Ok x -> wf o = true -> wf x = true.
Proof.
  destruct o; try discriminate; cbn [getitem wf];
    destruct (index _ i) as [n|]; try discriminate; cbn [rbind].
  - destruct (nth_error s n) eqn:E; [|discriminate]. intros [= <-] Ho.
    now apply (wf_str_nth_error s n).
  - destruct (nth_error l n) eqn:E; [|discriminate]. intros [= <-] Ho.
    now apply (wf_nth_error l n).
Qed.

Lemma wf_iter o items :
  iter o = Ok items -> wf o = true -> forallb wf items = true.
Proof.
  destruct o; try discriminate; cbn [iter wf]; intros [= <-] Ho.
  - apply forallb_forall. intros x Hx. apply in_map_iff in Hx as (c & <- & Hc).
    apply In_nth_error in Hc as [n Hn]. now apply (wf_str_nth_error s n).
  - exact Ho.
  - apply andb_prop in Ho as [_ Ho]. rewrite forallb_forall in Ho.
    apply forallb_forall. intros x Hx.
    apply in_map_iff in Hx as ([k v] & <- & Hkv). specialize (Ho _ Hkv).
    cbn beta iota in Ho. now apply andb_prop in Ho.
Qed.

Lemma wf_as_text v s :
  PuzzleEditor.as_text v = Ok s -> wf v = true -> wf_str s = true.
Proof. destruct v; try discriminate. now intros [= <-] H. Qed.

Lemma wf_all_text items ss :
  forallb wf items = true -> PuzzleEditor.all_text items = Ok ss ->
  forallb wf_str ss = true.
Proof.
  revert ss. induction items as [|x items IH]; intros ss H;
    cbn [PuzzleEditor.all_text]; [now intros [= <-]|].
  cbn [forallb] in H. apply andb_prop in H as [Hx Hi].
  destruct (PuzzleEditor.as_text x) as [s|] eqn:E; [|discriminate].
  cbn [rbind]. destruct (PuzzleEditor.all_text items) as [ss'|];
    [|discriminate].
  cbn [rbind]. intros [= <-]. cbn [forallb].
  now rewrite (wf_as_text x s E Hx), (IH ss' Hi eq_refl).
Qed.

Lemma wf_join_moves o s :
  PuzzleEditor.join_moves o = Ok s -> wf o = true -> wf_str s = true.
Proof.
  unfold PuzzleEditor.join_moves.
  destruct (iter o) as [items|] eqn:Ei; [|discriminate]. cbn [rbind].
  destruct (PuzzleEditor.all_text items) as [ss|] eqn:Ea; [|discriminate].
  cbn [rbind]. intros [= <-] Ho.
  apply wf_str_join; [now apply tight_ascii|discriminate|].
  apply (wf_all_text items); [|exact Ea]. now apply (wf_iter o).
Qed.

(** *** Writing well-formed values *)

Lemma wf_list_setitem l i x l' :
  list_setitem l i x = Ok l' -> forallb wf l = true -> wf x = true ->
  forallb wf l' = true.
Proof.
  unfold list_setitem.
  destruct (index _ i) as [n|]; [|discriminate]. intros [= <-] Hl Hx.
  now apply forallb_update.
Qed.

Lemma forallb_remove_at {A} (p : A -> bool) l n :
  forallb p l = true -> forallb p (remove_at l n) = true.
Proof.
  revert n. induction l as [|h l IH]; intros [|n] H; cbn [remove_at];
    try reflexivity; cbn [forallb] in *; apply andb_prop in H as [H1 H2];
    [exact H2|]. now rewrite H1, IH.
Qed.

Lemma wf_list_delitem l i l' :
  list_delitem l i = Ok l' -> forallb wf l = true -> forallb wf l' = true.
Proof.
  unfold list_delitem.
  destruct (index _ i) as [n|]; [|discriminate]. intros [= <-] Hl.
  now apply forallb_remove_at.
Qed.

Lemma wf_list_insert l i x :
  forallb wf l = true -> wf x = true -> forallb wf (list_insert l i x) = true.
Proof.
  intros Hl Hx. unfold list_insert.
  set (j := Z.to_nat _). rewrite <- (firstn_skipn j l) in Hl.
  rewrite forallb_app in Hl. apply andb_prop in Hl as [H1 H2].
  rewrite forallb_app. cbn [forallb]. now rewrite H1, Hx, H2.
Qed.

Lemma wf_put_steps steps chapter :
  wf chapter = true -> wf steps = true -> wf (put_steps steps chapter) = true.
Proof.
  intros Hc Hs. unfold put_steps. destruct chapter; try exact Hc.
  destruct (dict_get d (lit "steps")); [|exact Hc].
  now apply wf_dict_set.
Qed.

Lemma truthy_dict_set d k v : truthy (JDict (dict_set d k v)) = true.
Proof.
  destruct d as [|[k' v'] d]; [reflexivity|]. cbn [dict_set].
  now destruct (str_eqb k' k).
Qed.

Lemma truthy_put_steps steps chapter :
  truthy chapter = true -> truthy (put_steps steps chapter) = true.
Proof.
  intros H. unfold put_steps. destruct chapter; try exact H.
  destruct (dict_get d (lit "steps")); [|exact H]. apply truthy_dict_set.
Qed.

Lemma wf_empty_board : wf BoardGrid.empty_board = true.
Proof. reflexivity. Qed.

Lemma wf_set_board board :
  wf board = true -> wf (BoardGrid.set_board board) = true.
Proof. intros H. unfold BoardGrid.set_board. now destruct (truthy board). Qed.

Lemma good_editor_iff e :
  good_editor e <->
  wf_str (PuzzleEditor._id_entry e) = true
  /\ wf_str (PuzzleEditor._title_entry e) = true
  /\ wf_str (PuzzleEditor._desc_entry e) = true
  /\ wf_str (PuzzleEditor._hint_entry e) = true
  /\ wf_str (PuzzleEditor._opp_entry e) = true
  /\ wf (PuzzleEditor._board_grid e) = true.
Proof.
  unfold good_editor, wf_puzzle_editor. rewrite !andb_true_iff. tauto.
Qed.

Lemma wf_players i : wf_str (PuzzleEditor.PLAYERS i) = true.
Proof. now destruct i. Qed.

Lemma wf_win_conditions i : wf_str (PuzzleEditor.WIN_CONDITIONS i) = true.
Proof. now destruct i. Qed.

Lemma wf_puzzle_step_data e :
  good_editor e -> wf (PuzzleEditor.get_step_data e) = true.
Proof.
  rewrite good_editor_iff. intros (H1 & H2 & H3 & H4 & H5 & H6).
  unfold PuzzleEditor.get_step_data. rewrite wf_dict.
  apply andb_true_intro. split; [reflexivity|].
  cbn [forallb]. rewrite wf_dict. cbn [forallb BoardGrid.get_board].
  change (wf (JList (map JStr (PuzzleEditor.opp_moves_of
                                 (PuzzleEditor._opp_entry e)))))
    with (forallb wf (map JStr (PuzzleEditor.opp_moves_of
                                  (PuzzleEditor._opp_entry e)))).
  unfold BoardGrid.get_board. rewrite (wf_opp_moves_of _ H5), H6.
  change (wf (JStr ?s)) with (wf_str s).
  rewrite !wf_str_strip, wf_players, wf_win_conditions by assumption.
  reflexivity.
Qed.

Lemma wf_dialog_step_data lines :
  wf lines = true -> wf (DialogEditor.get_step_data lines) = true.
Proof.
  intros H. unfold DialogEditor.get_step_data. rewrite wf_dict.
  apply andb_true_intro. split; [reflexivity|].
  cbn [forallb]. now rewrite H.
Qed.

End Keeps.

(** ** The editors and the window stay well formed *)

Section KeepsWindow.

Local Open Scope monad_scope.

Variable p : option str.

Ltac bind_value :=
  eapply (keeps_bind _ (fun v : json => wf v = true));
  [ apply keeps_lift; cbv beta; eauto using wf_get, wf_getitem
  | cbv beta; intros ? ? ].

Tactic Notation "bind_value" "as" ident(v) ident(H) :=
  eapply (keeps_bind _ (fun v : json => wf v = true));
  [ apply keeps_lift; cbv beta; eauto using wf_get, wf_getitem
  | cbv beta; intros v H ].

Ltac bind_text :=
  eapply (keeps_bind _ (fun s : str => wf_str s = true));
  [ apply keeps_lift; cbv beta; eauto using wf_as_text, wf_join_moves
  | cbv beta; intros ? ? ].

Ltac bind_any :=
  eapply (keeps_bind _ (fun _ => True)); [ | intros ? _ ].

Ltac set_field :=
  apply keeps_modify; [|exact I];
  let e := fresh "e" in
  intros e; rewrite !good_editor_iff;
  cbn [PuzzleEditor.set_loading PuzzleEditor.set_id PuzzleEditor.set_title
       PuzzleEditor.set_desc PuzzleEditor.set_hint PuzzleEditor.set_player
       PuzzleEditor.set_win PuzzleEditor.set_max_moves PuzzleEditor.set_opp
       PuzzleEditor.set_grid PuzzleEditor._id_entry PuzzleEditor._title_entry
       PuzzleEditor._desc_entry PuzzleEditor._hint_entry
       PuzzleEditor._opp_entry PuzzleEditor._board_grid];
  tauto.

Lemma keeps_puzzle_set_step step :
  wf step = true ->
  keeps good_editor (fun _ : unit => True) (PuzzleEditor.set_step step).
Proof.
  intros Hstep. unfold PuzzleEditor.set_step.
  bind_any; [set_field|].
  bind_value. bind_text. bind_any; [set_field|].
  bind_value. bind_text. bind_any; [set_field|].
  bind_value. bind_text. bind_any; [set_field|].
  bind_value. bind_text. bind_any; [set_field|].
  bind_value. bind_any; [set_field|].
  bind_value. bind_value. bind_any; [set_field|].
  bind_value. bind_any; [now apply keeps_lift|].
  bind_any; [set_field|].
  bind_value. bind_text. bind_any; [set_field|].
  bind_value. bind_any.
  { apply keeps_modify; [|exact I]. intros e.
    rewrite !good_editor_iff. cbn [PuzzleEditor.set_grid
      PuzzleEditor._id_entry PuzzleEditor._title_entry
      PuzzleEditor._desc_entry PuzzleEditor._hint_entry
      PuzzleEditor._opp_entry PuzzleEditor._board_grid].
    intros He. repeat split; try tauto. now apply wf_set_board. }
  set_field.
Qed.

Lemma keeps_dialog_set_step step :
  wf step = true ->
  keeps (fun lines => wf lines = true) (fun _ : unit => True)
        (DialogEditor.set_step step).
Proof.
  intros Hstep. unfold DialogEditor.set_step.
  bind_value. apply keeps_modify; [now intros|exact I].
Qed.

Lemma keeps_show_step step :
  wf step = true -> keeps (good p) (fun _ : unit => True) (_show_step step).
Proof.
  intros Hstep. unfold _show_step. bind_value as stype Hstype.
  destruct (eq_str stype (lit "puzzle")).
  { eapply keeps_zoom; [now apply keeps_puzzle_set_step| |].
    - intros s Hs. now apply good_iff in Hs.
    - intros e s Hs He. now apply good_set_puzzle_editor. }
  destruct (eq_str stype (lit "dialog")); [|now apply keeps_ret].
  eapply keeps_zoom; [now apply keeps_dialog_set_step| |].
  - intros s Hs. now apply good_iff in Hs.
  - intros e s Hs He. now apply good_set_dialog_editor.
Qed.

Lemma keeps_put_steps steps :
  wf steps = true ->
  keeps (good p) (fun _ : unit => True)
        (modify (fun w => set_chapter (put_steps steps (_chapter w)) w)).
Proof.
  intros Hs. apply keeps_modify; [|exact I]. intros w Hw.
  pose proof (proj1 (good_iff p w) Hw) as (Hc & _ & _ & _ & Ht).
  apply good_set_chapter; [exact Hw| |now apply truthy_put_steps].
  now apply wf_put_steps.
Qed.

Lemma keeps_store_step steps idx data :
  wf steps = true -> wf data = true ->
  keeps (good p) (fun _ : unit => True) (store_step steps idx data).
Proof.
  intros Hs Hd. unfold store_step.
  destruct steps; try now apply keeps_lift.
  eapply (keeps_bind _ (fun l' => forallb wf l' = true)).
  - apply keeps_lift. intros l' Hl'. exact (wf_list_setitem _ _ _ _ Hl' Hs Hd).
  - intros l' Hl'. now apply keeps_put_steps.
Qed.

Lemma keeps_mark_dirty : keeps (good p) (fun _ : unit => True) _mark_dirty.
Proof.
  apply keeps_modify; [|exact I]. intros w. apply good_set_dirty.
Qed.

Lemma keeps_set_current_idx i :
  keeps (good p) (fun _ : unit => True) (modify (set_current_idx i)).
Proof.
  apply keeps_modify; [|exact I]. intros w. apply good_set_current_idx.
Qed.

Lemma keeps_flush : keeps (good p) (fun _ : unit => True) _flush.
Proof.
  unfold _flush. eapply keeps_bind; [apply keeps_read|]. intros w Hw.
  destruct (_ || _); [now apply keeps_ret|].
  pose proof (proj1 (good_iff p w) Hw) as (Hc & He & Hd).
  bind_value as steps Hsteps. bind_any; [now apply keeps_lift|].
  destruct (_ <=? _)%Z; [now apply keeps_ret|].
  bind_value as step Hstep. bind_value as stype Hstype.
  destruct (eq_str stype (lit "puzzle")).
  { apply keeps_store_step; [assumption|]. now apply wf_puzzle_step_data. }
  destruct (eq_str stype (lit "dialog")); [|now apply keeps_ret].
  apply keeps_store_step; [assumption|]. now apply wf_dialog_step_data.
Qed.

Lemma keeps_setdefault_steps :
  keeps (good p) (fun steps => wf steps = true) setdefault_steps.
Proof.
  unfold setdefault_steps. eapply keeps_bind; [apply keeps_read|].
  intros w Hw. pose proof (proj1 (good_iff p w) Hw) as (Hc & _).
  destruct (_chapter w) as [| | | | |d]; try now apply keeps_lift.
  destruct (dict_get d (lit "steps")) as [steps|] eqn:E.
  - apply keeps_ret. now apply (wf_dict_get d (lit "steps")).
  - bind_any; [|now apply keeps_ret].
    apply keeps_modify; [|exact I]. intros s Hs.
    apply good_set_chapter;
      [exact Hs|now apply wf_dict_set|apply truthy_dict_set].
Qed.

Section Printable.

Variable isprintable : N -> bool.

Lemma wf_new_puzzle_step chapter_num k :
  wf chapter_num = true ->
  wf (new_puzzle_step isprintable chapter_num k) = true.
Proof.
  intros H. unfold new_puzzle_step. rewrite wf_dict.
  apply andb_true_intro. split; [reflexivity|].
  cbn [forallb].
  change (wf (JStr (puzzle_id isprintable chapter_num k)))
    with (wf_str (puzzle_id isprintable chapter_num k)).
  rewrite wf_puzzle_id by exact H. reflexivity.
Qed.

Lemma keeps_new_step_for step_type steps :
  keeps (good p) (fun v => wf v = true)
        (new_step_for isprintable step_type steps).
Proof.
  unfold new_step_for.
  destruct (str_eqb step_type (lit "dialog")); [now apply keeps_ret|].
  bind_any; [now apply keeps_lift|]. bind_any; [now apply keeps_lift|].
  eapply keeps_bind; [apply keeps_read|]. intros w Hw.
  pose proof (proj1 (good_iff p w) Hw) as (Hc & _).
  bind_value as chapter_num Hnum. apply keeps_ret.
  now apply wf_new_puzzle_step.
Qed.

Lemma keeps_add_step step_type :
  keeps (good p) (fun _ : unit => True) (_add_step isprintable step_type).
Proof.
  unfold _add_step. eapply keeps_bind; [apply keeps_read|]. intros w Hw.
  destruct (negb _); [now apply keeps_ret|].
  bind_any; [apply keeps_flush|].
  eapply keeps_bind; [apply keeps_setdefault_steps|]. intros steps Hsteps.
  eapply keeps_bind; [apply keeps_read|]. intros w1 Hw1.
  bind_any. { destruct (_ <=? _)%Z; [now apply keeps_ret|now apply keeps_lift]. }
  eapply keeps_bind; [apply keeps_new_step_for|]. intros new_step Hnew.
  destruct steps; try now apply keeps_lift.
  bind_any.
  { apply keeps_put_steps. now apply wf_list_insert. }
  bind_any; [apply keeps_set_current_idx|].
  bind_any; [now apply keeps_show_step|]. apply keeps_mark_dirty.
Qed.

End Printable.

Lemma keeps_delete_step : keeps (good p) (fun _ : unit => True) _delete_step.
Proof.
  unfold _delete_step. eapply keeps_bind; [apply keeps_read|]. intros w Hw.
  destruct (_ || _); [now apply keeps_ret|].
  pose proof (proj1 (good_iff p w) Hw) as (Hc & _).
  bind_value as steps Hsteps. destruct (negb _); [now apply keeps_ret|].
  bind_any; [now apply keeps_lift|].
  destruct (_ <=? _)%Z; [now apply keeps_ret|].
  destruct steps; try now apply keeps_lift.
  eapply (keeps_bind _ (fun l' => forallb wf l' = true)).
  { apply keeps_lift. intros l' Hl'.
    exact (wf_list_delitem _ _ _ Hl' Hsteps). }
  intros l' Hl'. bind_any; [now apply keeps_put_steps|].
  bind_any; [apply keeps_set_current_idx|].
  bind_any; [|apply keeps_mark_dirty].
  destruct (_ <=? _)%Z; [|now apply keeps_ret].
  bind_value as step Hstep. now apply keeps_show_step.
Qed.

Lemma keeps_move_step direction :
  keeps (good p) (fun _ : unit => True) (_move_step direction).
Proof.
  unfold _move_step. eapply keeps_bind; [apply keeps_read|]. intros w Hw.
  destruct (_ || _); [now apply keeps_ret|].
  bind_any; [apply keeps_flush|].
  eapply keeps_bind; [apply keeps_read|]. intros w1 Hw1.
  pose proof (proj1 (good_iff p w1) Hw1) as (Hc & _).
  bind_value as steps Hsteps. bind_any.
  { destruct (_ <=? _)%Z; [|now apply keeps_ret].
    bind_any; [now apply keeps_lift|]. now apply keeps_ret. }
  destruct (negb _); [now apply keeps_ret|].
  bind_value as x Hx. bind_value as y Hy.
  destruct steps; try now apply keeps_lift.
  eapply (keeps_bind _ (fun l' => forallb wf l' = true)).
  { apply keeps_lift. intros l' Hl'.
    exact (wf_list_setitem _ _ _ _ Hl' Hsteps Hx). }
  intros l1 Hl1.
  eapply (keeps_bind _ (fun l' => forallb wf l' = true)).
  { apply keeps_lift. intros l' Hl'.
    exact (wf_list_setitem _ _ _ _ Hl' Hl1 Hy). }
  intros l2 Hl2. bind_any; [now apply keeps_put_steps|].
  bind_any; [apply keeps_set_current_idx|]. apply keeps_mark_dirty.
Qed.

Lemma keeps_perform isprintable a :
  keeps (good p) (fun _ : unit => True) (perform isprintable a).
Proof.
  destruct a; cbn [perform].
  - apply keeps_add_step.
  - apply keeps_delete_step.
  - apply keeps_move_step.
  - apply keeps_flush.
Qed.


End KeepsWindow.

(** ** An empty document *)



Lemma load_file_ok disk path text doc w :
  Disk.content disk path = Some text -> Json.load text = Some doc ->
  fst (_load_file disk path w)
  = set_current_idx (-1)
      (set_dirty false (set_filepath (Some path) (set_chapter doc w))).
Proof. intros Hc Hl. unfold _load_file. now rewrite Hc, Hl. Qed.

Lemma save_file_unfold w disk path :
  truthy (_chapter w) = true -> _filepath w = Some path -> path <> [] ->
  Disk.writable disk path = true ->
  _save_file (w, disk) =
    match _flush w with
    | (w1, Ok _) =>
        match _filepath w1 with
        | Some path1 =>
            if Disk.writable disk path1 then
              ((set_dirty false w1,
                Disk.write path1 (Json.dump (_chapter w1) ++ [10%N]) disk),
               Ok tt)
            else ((w1, disk), Ok tt)
        | None => ((w1, disk), Ok tt)
        end
    | (w1, Raise e) => ((w1, disk), Raise e)
    end.
Proof.
  intros Ht Hp Hne Hw. unfold _save_file, bind, read, zoom, no_filepath.
  cbn [fst snd]. rewrite Ht, Hp. cbn [negb].
  destruct path as [|c path]; [congruence|]. cbv beta iota. cbn [fst snd].
  destruct (_flush w) as [w1 [[]|e]]; [|reflexivity].
  cbn [fst snd]. destruct (_filepath w1) as [p1|]; [|reflexivity].
  destruct (Disk.writable disk p1); reflexivity.
Qed.

Lemma content_write path text disk :
  Disk.content (Disk.write path text disk) path = Some text.
Proof. cbn. now rewrite str_eqb_refl. Qed.

(** ** The steps stay objects *)

Section Shaped.

Local Open Scope monad_scope.


Lemma steps_of_get w l :
  get (_chapter w) (lit "steps") (JList []) = Ok (JList l) -> steps_of w = l.
Proof. unfold steps_of. now intros ->. Qed.

Lemma shaped_get_steps w steps :
  get (_chapter w) (lit "steps") (JList []) = Ok steps ->
  shaped w -> dict_items steps.
Proof.
  intros Hg Hw l ->. now rewrite <- (steps_of_get w l Hg).
Qed.

Lemma steps_of_put w l' :
  steps_of (set_chapter (put_steps (JList l') (_chapter w)) w) = l'
  \/ steps_of (set_chapter (put_steps (JList l') (_chapter w)) w)
     = steps_of w.
Proof.
  unfold steps_of, put_steps. cbn [_chapter set_chapter].
  destruct (_chapter w) as [| | | | |d]; try now right.
  destruct (dict_get d (lit "steps")) eqn:E; [left|now right].
  cbn [get]. now rewrite dict_get_set_same.
Qed.

Lemma keeps_shaped_put_steps l' :
  forallb is_dict l' = true ->
  keeps shaped (fun _ : unit => True)
        (modify (fun w => set_chapter (put_steps (JList l') (_chapter w)) w)).
Proof.
  intros Hl. apply keeps_modify; [|exact I]. intros w Hw. unfold shaped.
  destruct (steps_of_put w l') as [-> | ->]; assumption.
Qed.


Lemma forallb_list_setitem (p : json -> bool) l i x l' :
  list_setitem l i x = Ok l' -> forallb p l = true -> p x = true ->
  forallb p l' = true.
Proof.
  unfold list_setitem.
  destruct (index _ i) as [n|]; [|discriminate]. intros [= <-] Hl Hx.
  now apply forallb_update.
Qed.




Lemma keeps_shaped_store_step steps idx data :
  dict_items steps -> is_dict data = true ->
  keeps shaped (fun _ : unit => True) (store_step steps idx data).
Proof.
  intros Hs Hd. unfold store_step.
  destruct steps; try now apply keeps_lift.
  eapply (keeps_bind _ (fun l' => forallb is_dict l' = true)).
  - apply keeps_lift. intros l' Hl'.
    exact (forallb_list_setitem _ _ _ _ _ Hl' (Hs l eq_refl) Hd).
  - intros l' Hl'. now apply keeps_shaped_put_steps.
Qed.

Lemma keeps_shaped_get_steps w :
  shaped w ->
  keeps shaped dict_items
        (lift (get (_chapter w) (lit "steps") (JList []))).
Proof.
  intros Hw. apply keeps_lift. intros steps Hg.
  exact (shaped_get_steps w steps Hg Hw).
Qed.

Lemma keeps_shaped_flush : keeps shaped (fun _ : unit => True) _flush.
Proof.
  unfold _flush. eapply keeps_bind; [apply keeps_read|]. intros w Hw.
  destruct (_ || _); [now apply keeps_ret|].
  eapply keeps_bind; [now apply keeps_shaped_get_steps|].
  intros steps Hsteps.
  eapply (keeps_bind _ (fun _ => True)); [now apply keeps_lift|].
  intros n _. destruct (_ <=? _)%Z; [now apply keeps_ret|].
  eapply (keeps_bind _ (fun _ => True)); [now apply keeps_lift|].
  intros step _.
  eapply (keeps_bind _ (fun _ => True)); [now apply keeps_lift|].
  intros stype _. destruct (eq_str stype (lit "puzzle")).
  { now apply keeps_shaped_store_step. }
  destruct (eq_str stype (lit "dialog")); [|now apply keeps_ret].
  now apply keeps_shaped_store_step.
Qed.









(** With the pointer in range and the steps objects, a flush returns. *)
Lemma flush_returns w : idx_ok w -> shaped w -> snd (_flush w) = Ok tt.
Proof.
  intros Hi Hs. destruct Hi as [Hi|Hi].
  { unfold _flush, bind, read. rewrite Hi. reflexivity. }
  unfold steps_of in Hi. unfold shaped, steps_of in Hs.
  destruct (_chapter w) as [| | | | |d] eqn:Ec;
    try (cbn in Hi; lia). cbn [get] in Hi, Hs.
  destruct (dict_get d (lit "steps")) as [steps|] eqn:E;
    [|cbn in Hi; lia].
  destruct steps as [| | | |l|]; try (cbn in Hi; lia).
  destruct (nth_error l (Z.to_nat (_current_idx w))) as [step|] eqn:En.
  2:{ apply nth_error_None in En. lia. }
  rewrite (flush_at w d l step Ec E Hi En).
  pose proof (forallb_nth_error _ _ _ _ Hs En) as Hd.
  destruct step; try discriminate. cbn [get].
  destruct (flush_data w (JDict d0)); reflexivity.
Qed.

End Shaped.


(** ** Deleting a step: errors and the new active step *)

(** C2, as the claim states it, fails: with the pointer past the end of
    the steps (index 3 of a one-step document), [_delete_step] raises no
    [IndexError]; it returns normally. *)
Lemma delete_step_out_of_bounds_no_index_error :
  Z.of_nat (List.length (steps_of (example_window 3)))
    <= _current_idx (example_window 3)
  /\ snd (_delete_step (example_window 3)) = Ok tt
  /\ snd (_delete_step (example_window 3)) <> Raise IndexError.
Proof.
  split; [intros H; discriminate H|].
  split; [reflexivity|intros H; discriminate H].
Qed.

(** C2, amended: for every document whose steps are a list and every
    active index outside the bounds of the steps (negative, or at least
    the number of steps), [_delete_step] returns without an error and
    leaves the whole window, the steps included, as it was. *)
Theorem delete_step_out_of_bounds_is_noop w l :
  get (_chapter w) (lit "steps") (JList []) = Ok (JList l) ->
  _current_idx w < 0 \/ Z.of_nat (List.length l) <= _current_idx w ->
  _delete_step w = (w, Ok tt).
Proof. apply delete_out_of_bounds. Qed.

Lemma delete_step_out_of_bounds_is_noop_witness :
  _delete_step (example_window 3) = (example_window 3, Ok tt).
Proof.
  apply (delete_step_out_of_bounds_is_noop (example_window 3)
           [example_puzzle]).
  - reflexivity.
  - right. intros H. discriminate H.
Defined.



(** ** The current-step pointer *)

(** C4: each of the mutation operations (insert a dialog or a puzzle
    step, delete, move in either direction, flush) keeps the current-step
    pointer either at -1 or at a valid index into the steps, whatever the
    document holds and whether or not the operation raises. *)
Theorem current_idx_invariant isprintable a w :
  idx_ok w -> idx_ok (fst (perform isprintable a w)).
Proof. apply perform_idx_ok. Qed.

Lemma current_idx_invariant_witness :
  idx_ok (fst (perform (fun _ => true) DeleteStep (example_window 0))).
Proof.
  apply current_idx_invariant.
  right. split; [intros H; discriminate H|reflexivity].
Defined.

(** After a load, successful or not, from the initial window the pointer
    is -1, and it stays -1 or valid through any sequence of operations. *)
Lemma current_idx_after_load isprintable disk path acts :
  idx_ok (run isprintable acts (fst (_load_file disk path init))).
Proof.
  apply run_idx_ok, load_file_idx_ok. left. reflexivity.
Qed.

(** ** Moving a step down and up again *)

Lemma swapped_editors w1 d1 l1 n a b :
  _puzzle_editor (swapped w1 d1 l1 n a b) = _puzzle_editor w1
  /\ _dialog_editor (swapped w1 d1 l1 n a b) = _dialog_editor w1.
Proof. split; reflexivity. Qed.



(** ** The step a new puzzle starts as *)


Lemma set_step_new_puzzle isprintable chapter_num k e :
  snd (PuzzleEditor.set_step (new_puzzle_step isprintable chapter_num k) e)
  = Ok tt.
Proof. reflexivity. Qed.

Lemma show_step_new_puzzle isprintable chapter_num k w :
  snd (_show_step (new_puzzle_step isprintable chapter_num k) w) = Ok tt.
Proof.
  unfold _show_step. unfold_monad.
  change (get (new_puzzle_step isprintable chapter_num k) (lit "type") JNull)
    with (Ok (JStr (lit "puzzle"))).
  cbv beta iota.
  change (eq_str (JStr (lit "puzzle")) (lit "puzzle")) with true.
  cbv beta iota.
  pose proof (set_step_new_puzzle isprintable chapter_num k
                (_puzzle_editor w)) as H.
  destruct (PuzzleEditor.set_step _ (_puzzle_editor w)) as [e r].
  exact H.
Qed.



(** ** Dialog fields left blank *)

(** C9: in a dialog buffer, changing a field of the line at [idx] to a
    text that is empty after trimming stores [None] for that field: the
    call returns normally, and in the step extracted afterwards the line
    at [idx] has [None] under that key, the other lines being as before.
    So the speaker typed as two spaces is extracted as null. *)
Theorem blank_dialog_field_is_null l idx key text d :
  0 <= idx < Z.of_nat (List.length l) ->
  nth_error l (Z.to_nat idx) = Some (JDict d) ->
  strip text = [] ->
  let r := DialogEditor._on_field_changed text idx key (JList l) in
  (snd r = Ok tt
   /\ exists l',
        DialogEditor.get_step_data (fst r)
        = JDict [(lit "type", JStr (lit "dialog")); (lit "lines", JList l')]
        /\ nth_error l' (Z.to_nat idx) = Some (JDict (dict_set d key JNull))
        /\ dict_get (dict_set d key JNull) key = Some JNull
        /\ forall n, n <> Z.to_nat idx -> nth_error l' n = nth_error l n)
  /\ DialogEditor.get_step_data
       (fst (DialogEditor._on_field_changed (lit "  ") 0 (lit "speaker")
               (JList [JDict [(lit "speaker", JStr (lit "Ann"));
                              (lit "portrait", JNull);
                              (lit "text", JStr (lit "Hi"))]])))
     = JDict [(lit "type", JStr (lit "dialog"));
              (lit "lines",
                 JList [JDict [(lit "speaker", JNull);
                               (lit "portrait", JNull);
                               (lit "text", JStr (lit "Hi"))]])].
Proof.
  intros Hi Hn Hblank r. split; [|reflexivity].
  subst r. unfold DialogEditor._on_field_changed. unfold_monad.
  cbn [len]. destruct (Z.ltb_spec idx (Z.of_nat (List.length l))); [|lia].
  cbn [getitem]. rewrite index_in_range by lia. cbn [rbind]. rewrite Hn.
  cbn [DialogEditor.line_setitem]. unfold list_setitem.
  rewrite index_in_range by lia. cbn [rbind fst snd].
  unfold DialogEditor.field_value. rewrite Hblank.
  split; [reflexivity|].
  eexists. repeat apply conj.
  - reflexivity.
  - apply nth_error_update_same. lia.
  - apply dict_get_set_same.
  - intros n Hne. apply nth_error_update_other. congruence.
Qed.

Lemma blank_dialog_field_is_null_witness :
  snd (DialogEditor._on_field_changed (lit "  ") 0 (lit "speaker")
         (JList [DialogEditor.blank_line])) = Ok tt.
Proof.
  assert (Hi : 0 <= 0 < Z.of_nat 1)
    by (split; [intros H; discriminate H|reflexivity]).
  destruct (blank_dialog_field_is_null [DialogEditor.blank_line] 0
              (lit "speaker") (lit "  ") _ Hi eq_refl eq_refl) as [[H _] _].
  exact H.
Defined.

(** ** Placing a piece on the board *)







(** ** The opponent moves of a puzzle buffer *)

(** C6: the step extracted from a puzzle buffer has, as opponent moves,
    the text of the opponent-moves entry split on commas, each token
    trimmed of white space, the empty tokens dropped; the text
    "Kd1,,  Kd2 " gives the two moves Kd1 and Kd2. *)
Theorem opponent_moves_split_trim_drop e :
  get (PuzzleEditor.get_step_data e) (lit "opponent_moves") JNull
  = Ok (JList (map JStr (opponent_moves_spec (PuzzleEditor._opp_entry e))))
  /\ get (PuzzleEditor.get_step_data
            (PuzzleEditor.set_opp (lit "Kd1,,  Kd2 ") e))
         (lit "opponent_moves") JNull
     = Ok (JList [JStr (lit "Kd1"); JStr (lit "Kd2")]).
Proof.
  split; [|reflexivity].
  rewrite <- opp_moves_of_spec. reflexivity.
Qed.

(** ** The dev server: files served below [/data/] *)

(** What the check of [_serve_data_file] does ensure: the bytes sent are
    those of the file the request resolves to, and the text of that
    resolved path starts with the text of the resolved data directory. *)
Lemma served_file_has_data_prefix root project_root url_path content :
  DevHandler.do_GET root project_root url_path = DevHandler.SendFile content
  ->
  exists file_path data_dir,
    DevHandler.resolve root
      (project_root ++ split 47 (lstrip_char 47 url_path)) = Ok file_path
    /\ DevHandler.resolve root (DevHandler.DATA_DIR project_root)
       = Ok data_dir
    /\ startswith (DevHandler.path_str file_path)
                  (DevHandler.path_str data_dir) = true
    /\ DevHandler.lstat root file_path = Some (DevHandler.File true content).
Proof.
  unfold DevHandler.do_GET, DevHandler._serve_data_file.
  destruct (startswith url_path (lit "/data/")); [|discriminate].
  destruct (DevHandler.resolve root
              (project_root ++ split 47 (lstrip_char 47 url_path)))
    as [fp|[]]; try discriminate.
  destruct (DevHandler.resolve root (DevHandler.DATA_DIR project_root))
    as [dd|[]]; try discriminate.
  destruct (startswith (DevHandler.path_str fp) (DevHandler.path_str dd))
    eqn:Hp; cbn [negb]; [|discriminate].
  destruct (DevHandler.lstat root fp) as [[[] c| |]|] eqn:Hl;
    try discriminate.
  intros H. injection H as <-. exists fp, dd. auto.
Qed.

(** C10 fails on the code: the request [/data/../data_private/secret.json]
    has a path that starts with [/data/] and resolves to
    [/srv/wachesaw/data_private/secret.json], which is not under the data
    directory [/srv/wachesaw/data]; the text of that path starts with the
    text of the data directory, so the check lets it through and the bytes
    of the file are sent instead of a 403. *)
Lemma sibling_of_data_dir_is_served :
  let url_path := lit "/data/../data_private/secret.json" in
  let resolved := [lit "srv"; lit "wachesaw"; lit "data_private";
                   lit "secret.json"] in
  startswith url_path (lit "/data/") = true
  /\ DevHandler.resolve example_tree
       (example_project_root ++ split 47 (lstrip_char 47 url_path))
     = Ok resolved
  /\ DevHandler.resolve example_tree
       (DevHandler.DATA_DIR example_project_root)
     = Ok [lit "srv"; lit "wachesaw"; lit "data"]
  /\ DevHandler.is_under [lit "srv"; lit "wachesaw"; lit "data"] resolved
     = false
  /\ DevHandler.do_GET example_tree example_project_root url_path
     = DevHandler.SendFile [Byte.x53; Byte.x33]
  /\ DevHandler.do_GET example_tree example_project_root url_path
     <> DevHandler.SendError 403.
Proof.
  cbv zeta. repeat apply conj; try (vm_compute; reflexivity).
  intros H. vm_compute in H. discriminate H.
Qed.



Import Facts.

(** ** The handlers keep the window well formed *)

Section KeepsEvents.

Local Open Scope monad_scope.

Variable p : option str.

Ltac bind_any :=
  eapply (keeps_bind _ (fun _ => True)); [ | intros ? _ ].

Tactic Notation "bind_wf" "as" ident(v) ident(H) :=
  eapply (keeps_bind _ (fun v : json => wf v = true));
  [ apply keeps_lift; cbv beta; eauto using wf_get, wf_getitem
  | cbv beta; intros v H ].

Lemma valid_text_wf_str s : valid_text s = true -> wf_str s = true.
Proof.
  unfold valid_text, wf_str. intros H. apply andb_true_intro. split.
  - apply forallb_forall. intros c Hc. rewrite forallb_forall in H.
    specialize (H c Hc). unfold scalar in H. now apply andb_prop in H.
  - induction s as [|a s IH]; [reflexivity|]. cbn [forallb] in H.
    apply andb_prop in H as [Ha Hs]. rewrite no_pair_cons, (IH Hs).
    unfold scalar in Ha. apply andb_prop in Ha as [_ Ha].
    unfold Json.is_high. destruct (55296 <=? a)%N eqn:E1; [|reflexivity].
    destruct (a <=? 56319)%N eqn:E2; [|reflexivity].
    apply N.leb_le in E2. destruct (N.leb_spec a 57343); [|lia].
    cbn in Ha. discriminate.
Qed.

Lemma keeps_on_row_selected row :
  keeps (good p) (fun _ : unit => True) (Events._on_row_selected row).
Proof.
  unfold Events._on_row_selected. destruct row as [i|]; [|now apply keeps_ret].
  bind_any; [apply keeps_flush|].
  bind_any; [apply keeps_set_current_idx|].
  eapply keeps_bind; [apply keeps_read|]. intros w Hw.
  pose proof (proj1 (good_iff p w) Hw) as (Hc & _).
  bind_wf as steps Hsteps. bind_any.
  { destruct (_ <=? _)%Z; [|now apply keeps_ret].
    bind_any; [now apply keeps_lift|]. now apply keeps_ret. }
  destruct a1; [|now apply keeps_ret].
  bind_wf as step Hstep. now apply keeps_show_step.
Qed.

Lemma keeps_notify : keeps (good p) (fun _ : unit => True) Events._notify.
Proof.
  unfold Events._notify. eapply keeps_bind; [apply keeps_read|].
  intros w Hw. destruct (PuzzleEditor._loading _); [now apply keeps_ret|].
  apply keeps_mark_dirty.
Qed.

Lemma keeps_edit_puzzle (f : PuzzleEditor.t -> PuzzleEditor.t) :
  (forall e, good_editor e -> good_editor (f e)) ->
  keeps (good p) (fun _ : unit => True)
        (modify (fun w => set_puzzle_editor (f (_puzzle_editor w)) w)).
Proof.
  intros Hf. apply keeps_modify; [|exact I]. intros w Hw.
  apply good_set_puzzle_editor; [exact Hw|]. apply Hf.
  now apply good_iff in Hw.
Qed.

Lemma good_editor_set_entry f text e :
  wf_str text = true -> good_editor e ->
  good_editor (Events.set_entry f text e).
Proof.
  intros Ht. rewrite !good_editor_iff. destruct f; cbn; tauto.
Qed.

Lemma keeps_entry_changed f text :
  wf_str text = true ->
  keeps (good p) (fun _ : unit => True) (Events.entry_changed f text).
Proof.
  intros Ht. unfold Events.entry_changed.
  bind_any; [|apply keeps_notify].
  apply keeps_edit_puzzle. intros e. now apply good_editor_set_entry.
Qed.

Lemma keeps_player_selected i :
  keeps (good p) (fun _ : unit => True) (Events.player_selected i).
Proof.
  unfold Events.player_selected. bind_any; [|apply keeps_notify].
  apply keeps_edit_puzzle. intros e. rewrite !good_editor_iff. cbn. tauto.
Qed.

Lemma keeps_win_selected i :
  keeps (good p) (fun _ : unit => True) (Events.win_selected i).
Proof.
  unfold Events.win_selected. bind_any; [|apply keeps_notify].
  apply keeps_edit_puzzle. intros e. rewrite !good_editor_iff. cbn. tauto.
Qed.

Lemma keeps_max_moves_changed z :
  keeps (good p) (fun _ : unit => True) (Events.max_moves_changed z).
Proof.
  unfold Events.max_moves_changed. bind_any; [|apply keeps_notify].
  apply keeps_edit_puzzle. intros e. rewrite !good_editor_iff. cbn. tauto.
Qed.

Lemma wf_update l n x :
  forallb wf l = true -> wf x = true -> forallb wf (update l n x) = true.
Proof. apply forallb_update. Qed.

Lemma wf_board_setitem board row col piece board' :
  Events.board_setitem board row col piece = Some (Ok board') ->
  wf board = true -> wf piece = true -> wf board' = true.
Proof.
  unfold Events.board_setitem. intros H Hb Hp.
  destruct board as [| | |s|rows|d]; try discriminate.
  - destruct (index _ row); discriminate.
  - destruct (index _ row) as [r|]; [|discriminate].
    destruct (nth_error rows r) as [x|] eqn:En; [|discriminate].
    pose proof (wf_nth_error _ _ _ Hb En) as Hx.
    unfold Events.row_setitem in H.
    destruct x as [| | | |cells|]; try discriminate.
    destruct (index _ col) as [c|]; [|discriminate]. cbn [rbind] in H.
    injection H as <-. rewrite wf_list. apply wf_update; [exact Hb|].
    rewrite wf_list. now apply wf_update.
Qed.

Lemma good_cell_picked row col piece w w' r :
  Events.cell_picked row col piece w = Some (w', r) ->
  wf piece = true -> good p w -> good p w'.
Proof.
  unfold Events.cell_picked. intros H Hp Hw.
  destruct (Events.board_setitem _ row col piece) as [[board|e]|] eqn:E;
    [| |discriminate].
  - injection H as H. pose proof (proj1 (good_iff p w) Hw) as (_ & He & _).
    apply good_editor_iff in He. assert (Hb : wf board = true).
    { apply (wf_board_setitem _ _ _ _ _ E); [apply He|exact Hp]. }
    assert (Hg : good p (set_puzzle_editor
                           (PuzzleEditor.set_grid board (_puzzle_editor w))
                           w)).
    { apply good_set_puzzle_editor; [exact Hw|].
      apply good_editor_iff. cbn. tauto. }
    destruct (keeps_notify _ Hg) as [Hk _]. rewrite H in Hk. exact Hk.
  - now injection H as <- _.
Qed.

Lemma wf_field_value text :
  wf_str text = true -> wf (DialogEditor.field_value text) = true.
Proof.
  intros H. unfold DialogEditor.field_value.
  pose proof (wf_str_strip _ H) as Hs. now destruct (strip text).
Qed.

Lemma keeps_dialog_on_field_changed text idx key :
  wf_str text = true -> wf_str key = true ->
  keeps (fun lines => wf lines = true) (fun _ : unit => True)
        (DialogEditor._on_field_changed text idx key).
Proof.
  intros Ht Hk. unfold DialogEditor._on_field_changed.
  eapply keeps_bind; [apply keeps_read|]. cbv beta. intros lines Hl.
  bind_any; [now apply keeps_lift|].
  destruct (_ <? _)%Z; [|now apply keeps_ret].
  bind_wf as line Hline.
  eapply (keeps_bind _ (fun v : json => wf v = true)).
  { apply keeps_lift. intros v Hv. destruct line; try discriminate.
    injection Hv as <-. apply wf_dict_set; [exact Hline|exact Hk|].
    now apply wf_field_value. }
  cbv beta. intros line' Hline'.
  destruct lines; try now apply keeps_ret.
  eapply (keeps_bind _ (fun l' => forallb wf l' = true)).
  { apply keeps_lift. intros l' Hl'.
    exact (wf_list_setitem _ _ _ _ Hl' Hl Hline'). }
  intros l' Hl'. apply keeps_modify; [now intros|exact I].
Qed.

Lemma keeps_dialog_add_line_lines :
  keeps (fun lines => wf lines = true) (fun _ : unit => True)
        DialogEditor._add_line.
Proof.
  unfold DialogEditor._add_line.
  eapply keeps_bind; [apply keeps_read|]. cbv beta. intros lines Hl.
  destruct lines; try now apply keeps_lift.
  apply keeps_modify; [|exact I]. intros _ _. rewrite wf_list, forallb_app.
  rewrite wf_list in Hl. now rewrite Hl.
Qed.

Lemma keeps_dialog_delete_line_lines sel :
  keeps (fun lines => wf lines = true) (fun _ : unit => True)
        (DialogEditor._delete_line sel).
Proof.
  unfold DialogEditor._delete_line. destruct sel as [idx|];
    [|now apply keeps_ret].
  eapply keeps_bind; [apply keeps_read|]. cbv beta. intros lines Hl.
  destruct (_ <=? _)%Z; [|now apply keeps_ret].
  bind_any; [now apply keeps_lift|].
  destruct (_ <? _)%Z; [|now apply keeps_ret].
  destruct lines; try now apply keeps_lift.
  eapply (keeps_bind _ (fun l' => forallb wf l' = true)).
  { apply keeps_lift. intros l' Hl'. exact (wf_list_delitem _ _ _ Hl' Hl). }
  intros l' Hl'. apply keeps_modify; [now intros|exact I].
Qed.

Lemma keeps_zoom_dialog (c : M json unit) :
  keeps (fun lines => wf lines = true) (fun _ : unit => True) c ->
  keeps (good p) (fun _ : unit => True)
        (zoom _dialog_editor set_dialog_editor c).
Proof.
  intros Hc. eapply keeps_zoom; [exact Hc| |].
  - intros s Hs. now apply good_iff in Hs.
  - intros e s Hs He. now apply good_set_dialog_editor.
Qed.

Lemma keeps_dialog_field_changed text idx key :
  wf_str text = true -> wf_str key = true ->
  keeps (good p) (fun _ : unit => True)
        (Events.dialog_field_changed text idx key).
Proof.
  intros Ht Hk. unfold Events.dialog_field_changed.
  eapply keeps_bind; [apply keeps_read|]. intros w Hw.
  bind_any; [now apply keeps_lift|].
  destruct (_ <? _)%Z; [|now apply keeps_ret].
  bind_any; [|apply keeps_mark_dirty].
  now apply keeps_zoom_dialog, keeps_dialog_on_field_changed.
Qed.

Lemma keeps_dialog_add_line :
  keeps (good p) (fun _ : unit => True) Events.dialog_add_line.
Proof.
  unfold Events.dialog_add_line. bind_any; [|apply keeps_mark_dirty].
  apply keeps_zoom_dialog, keeps_dialog_add_line_lines.
Qed.

Lemma keeps_dialog_delete_line sel :
  keeps (good p) (fun _ : unit => True) (Events.dialog_delete_line sel).
Proof.
  unfold Events.dialog_delete_line. destruct sel as [idx|];
    [|now apply keeps_ret].
  eapply keeps_bind; [apply keeps_read|]. intros w Hw. bind_any.
  { destruct (_ <=? _)%Z; [|now apply keeps_ret].
    bind_any; [now apply keeps_lift|]. now apply keeps_ret. }
  destruct a; [|now apply keeps_ret].
  bind_any; [|apply keeps_mark_dirty].
  apply keeps_zoom_dialog, keeps_dialog_delete_line_lines.
Qed.

Lemma good_handle isprintable ev w w' r :
  Events.handle isprintable ev w = Some (w', r) ->
  event_ok ev = true -> good p w -> good p w'.
Proof.
  intros H Hev Hw. destruct ev; cbn [Events.handle event_ok] in *;
    try (injection H as H;
         match type of H with
         | ?c w = _ =>
             let K := fresh in
             assert (K : keeps (good p) (fun _ : unit => True) c);
             [|destruct (K w Hw) as [K' _]; rewrite H in K'; exact K']
         end).
  - apply keeps_perform.
  - apply keeps_on_row_selected.
  - now apply keeps_entry_changed.
  - apply keeps_player_selected.
  - apply keeps_win_selected.
  - apply keeps_max_moves_changed.
  - exact (good_cell_picked _ _ _ _ _ _ H Hev Hw).
  - apply andb_prop in Hev as [Ht Hk]. now apply keeps_dialog_field_changed.
  - apply keeps_dialog_add_line.
  - apply keeps_dialog_delete_line.
Qed.

Lemma good_session isprintable evs w w' :
  Events.session isprintable evs w = Some w' ->
  forallb event_ok evs = true -> good p w -> good p w'.
Proof.
  revert w. induction evs as [|ev evs IH]; intros w H Hev Hw.
  - now injection H as <-.
  - cbn [Events.session] in H. cbn [forallb] in Hev.
    apply andb_prop in Hev as [H1 H2].
    destruct (Events.handle isprintable ev w) as [[w1 r]|] eqn:E;
      [|discriminate].
    apply (IH w1 H H2). exact (good_handle _ _ _ _ _ E H1 Hw).
Qed.

End KeepsEvents.

(** What a save that returns has written, for a well-formed window. *)
Lemma good_save_decodes path w disk :
  good (Some path) w -> path <> [] -> Disk.writable disk path = true ->
  snd (_save_file (w, disk)) = Ok tt ->
  exists text',
    Disk.content (snd (fst (_save_file (w, disk)))) path = Some text'
    /\ Json.load text' = Some (_chapter (fst (fst (_save_file (w, disk)))))
    /\ _chapter (fst (fst (_save_file (w, disk))))
       = _chapter (fst (_flush w)).
Proof.
  intros Hg Hne Hw Hr.
  pose proof (proj1 (good_iff _ _) Hg) as (_ & _ & _ & Hp & Htw).
  pose proof (keeps_flush (Some path) w Hg) as [Hg1 _].
  pose proof (proj1 (good_iff _ _) Hg1) as (Hwf1 & _ & _ & Hp1 & _).
  rewrite (save_file_unfold w disk path Htw Hp Hne Hw) in *.
  destruct (_flush w) as [w1 [[]|e]]; cbn [fst snd] in *; [|discriminate].
  rewrite Hp1, Hw in *. cbn [fst snd].
  exists (Json.dump (_chapter w1) ++ [10%N]).
  split; [apply content_write|]. split; [|reflexivity].
  now apply load_dump.
Qed.

Lemma good_loaded disk path text d0 :
  Disk.content disk path = Some text -> valid_text text = true ->
  Json.load text = Some d0 -> truthy d0 = true ->
  good (Some path) (fst (_load_file disk path init)).
Proof.
  intros Hc Hv Hl Ht. rewrite (load_file_ok disk path text d0 init Hc Hl).
  apply good_iff. cbn. repeat split; try reflexivity; try exact Ht.
  exact (load_wf text d0 Hl Hv).
Qed.

(** ** Saving after any session *)

(** X1: whatever the user does between loading a non-empty document and
    saving it (step buttons, row selections, edits of the puzzle fields
    and of the board, edits of the dialog lines, with well-formed texts),
    a save that returns has written a text that decodes to the document
    the window holds. *)
Theorem session_save_load isprintable disk path text d0 evs w :
  Disk.content disk path = Some text ->
  valid_text text = true ->
  Json.load text = Some d0 ->
  truthy d0 = true ->
  path <> [] ->
  Disk.writable disk path = true ->
  forallb event_ok evs = true ->
  Events.session isprintable evs (fst (_load_file disk path init)) = Some w ->
  snd (_save_file (w, disk)) = Ok tt ->
  exists text',
    Disk.content (snd (fst (_save_file (w, disk)))) path = Some text'
    /\ Json.load text' = Some (_chapter (fst (fst (_save_file (w, disk)))))
    /\ _chapter (fst (fst (_save_file (w, disk))))
       = _chapter (fst (_flush w)).
Proof.
  intros Hc Hv Hl Ht Hne Hw Hev Hs Hr.
  apply good_save_decodes; try assumption.
  apply (good_session (Some path) isprintable evs _ w Hs Hev).
  exact (good_loaded disk path text d0 Hc Hv Hl Ht).
Qed.

Lemma session_save_load_witness :
  exists text',
    Disk.content
      (snd (fst (_save_file (example_events_window, example_disk))))
      example_path = Some text'
    /\ Json.load text'
       = Some (_chapter
                 (fst (fst (_save_file
                              (example_events_window, example_disk)))))
    /\ _chapter (fst (fst (_save_file
                             (example_events_window, example_disk))))
       = _chapter (fst (_flush example_events_window)).
Proof.
  apply (session_save_load (fun _ => true) example_disk example_path
           (Json.dump example_doc ++ [10%N]) example_doc example_events).
  - reflexivity.
  - vm_compute. reflexivity.
  - vm_compute. reflexivity.
  - reflexivity.
  - discriminate.
  - reflexivity.
  - vm_compute. reflexivity.
  - vm_compute. reflexivity.
  - vm_compute. reflexivity.
Defined.

(** ** Flushing twice, selecting a row *)

Lemma flush_data_cases w step data :
  flush_data w step = Some data ->
  (data = PuzzleEditor.get_step_data (_puzzle_editor w)
   \/ data = DialogEditor.get_step_data (_dialog_editor w))
  /\ exists ty, get step (lit "type") JNull = Ok ty.
Proof.
  unfold flush_data. destruct (get step (lit "type") JNull) as [ty|];
    [|discriminate].
  destruct (eq_str ty (lit "puzzle")).
  { intros [= <-]. split; [now left|now exists ty]. }
  destruct (eq_str ty (lit "dialog")); [|discriminate].
  intros [= <-]. split; [now right|now exists ty].
Qed.

Lemma flush_data_own w w' step data :
  _puzzle_editor w' = _puzzle_editor w ->
  _dialog_editor w' = _dialog_editor w ->
  flush_data w step = Some data -> flush_data w' data = Some data.
Proof.
  intros Hp Hd H. destruct (flush_data_cases w step data H) as [[->| ->] _];
    unfold flush_data; rewrite ?get_type_puzzle_data, ?get_type_dialog_data;
    cbn [eq_str]; rewrite ?Hp, ?Hd; reflexivity.
Qed.

(** X2: a second flush changes nothing: it leaves the window the first
    one left and returns what the first one returned. *)
Theorem flush_twice w : _flush (fst (_flush w)) = _flush w.
Proof.
  destruct (flush_cases w) as [->|(d & l & step & data & Hc & Hs & Hi & Hn
                                   & Hd & E)]; [reflexivity|].
  rewrite E. cbn [fst].
  set (i := Z.to_nat (_current_idx w)) in *.
  set (l1 := update l i data).
  set (d1 := dict_set d (lit "steps") (JList l1)).
  set (w1 := set_chapter (JDict d1) w).
  assert (Hn1 : nth_error l1 (Z.to_nat (_current_idx w1)) = Some data).
  { change (_current_idx w1) with (_current_idx w).
    apply nth_error_update_same. lia. }
  assert (Hi1 : 0 <= _current_idx w1 < Z.of_nat (List.length l1)).
  { change (_current_idx w1) with (_current_idx w).
    unfold l1. rewrite length_update. exact Hi. }
  assert (Hs1 : dict_get d1 (lit "steps") = Some (JList l1))
    by apply dict_get_set_same.
  rewrite (flush_at w1 d1 l1 data eq_refl Hs1 Hi1 Hn1).
  rewrite (flush_data_own w w1 step data eq_refl eq_refl Hd).
  destruct (flush_data_cases w step data Hd) as [[->| ->] _];
    rewrite ?get_type_puzzle_data, ?get_type_dialog_data;
    (f_equal; change (_current_idx w1) with (_current_idx w);
     fold i; unfold l1 at 1; rewrite update_update_same; fold l1;
     rewrite (dict_set_same_value d1 _ _ Hs1); reflexivity).
Qed.

Lemma steps_of_set_chapter_steps w d l' :
  steps_of (set_chapter (JDict (dict_set d (lit "steps") (JList l'))) w) = l'.
Proof.
  unfold steps_of. cbn [_chapter set_chapter get].
  now rewrite dict_get_set_same.
Qed.

Lemma steps_of_same_document w w' :
  same_document w w' -> steps_of w' = steps_of w.
Proof. intros (Hc & _). unfold steps_of. now rewrite Hc. Qed.

(** The window a row selection leaves, the flush having returned. *)
Lemma on_row_selected_unfold i w w1 :
  _flush w = (w1, Ok tt) ->
  same_document (set_current_idx i w1)
                (fst (Events._on_row_selected (Some i) w)).
Proof.
  intros Hf. unfold Events._on_row_selected, bind at 1. rewrite Hf.
  unfold bind at 1. unfold modify at 1. unfold bind at 1, read at 1.
  set (w2 := set_current_idx i w1).
  unfold bind at 1, lift at 1.
  destruct (get (_chapter w2) (lit "steps") (JList [])) as [steps|e];
    [|now repeat split].
  unfold bind at 1.
  destruct ((if 0 <=? i then n <- lift (len steps) ;; ret (i <? n)
             else ret false)%monad w2) as [w3 [b|e]] eqn:E.
  - assert (w3 = w2) as ->.
    { destruct (0 <=? i); unfold_monad; [|now injection E].
      destruct (len steps); now injection E. }
    destruct b; [|now repeat split].
    unfold bind, lift. destruct (getitem steps i) as [step|e];
      [|now repeat split].
    apply show_step_document.
  - assert (w3 = w2) as ->.
    { destruct (0 <=? i); unfold_monad; [|discriminate].
      destruct (len steps); now injection E. }
    now repeat split.
Qed.

(** X3: selecting a row stores the editing buffer into the step being
    left, changes no other step, and moves the pointer to the row. *)
Theorem row_selected_stores_buffer w d l step ty j :
  _chapter w = JDict d -> dict_get d (lit "steps") = Some (JList l) ->
  0 <= _current_idx w < Z.of_nat (List.length l) ->
  nth_error l (Z.to_nat (_current_idx w)) = Some step ->
  get step (lit "type") JNull = Ok ty ->
  let w' := fst (Events._on_row_selected (Some j) w) in
  steps_of w' = update l (Z.to_nat (_current_idx w)) (flush_step w step)
  /\ _current_idx w' = j.
Proof.
  intros Hc Hs Hi Hn Hty w'.
  pose proof (flush_at_step w d l step ty Hc Hs Hi Hn Hty) as Hf.
  pose proof (on_row_selected_unfold j w _ Hf) as Hd. fold w' in Hd.
  split.
  - rewrite (steps_of_same_document _ _ Hd).
    apply (steps_of_set_chapter_steps (set_current_idx j w)).
  - now destruct Hd as (_ & -> & _).
Qed.

Lemma row_selected_stores_buffer_witness :
  steps_of (fst (Events._on_row_selected (Some 0) (example_window 0)))
  = [flush_step (example_window 0) example_puzzle]
  /\ _current_idx (fst (Events._on_row_selected (Some 0) (example_window 0)))
     = 0.
Proof.
  assert (Hi : 0 <= 0 < Z.of_nat 1)
    by (split; [intros H; discriminate H|reflexivity]).
  exact (row_selected_stores_buffer (example_window 0) _ [example_puzzle]
           example_puzzle _ 0 eq_refl eq_refl Hi eq_refl eq_refl).
Defined.

(** ** Showing and extracting a puzzle step *)

Section PuzzleRoundTrip.

Import PuzzleEditor.











End PuzzleRoundTrip.

Section PuzzleShown.

Import PuzzleEditor.

(** The editor [set_step] leaves when every field of the step is of the
    expected type. *)
Lemma set_step_ok step e id title desc hint player wc wc_type mm z opp s
      board :
  get step (lit "id") (JStr []) = Ok (JStr id) ->
  get step (lit "title") (JStr []) = Ok (JStr title) ->
  get step (lit "description") (JStr []) = Ok (JStr desc) ->
  get step (lit "hint") (JStr []) = Ok (JStr hint) ->
  get step (lit "player") (JStr (lit "white")) = Ok player ->
  get step (lit "win_condition") (JDict []) = Ok wc ->
  get wc (lit "type") (JStr (lit "capture_chief")) = Ok wc_type ->
  get wc (lit "max_moves") (JInt 1) = Ok mm ->
  spin_value mm = Ok z ->
  get step (lit "opponent_moves") (JList []) = Ok opp ->
  join_moves opp = Ok s ->
  get step (lit "board") BoardGrid.empty_board = Ok board ->
  set_step step e
  = (mk false id title desc hint (index_or_0 PLAYERS player)
        (index_or_0 WIN_CONDITIONS wc_type) z s (BoardGrid.set_board board),
     Ok tt).
Proof.
  intros H1 H2 H3 H4 H5 H6 H7 H8 H9 H10 H11 H12.
  unfold set_step. unfold_monad.
  rewrite H1, H2, H3, H4, H5, H6. cbn [as_text].
  rewrite H7, H8, H9, H10, H11, H12. reflexivity.
Qed.







Lemma spin_value_range v z : spin_value v = Ok z -> 1 <= z <= 20.
Proof.
  unfold spin_value. destruct v; try discriminate.
  - intros [= <-]. lia.
  - destruct (_ <? _); [|discriminate]. intros [= <-]. lia.
Qed.

(** What [set_step] makes true of the widgets, also when it raises. *)
Lemma keeps_editor_ok step :
  keeps editor_ok (fun _ : unit => True) (set_step step).
Proof.
  assert (Hset : forall f : t -> t,
             (forall e, _max_moves_spin (f e) = _max_moves_spin e) ->
             (forall e, _board_grid (f e) = _board_grid e) ->
             keeps editor_ok (fun _ : unit => True) (modify f)).
  { intros f H1 H2. apply keeps_modify; [|exact I].
    intros e [Hz Hb]. split; [now rewrite H1|now rewrite H2]. }
  unfold set_step.
  repeat first
    [ apply Hset; [now intros|now intros]
    | eapply (keeps_bind _ (fun _ => True));
      [apply Hset; [now intros|now intros]|intros _ _]
    | eapply (keeps_bind _ (fun z => 1 <= z <= 20));
      [apply keeps_lift; intros z Hz; exact (spin_value_range _ _ Hz)
      |intros ? ?;
       eapply (keeps_bind _ (fun _ => True));
       [apply keeps_modify; [|exact I]; intros e [_ Hb]; now split
       |intros _ _] ]
    | eapply (keeps_bind _ (fun _ => True));
      [now apply keeps_lift|intros ? _] ].
  eapply (keeps_bind _ (fun _ => True)).
  { apply keeps_modify; [|exact I]. intros e [Hz' _]. split; [exact Hz'|].
    cbn. unfold BoardGrid.set_board.
    match goal with
    | |- context [if truthy ?b then _ else _] => destruct (truthy b) eqn:E
    end; [exact E|reflexivity]. }
  intros _ _. apply Hset; now intros.
Qed.

End PuzzleShown.

Section PuzzleNormalised.

Import PuzzleEditor.

(** What a [set_step] that returns has read. *)
Lemma set_step_inv step e :
  snd (set_step step e) = Ok tt ->
  exists id title desc hint player wc wc_type mm z opp s board,
    get step (lit "id") (JStr []) = Ok (JStr id)
    /\ get step (lit "title") (JStr []) = Ok (JStr title)
    /\ get step (lit "description") (JStr []) = Ok (JStr desc)
    /\ get step (lit "hint") (JStr []) = Ok (JStr hint)
    /\ get step (lit "player") (JStr (lit "white")) = Ok player
    /\ get step (lit "win_condition") (JDict []) = Ok wc
    /\ get wc (lit "type") (JStr (lit "capture_chief")) = Ok wc_type
    /\ get wc (lit "max_moves") (JInt 1) = Ok mm
    /\ spin_value mm = Ok z
    /\ get step (lit "opponent_moves") (JList []) = Ok opp
    /\ join_moves opp = Ok s
    /\ get step (lit "board") BoardGrid.empty_board = Ok board.
Proof.
  unfold set_step. unfold_monad.
  destruct (get step (lit "id") (JStr [])) as [[| | |id| |]|] eqn:H1;
    try discriminate. cbn [as_text].
  destruct (get step (lit "title") (JStr [])) as [[| | |title| |]|] eqn:H2;
    try discriminate. cbn [as_text].
  destruct (get step (lit "description") (JStr []))
    as [[| | |desc| |]|] eqn:H3; try discriminate. cbn [as_text].
  destruct (get step (lit "hint") (JStr [])) as [[| | |hint| |]|] eqn:H4;
    try discriminate. cbn [as_text].
  destruct (get step (lit "player") (JStr (lit "white"))) as [player|]
    eqn:H5; try discriminate.
  destruct (get step (lit "win_condition") (JDict [])) as [wc|] eqn:H6;
    try discriminate.
  destruct (get wc (lit "type") (JStr (lit "capture_chief"))) as [wc_type|]
    eqn:H7; try discriminate.
  destruct (get wc (lit "max_moves") (JInt 1)) as [mm|] eqn:H8;
    try discriminate.
  destruct (spin_value mm) as [z|] eqn:H9; try discriminate.
  destruct (get step (lit "opponent_moves") (JList [])) as [opp|] eqn:H10;
    try discriminate.
  destruct (join_moves opp) as [s|] eqn:H11; try discriminate.
  destruct (get step (lit "board") BoardGrid.empty_board) as [board|]
    eqn:H12; try discriminate.
  intros _. exists id, title, desc, hint, player, wc, wc_type, mm, z, opp, s,
    board. repeat split; assumption || reflexivity.
Qed.

(** X5: showing a puzzle step normalises it.  In the step extracted
    afterwards the number of moves is the one of the step brought into
    1..20, and the player is white unless the step says black. *)
Theorem shown_puzzle_is_normalised step e wc n player :
  snd (set_step step e) = Ok tt ->
  get step (lit "win_condition") (JDict []) = Ok wc ->
  get wc (lit "max_moves") (JInt 1) = Ok (JInt n) ->
  get step (lit "player") (JStr (lit "white")) = Ok player ->
  let step' := get_step_data (fst (set_step step e)) in
  get step' (lit "win_condition") JNull
  = Ok (JDict [(lit "type",
                JStr (WIN_CONDITIONS
                        (_win_combo (fst (set_step step e)))));
               (lit "max_moves", JInt (Z.max 1 (Z.min 20 n)))])
  /\ get step' (lit "player") JNull
     = Ok (JStr (if eq_str player (lit "black") then lit "black"
                 else lit "white")).
Proof.
  intros Hr Hwc Hmm Hp step'.
  destruct (set_step_inv step e Hr)
    as (id & title & desc & hint & player' & wc' & wc_type & mm & z & opp
        & s & board & H1 & H2 & H3 & H4 & H5 & H6 & H7 & H8 & H9 & H10
        & H11 & H12).
  rewrite Hwc in H6. injection H6 as <-. rewrite Hmm in H8.
  injection H8 as <-. rewrite Hp in H5. injection H5 as <-.
  subst step'.
  rewrite (set_step_ok step e _ _ _ _ _ _ _ _ _ _ _ _ H1 H2 H3 H4 Hp Hwc H7
             Hmm H9 H10 H11 H12).
  cbn [fst]. unfold spin_value in H9.
  destruct (Z.abs n <? double_limit); [|discriminate]. injection H9 as <-.
  split; [reflexivity|].
  change (get (get_step_data ?x) (lit "player") JNull)
    with (Ok (JStr (PLAYERS (_player_combo x)))).
  cbn [_player_combo]. unfold index_or_0.
  destruct (eq_str player (PLAYERS Item0)) eqn:E0.
  - destruct player; try discriminate. cbn [eq_str] in *.
    apply str_eqb_eq in E0. subst s0. reflexivity.
  - destruct (eq_str player (PLAYERS Item1)) eqn:E1; cbn [PLAYERS] in *;
      now rewrite E1.
Qed.

Lemma shown_puzzle_is_normalised_witness :
  let step := JDict [(lit "player", JStr (lit "red"));
                     (lit "win_condition",
                      JDict [(lit "max_moves", JInt 50)])] in
  get (get_step_data (fst (set_step step init))) (lit "win_condition") JNull
  = Ok (JDict [(lit "type", JStr (lit "capture_chief"));
               (lit "max_moves", JInt 20)])
  /\ get (get_step_data (fst (set_step step init))) (lit "player") JNull
     = Ok (JStr (lit "white")).
Proof.
  exact (shown_puzzle_is_normalised
           (JDict [(lit "player", JStr (lit "red"));
                   (lit "win_condition",
                    JDict [(lit "max_moves", JInt 50)])])
           init (JDict [(lit "max_moves", JInt 50)]) 50
           (JStr (lit "red")) eq_refl eq_refl eq_refl eq_refl).
Defined.

End PuzzleNormalised.

(** ** The dialog editor *)

Section DialogLines.

Import DialogEditor.

Lemma keys_dict_set_present d k v :
  dict_get d k <> None -> map fst (dict_set d k v) = map fst d.
Proof.
  induction d as [|[k' v'] d IH]; cbn [dict_get dict_set map fst];
    [congruence|].
  destruct (str_eqb k' k); [reflexivity|]. intros H. cbn [map fst].
  now rewrite IH.
Qed.

(** X6: a change of a field of the dialog line at [idx] stores the
    trimmed text under that key and leaves the other fields of the line,
    and the other lines, as they were; a change for a row past the end
    does nothing. *)
Theorem dialog_field_change_stores_text l idx key text :
  (Z.of_nat (List.length l) <= idx ->
   _on_field_changed text idx key (JList l) = (JList l, Ok tt))
  /\ (forall d,
        0 <= idx < Z.of_nat (List.length l) ->
        nth_error l (Z.to_nat idx) = Some (JDict d) ->
        strip text <> [] ->
        exists d',
          _on_field_changed text idx key (JList l)
          = (JList (update l (Z.to_nat idx) (JDict d')), Ok tt)
          /\ dict_get d' key = Some (JStr (strip text))
          /\ (forall k, str_eqb key k = false ->
                        dict_get d' k = dict_get d k)
          /\ (dict_get d key <> None -> map fst d' = map fst d)).
Proof.
  split.
  - intros H. unfold _on_field_changed. unfold_monad. cbn [len].
    destruct (Z.ltb_spec idx (Z.of_nat (List.length l))); [lia|reflexivity].
  - intros d Hi Hn Ht. exists (dict_set d key (JStr (strip text))).
    repeat apply conj.
    + unfold _on_field_changed. unfold_monad. cbn [len].
      destruct (Z.ltb_spec idx (Z.of_nat (List.length l))); [|lia].
      cbn [getitem]. rewrite index_in_range by lia. cbn [rbind].
      rewrite Hn. cbn [line_setitem]. unfold list_setitem.
      rewrite index_in_range by lia. cbn [rbind fst snd].
      unfold field_value. now destruct (strip text).
    + apply dict_get_set_same.
    + intros k Hk. now apply dict_get_set_other.
    + apply keys_dict_set_present.
Qed.

Lemma dialog_field_change_stores_text_witness :
  exists d',
    _on_field_changed (lit " Ann ") 0 (lit "speaker") (JList [blank_line])
    = (JList [JDict d'], Ok tt)
    /\ dict_get d' (lit "speaker") = Some (JStr (lit "Ann")).
Proof.
  assert (Hi : 0 <= 0 < Z.of_nat 1)
    by (split; [intros H; discriminate H|reflexivity]).
  destruct (dialog_field_change_stores_text [blank_line] 0 (lit "speaker")
              (lit " Ann ")) as [_ H].
  destruct (H _ Hi eq_refl) as (d' & H1 & H2 & _); [discriminate|].
  exists d'. split; [exact H1|exact H2].
Defined.



End DialogLines.

(** ** A dialog step that was selected *)




(** ** Where a new step goes *)

(** The document a flush leaves still has its steps in a list of the same
    length, and its other keys as they were. *)
Lemma flush_steps_list w d l :
  _chapter w = JDict d -> dict_get d (lit "steps") = Some (JList l) ->
  exists d1 l1,
    _chapter (fst (_flush w)) = JDict d1
    /\ dict_get d1 (lit "steps") = Some (JList l1)
    /\ List.length l1 = List.length l
    /\ (forall k, str_eqb (lit "steps") k = false ->
                  dict_get d1 k = dict_get d k).
Proof.
  intros Hc Hs.
  destruct (flush_cases w) as [->|(d' & l' & step & data & Hc' & Hs' & Hi
                                   & Hn & Hd & ->)].
  - exists d, l. auto.
  - rewrite Hc in Hc'. injection Hc' as <-. rewrite Hs in Hs'.
    injection Hs' as <-. cbn [fst set_chapter _chapter].
    eexists; eexists. repeat apply conj; [reflexivity| | |].
    + apply dict_get_set_same.
    + apply length_update.
    + intros k Hk. now apply dict_get_set_other.
Qed.


Lemma show_step_new_dialog w : snd (_show_step new_dialog_step w) = Ok tt.
Proof. reflexivity. Qed.

(** What [_add_step] does on a document whose steps are objects. *)
Lemma add_step_document isprintable step_type w d l :
  _chapter w = JDict d -> dict_get d (lit "steps") = Some (JList l) ->
  forallb is_dict l = true -> idx_ok w ->
  let k := if 0 <=? _current_idx w then _current_idx w + 1
           else Z.of_nat (List.length l) in
  exists d1 l1 new_step,
    _chapter (fst (_flush w)) = JDict d1
    /\ dict_get d1 (lit "steps") = Some (JList l1)
    /\ List.length l1 = List.length l
    /\ 0 <= k <= Z.of_nat (List.length l1)
    /\ snd (_add_step isprintable step_type w) = Ok tt
    /\ _chapter (fst (_add_step isprintable step_type w))
       = JDict (dict_set d1 (lit "steps")
                  (JList (list_insert l1 k new_step)))
    /\ _current_idx (fst (_add_step isprintable step_type w)) = k
    /\ get new_step (lit "type") JNull
       = Ok (JStr (if str_eqb step_type (lit "dialog") then lit "dialog"
                   else lit "puzzle")).
Proof.
  intros Hc Hs Hdicts Hok k.
  assert (Hsh : shaped w)
    by (unfold shaped; now rewrite (steps_of_dict w d l)).
  pose proof (flush_returns w Hok Hsh) as Hfr.
  destruct (keeps_shaped_flush w Hsh) as [Hsh1 _].
  destruct (flush_steps_list w d l Hc Hs) as (d1 & l1 & Hc1 & Hs1 & Hlen & _).
  destruct (flush_frame w) as (Hi1 & _).
  set (w1 := fst (_flush w)) in *.
  unfold shaped in Hsh1. rewrite (steps_of_dict w1 d1 l1 Hc1 Hs1) in Hsh1.
  assert (Ht : truthy (_chapter w) = true)
    by (rewrite Hc; apply (truthy_dict_with_steps d _ Hs)).
  assert (Hsd : setdefault_steps w1 = (w1, Ok (JList l1))).
  { unfold setdefault_steps. unfold_monad. rewrite Hc1. now rewrite Hs1. }
  assert (Hnew : exists new_step,
             new_step_for isprintable step_type (JList l1) w1
             = (w1, Ok new_step)
             /\ snd (_show_step new_step
                       (inserted w1 l1 (insert_position w1 l1) new_step))
                = Ok tt
             /\ get new_step (lit "type") JNull
                = Ok (JStr (if str_eqb step_type (lit "dialog")
                            then lit "dialog" else lit "puzzle"))).
  { unfold new_step_for. destruct (str_eqb step_type (lit "dialog")).
    - exists new_dialog_step. repeat split.
    - unfold_monad. cbn [iter].
      rewrite (count_puzzles_dicts l1 Hsh1). rewrite Hc1. cbn [get].
      eexists. repeat apply conj; [reflexivity| |reflexivity].
      apply show_step_new_puzzle. }
  destruct Hnew as (new_step & Hnew & Hshow & Hty).
  destruct (add_step_after_setdefault isprintable step_type w l1 Ht Hfr)
    with (new_step := new_step) as [Hdoc Hres].
  { fold w1. now rewrite Hsd. }
  { fold w1. rewrite Hsd. cbn [fst]. now rewrite Hnew. }
  fold w1 in Hdoc, Hres. rewrite Hsd in Hdoc, Hres. cbn [fst] in Hdoc, Hres.
  assert (Hk : insert_position w1 l1 = k).
  { unfold insert_position. subst k. rewrite Hi1, Hlen. reflexivity. }
  assert (Hkr : 0 <= k <= Z.of_nat (List.length l1)).
  { subst k. rewrite Hlen. destruct (Z.leb_spec 0 (_current_idx w)); [|lia].
    destruct Hok as [Hm|Hr]; [lia|].
    rewrite (steps_of_dict w d l Hc Hs) in Hr. lia. }
  exists d1, l1, new_step.
  split; [exact Hc1|]. split; [exact Hs1|]. split; [exact Hlen|].
  split; [exact Hkr|]. split; [now apply Hres|].
  split; [|split; [|exact Hty]].
  - destruct Hdoc as (-> & _). unfold inserted.
    cbn [set_current_idx set_chapter _chapter]. unfold put_steps.
    rewrite Hc1, Hs1, Hk. reflexivity.
  - destruct Hdoc as (_ & -> & _). unfold inserted.
    cbn [set_current_idx _current_idx]. exact Hk.
Qed.






(** ** Moving a step *)



(** ** The puzzle the Play button opens *)

Lemma next_puzzle_id_find l :
  forallb is_dict l = true ->
  Play.next_puzzle_id l = Ok (first_puzzle_id l).
Proof.
  unfold first_puzzle_id. induction l as [|s l IH]; [reflexivity|].
  cbn [forallb]. intros H. apply andb_prop in H as [Hs Hl].
  destruct s as [| | | | |ds]; try discriminate.
  cbn [Play.next_puzzle_id get rbind find is_puzzle].
  destruct (dict_get ds (lit "type")) as [ty|] eqn:E.
  - destruct (eq_str ty (lit "puzzle")); [|now apply IH].
    unfold step_id. reflexivity.
  - change (eq_str JNull (lit "puzzle")) with false. cbv iota.
    now apply IH.
Qed.

Lemma skipn_nth_error {A} (l : list A) n x :
  nth_error l n = Some x -> skipn n l = x :: skipn (S n) l.
Proof.
  revert n. induction l as [|h l IH]; intros [|n] H; try discriminate.
  - now injection H as <-.
  - cbn [skipn]. now apply IH.
Qed.

(** X13: the puzzle the Play button asks for is the first puzzle step at
    or after the active step: the active step itself when it is a puzzle,
    else the next puzzle step; without such a step, or without an active
    step, it is the empty string. *)
Theorem puzzle_arg_first_puzzle w d l :
  _chapter w = JDict d -> dict_get d (lit "steps") = Some (JList l) ->
  forallb is_dict l = true ->
  (0 <= _current_idx w < Z.of_nat (List.length l) ->
   Play.puzzle_arg w
   = Ok (first_puzzle_id (skipn (Z.to_nat (_current_idx w)) l)))
  /\ (_current_idx w < 0 \/ Z.of_nat (List.length l) <= _current_idx w ->
      Play.puzzle_arg w = Ok (JStr [])).
Proof.
  intros Hc Hs Hd. split.
  - intros Hi. unfold Play.puzzle_arg.
    destruct (Z.leb_spec 0 (_current_idx w)); [|lia].
    rewrite Hc. cbn [get]. rewrite Hs. cbn [rbind len].
    destruct (Z.ltb_spec (_current_idx w) (Z.of_nat (List.length l))); [|lia].
    cbn [getitem]. rewrite index_in_range by lia. cbn [rbind].
    destruct (nth_error l (Z.to_nat (_current_idx w))) as [step|] eqn:En.
    2:{ apply nth_error_None in En. lia. }
    rewrite (skipn_nth_error _ _ _ En).
    pose proof (forallb_nth_error _ _ _ _ Hd En) as Hstep.
    destruct step as [| | | | |ds]; try discriminate.
    assert (Hrest : forallb is_dict (skipn (S (Z.to_nat (_current_idx w))) l)
                    = true).
    { rewrite <- (firstn_skipn (S (Z.to_nat (_current_idx w))) l) in Hd.
      rewrite forallb_app in Hd. now apply andb_prop in Hd. }
    replace (Z.to_nat (_current_idx w + 1))
      with (S (Z.to_nat (_current_idx w))) by lia.
    rewrite (next_puzzle_id_find _ Hrest).
    unfold first_puzzle_id at 2. cbn [find is_puzzle get rbind].
    destruct (dict_get ds (lit "type")) as [ty|] eqn:E.
    + destruct (eq_str ty (lit "puzzle")); reflexivity.
    + reflexivity.
  - intros Hi. unfold Play.puzzle_arg.
    destruct (Z.leb_spec 0 (_current_idx w)); [|reflexivity].
    rewrite Hc. cbn [get]. rewrite Hs. cbn [rbind len].
    destruct (Z.ltb_spec (_current_idx w) (Z.of_nat (List.length l)));
      [lia|reflexivity].
Qed.

Lemma puzzle_arg_first_puzzle_witness :
  let w := set_current_idx 0
             (set_chapter
                (JDict [(lit "steps",
                         JList [new_dialog_step; example_puzzle])])
                init) in
  Play.puzzle_arg w = Ok (JStr (lit "ch1_p01")).
Proof.
  intros w.
  assert (Hi : 0 <= 0 < Z.of_nat 2)
    by (split; [intros H; discriminate H|reflexivity]).
  destruct (puzzle_arg_first_puzzle w _ [new_dialog_step; example_puzzle]
              eq_refl eq_refl eq_refl) as [H _].
  exact (H Hi).
Defined.

(** ** The command line of the dev server *)

Lemma startswith_app p s : startswith (p ++ s) p = true.
Proof.
  induction p as [|c p IH]; [reflexivity|].
  cbn [app startswith]. now rewrite N.eqb_refl, IH.
Qed.

Lemma parse_arg_port uni io c :
  DevServer.parse_arg uni io c (int_str Play._server_port)
  = Ok (DevServer.mk 8001 (DevServer.WATCH_PATH c)
                     (DevServer.WATCH_PUZZLE c)).
Proof. reflexivity. Qed.

Lemma parse_arg_watch uni io c rel :
  DevServer.parse_arg uni io c (lit "--watch=" ++ rel)
  = Ok (DevServer.mk (DevServer.PORT c) rel (DevServer.WATCH_PUZZLE c)).
Proof. reflexivity. Qed.

Lemma parse_arg_puzzle uni io c p :
  DevServer.parse_arg uni io c (lit "--puzzle=" ++ p)
  = Ok (DevServer.mk (DevServer.PORT c) (DevServer.WATCH_PATH c) p).
Proof. reflexivity. Qed.

(** X14: the command the Play button builds, read by the dev server's
    own loop over its arguments, configures the server as the editor
    means: port 8001, the watch path of the open file relative to the
    data directory, and the puzzle of the active step, if any. *)
Theorem play_command_configures_server
    root cwd script_dir executable isprintable unicode_isdigit int_other
    w filepath cmd :
  Play.command root cwd script_dir executable isprintable w filepath
  = Play.Launch cmd ->
  exists rel arg args,
    Play.watch_rel root cwd script_dir filepath = Ok (Some rel)
    /\ Play.puzzle_arg w = Ok arg
    /\ cmd = executable :: Play.server_script script_dir :: args
    /\ DevServer.parse_args unicode_isdigit int_other args DevServer.defaults
       = Ok (DevServer.mk 8001 rel
               (if truthy arg then to_str isprintable arg else [])).
Proof.
  unfold Play.command.
  destruct (Play.watch_rel root cwd script_dir filepath) as [[rel|]|];
    try discriminate.
  destruct (Play.puzzle_arg w) as [arg|]; [|discriminate].
  intros [= <-]. exists rel, arg. eexists.
  split; [reflexivity|]. split; [reflexivity|]. split; [reflexivity|].
  cbn [DevServer.parse_args]. rewrite parse_arg_port. cbn [rbind].
  destruct (truthy arg); reflexivity.
Qed.

Lemma play_command_configures_server_witness :
  exists cmd,
    Play.command example_tree [] [lit "srv"; lit "wachesaw"; lit "tools"]
                 (lit "/usr/bin/python3") (fun _ => true)
                 (example_window 0)
                 (lit "/srv/wachesaw/data/story/chapter_1.json")
    = Play.Launch cmd
    /\ DevServer.parse_args (fun _ => false) (fun _ => Raise ValueError)
                            (skipn 2 cmd) DevServer.defaults
       = Ok (DevServer.mk 8001 (lit "story/chapter_1.json")
                          (lit "ch1_p01")).
Proof.
  eexists. split; [vm_compute; reflexivity|].
  destruct (play_command_configures_server example_tree []
              [lit "srv"; lit "wachesaw"; lit "tools"]
              (lit "/usr/bin/python3") (fun _ => true) (fun _ => false)
              (fun _ => Raise ValueError) (example_window 0)
              (lit "/srv/wachesaw/data/story/chapter_1.json") _ eq_refl)
    as (rel & arg & args & H1 & H2 & H3 & H4).
  vm_compute in H1. injection H1 as <-.
  vm_compute in H2. injection H2 as <-.
  injection H3 as <-. exact H4.
Defined.

(** ** The configuration script of the index page *)

Section ConfigScript.

Import Json.

Lemma scan_pair f k v rest :
  wf_str k = true -> wf_str v = true ->
  scanstring (pair_text k v rest)
  = Some (k, 58%N :: 32%N :: encode_string v ++ rest)
  /\ scan_once (S f) (skip_ws (32%N :: encode_string v ++ rest))
     = Some (JStr v, rest).
Proof.
  intros Hk Hv. split.
  - unfold pair_text. now apply scanstring_encode.
  - change (skip_ws (32%N :: encode_string v ++ rest))
      with (34%N :: (flat_map encode_char v ++ [34%N]) ++ rest).
    cbn [scan_once N.eqb Pos.eqb]. rewrite <- app_assoc. cbn [app].
    now rewrite scanstring_encode.
Qed.

Lemma object_items_last f k v rest :
  wf_str k = true -> wf_str v = true ->
  object_items (S (S f)) (pair_text k v (125%N :: rest))
  = Some ([(k, JStr v)], rest).
Proof.
  intros Hk Hv. destruct (scan_pair f k v (125%N :: rest) Hk Hv) as [H1 H2].
  cbn [object_items]. rewrite H1. cbn [skip_ws is_ws N.eqb Pos.eqb orb].
  cbv iota. change (skip_ws (encode_string v ++ 125%N :: rest))
    with (skip_ws (32%N :: encode_string v ++ 125%N :: rest)).
  rewrite H2. reflexivity.
Qed.

Lemma object_items_more f k v r4 :
  wf_str k = true -> wf_str v = true ->
  object_items (S (S f)) (pair_text k v (44%N :: 32%N :: 34%N :: r4))
  = match object_items (S f) r4 with
    | Some (l, r') => Some ((k, JStr v) :: l, r')
    | None => None
    end.
Proof.
  intros Hk Hv.
  destruct (scan_pair f k v (44%N :: 32%N :: 34%N :: r4) Hk Hv) as [H1 H2].
  cbn [object_items]. rewrite H1. cbn [skip_ws is_ws N.eqb Pos.eqb orb].
  cbv iota.
  change (skip_ws (encode_string v ++ 44%N :: 32%N :: 34%N :: r4))
    with (skip_ws (32%N :: encode_string v ++ 44%N :: 32%N :: 34%N :: r4)).
  rewrite H2. reflexivity.
Qed.

Lemma dumps_one k v :
  DevServer.dumps (JDict [(k, JStr v)])
  = 123%N :: 34%N :: pair_text k v [125%N].
Proof.
  cbn [DevServer.dumps map join]. unfold pair_text, encode_string.
  change (lit "{") with [123%N]. change (lit ": ") with [58%N; 32%N].
  change (lit "}") with [125%N].
  repeat (progress (cbn [app]; rewrite <- ?app_assoc)). reflexivity.
Qed.

Lemma dumps_two k v k' v' :
  DevServer.dumps (JDict [(k, JStr v); (k', JStr v')])
  = 123%N :: 34%N
    :: pair_text k v (44%N :: 32%N :: 34%N :: pair_text k' v' [125%N]).
Proof.
  cbn [DevServer.dumps map join]. unfold pair_text, encode_string.
  change (lit "{") with [123%N]. change (lit ": ") with [58%N; 32%N].
  change (lit "}") with [125%N]. change (lit ", ") with [44%N; 32%N].
  repeat (progress (cbn [app]; rewrite <- ?app_assoc)). reflexivity.
Qed.

Lemma length_pair_text k v rest :
  (3 + List.length rest <= List.length (pair_text k v rest))%nat.
Proof.
  unfold pair_text. rewrite length_app. cbn [List.length].
  rewrite length_app. lia.
Qed.

(** X15: the configuration script is empty without a watch path;
    otherwise it assigns to [window.WACHESAW_WATCH] a JSON text that
    decodes to the watch path and, when one was given, the puzzle. *)
Theorem config_script_decodes c :
  (DevServer.WATCH_PATH c = [] -> DevServer._build_config_script c = [])
  /\ (DevServer.WATCH_PATH c <> [] ->
      wf_str (DevServer.WATCH_PATH c) = true ->
      wf_str (DevServer.WATCH_PUZZLE c) = true ->
      exists text,
        DevServer._build_config_script c
        = lit "<script>window.WACHESAW_WATCH=" ++ text ++ [59%N]
          ++ lit "</script>" ++ [10%N]
        /\ load text = Some (DevServer.watch_config c)).
Proof.
  split.
  - intros H. unfold DevServer._build_config_script. now rewrite H.
  - intros Hne Hw Hp. exists (DevServer.dumps (DevServer.watch_config c)).
    split.
    + unfold DevServer._build_config_script.
      now destruct (DevServer.WATCH_PATH c).
    + unfold DevServer.watch_config.
      destruct (DevServer.WATCH_PUZZLE c) as [|p0 p] eqn:Ep.
      * rewrite dumps_one. unfold load, decode.
        pose proof (length_pair_text (lit "watch") (DevServer.WATCH_PATH c)
                      [125%N]) as Hlen.
        cbn [List.length] in *.
        destruct (List.length (pair_text (lit "watch")
                                 (DevServer.WATCH_PATH c) [125%N]))
          as [|[|[|n]]] eqn:E; try lia.
        cbn [skip_ws is_ws N.eqb Pos.eqb orb]. cbv iota.
        cbn [scan_once N.eqb Pos.eqb skip_ws is_ws orb]. cbv iota.
        rewrite object_items_last by (try reflexivity; assumption).
        reflexivity.
      * rewrite dumps_two. unfold load, decode.
        pose proof (length_pair_text (lit "watch") (DevServer.WATCH_PATH c)
                      (44%N :: 32%N :: 34%N
                       :: pair_text (lit "puzzle") (p0 :: p) [125%N]))
          as Hlen.
        cbn [List.length] in *.
        destruct (List.length
                    (pair_text (lit "watch") (DevServer.WATCH_PATH c)
                       (44%N :: 32%N :: 34%N
                        :: pair_text (lit "puzzle") (p0 :: p) [125%N])))
          as [|[|[|[|n]]]] eqn:E; try lia.
        cbn [skip_ws is_ws N.eqb Pos.eqb orb]. cbv iota.
        cbn [scan_once N.eqb Pos.eqb skip_ws is_ws orb]. cbv iota.
        rewrite object_items_more by (try reflexivity; assumption).
        rewrite object_items_last by (try reflexivity; assumption).
        reflexivity.
Qed.

Lemma config_script_decodes_witness :
  exists text,
    DevServer._build_config_script
      (DevServer.mk 8001 (lit "story/chapter_1.json") (lit "ch1_p01"))
    = lit "<script>window.WACHESAW_WATCH=" ++ text ++ [59%N]
      ++ lit "</script>" ++ [10%N]
    /\ load text
       = Some (JDict [(lit "watch", JStr (lit "story/chapter_1.json"));
                      (lit "puzzle", JStr (lit "ch1_p01"))]).
Proof.
  destruct (config_script_decodes
              (DevServer.mk 8001 (lit "story/chapter_1.json")
                            (lit "ch1_p01"))) as [_ H].
  apply H; [discriminate|reflexivity|reflexivity].
Defined.

End ConfigScript.

(** ** What the dev server can send *)

Section ServedFiles.

Import DevHandler.







End ServedFiles.

Section Resolution.

Import DevHandler.

Variable root : node.


Lemma resolved_nil : resolved root [] = true.
Proof. reflexivity. Qed.











End Resolution.

Section DataRequests.

Import DevHandler.

Variable root : node.











End DataRequests.





(** ** The file the editor plays and the server *)





(** ** The rows of the step list *)

Section StepListRows.

Variable isprintable : N -> bool.
Variable dict_slice_error : exn.

(** A step whose label cannot be computed stops the loop. *)
Lemma rows_raise l step :
  In step l ->
  (forall a b r,
     StepList.row isprintable dict_slice_error a b step <> Ok r) ->
  forall a b labels,
    StepList.rows isprintable dict_slice_error a b l <> Ok labels.
Proof.
  induction l as [|s l IH]; intros Hin Hrow a b labels; [destruct Hin|].
  cbn [StepList.rows].
  destruct (StepList.row isprintable dict_slice_error a b s)
    as [[[x y] label]|e] eqn:E; [|discriminate].
  destruct Hin as [->|Hin]; [now destruct (Hrow a b (x, y, label))|].
  cbn [rbind].
  destruct (StepList.rows isprintable dict_slice_error x y l)
    as [labels'|e] eqn:E'; [|discriminate].
  now destruct (IH Hin Hrow x y labels').
Qed.

(** A dialog step whose first line has the text [None] has no label:
    [txt[:35]] raises [TypeError]. *)
Lemma row_null_text a b first rest :
  dict_get first (lit "text") = Some JNull ->
  StepList.row isprintable dict_slice_error a b
    (DialogEditor.get_step_data (JList (JDict first :: rest)))
  = Raise TypeError.
Proof.
  intros H. unfold StepList.row.
  set (step := DialogEditor.get_step_data (JList (JDict first :: rest))).
  change (get step (lit "type") JNull) with (Ok (JStr (lit "dialog"))).
  cbn [rbind].
  change (eq_str (JStr (lit "dialog")) (lit "dialog")) with true.
  cbn iota.
  change (get step (lit "lines") (JList []))
    with (Ok (JList (JDict first :: rest))).
  cbn [rbind truthy].
  change (getitem (JList (JDict first :: rest)) 0) with (Ok (JDict first)).
  cbn [rbind get]. rewrite H. reflexivity.
Qed.

Lemma rebuild_raises keep w d l step :
  _chapter w = JDict d -> dict_get d (lit "steps") = Some (JList l) ->
  In step l ->
  (forall a b r,
     StepList.row isprintable dict_slice_error a b step <> Ok r) ->
  forall r,
    StepList._rebuild_step_list isprintable dict_slice_error keep w
    <> Ok r.
Proof.
  intros Hc Hs Hin Hrow r. unfold StepList._rebuild_step_list.
  rewrite Hc. cbn [get]. rewrite Hs.
  assert (Ht : truthy (JDict d) = true).
  { destruct d; [discriminate Hs|reflexivity]. }
  rewrite Ht. cbn [negb rbind iter].
  destruct (StepList.rows isprintable dict_slice_error 0 0 l)
    as [labels|e] eqn:E; [|discriminate].
  now destruct (rows_raise l step Hin Hrow 0 0 labels).
Qed.

End StepListRows.

(** The window after the text of the first dialog line was cleared. *)
Lemma dialog_text_cleared w first rest text :
  _dialog_editor w = JList (JDict first :: rest) ->
  strip text = [] ->
  Events.dialog_field_changed text 0 (lit "text") w
  = (set_dirty true
       (set_dialog_editor
          (JList (JDict (dict_set first (lit "text") JNull) :: rest)) w),
     Ok tt).
Proof.
  intros He Hs. unfold Events.dialog_field_changed.
  unfold bind at 1, read at 1. unfold bind at 1, lift at 1. rewrite He.
  cbn [len]. change (0 <? Z.of_nat (List.length (JDict first :: rest)))
    with true. cbn iota.
  unfold bind, zoom, DialogEditor._on_field_changed, read, lift, modify,
    _mark_dirty.
  rewrite He. cbn [len].
  change (0 <? Z.of_nat (List.length (JDict first :: rest))) with true.
  cbn iota.
  change (getitem (JList (JDict first :: rest)) 0) with (Ok (JDict first)).
  cbn iota beta. unfold DialogEditor.field_value. rewrite Hs.
  reflexivity.
Qed.

Lemma in_list_insert (l : list json) k x y : In y l -> In y (list_insert l k x).
Proof.
  intros H. unfold list_insert. apply in_or_app.
  rewrite <- (firstn_skipn
                (Z.to_nat (if k <? 0
                           then Z.max 0 (Z.of_nat (List.length l) + k)
                           else Z.min k (Z.of_nat (List.length l)))) l) in H.
  apply in_app_or in H as [H|H]; [now left|right; now right].
Qed.

Lemma in_update {A} (l : list A) n x :
  (n < List.length l)%nat -> In x (update l n x).
Proof.
  revert n. induction l as [|h l IH]; intros [|n] H; cbn in *; try lia.
  - now left.
  - right. apply IH. lia.
Qed.

(** X19: once the text of the first line of the active dialog step has
    been cleared, the step list cannot be rebuilt after a step is added:
    the cleared text is stored as [None], the flush of [_add_step] puts
    it into the document, and the label of the step, which slices the
    text, raises. *)
Theorem cleared_text_breaks_step_list isprintable dict_slice_error keep
    step_type w d l step first rest text :
  _chapter w = JDict d -> dict_get d (lit "steps") = Some (JList l) ->
  forallb is_dict l = true ->
  0 <= _current_idx w < Z.of_nat (List.length l) ->
  nth_error l (Z.to_nat (_current_idx w)) = Some step ->
  get step (lit "type") JNull = Ok (JStr (lit "dialog")) ->
  _dialog_editor w = JList (JDict first :: rest) ->
  strip text = [] ->
  let w1 := fst (Events.dialog_field_changed text 0 (lit "text") w) in
  let w2 := fst (_add_step isprintable step_type w1) in
  forall r,
    StepList._rebuild_step_list isprintable dict_slice_error keep w2
    <> Ok r.
Proof.
  intros Hc Hs Hd Hi Hn Hty He Hsp w1 w2.
  subst w2 w1. rewrite (dialog_text_cleared w first rest text He Hsp).
  cbn [fst].
  set (w1 := set_dirty true
               (set_dialog_editor
                  (JList (JDict (dict_set first (lit "text") JNull)
                          :: rest)) w)).
  set (w2 := fst (_add_step isprintable step_type w1)).
  assert (Hok : idx_ok w1).
  { right. unfold steps_of. change (_chapter w1) with (_chapter w).
    rewrite Hc. cbn [get]. rewrite Hs. exact Hi. }
  destruct (add_step_document isprintable step_type w1 d l Hc Hs Hd Hok)
    as (d1 & l1 & new_step & Hc1 & Hs1 & _ & _ & _ & Hc2 & _).
  pose proof (flush_at_step w1 d l step _ Hc Hs Hi Hn Hty) as Hf.
  rewrite Hf in Hc1. cbn [fst _chapter set_chapter] in Hc1.
  injection Hc1 as <-. rewrite dict_get_set_same in Hs1.
  injection Hs1 as <-.
  set (bad := DialogEditor.get_step_data
                (JList (JDict (dict_set first (lit "text") JNull)
                        :: rest))).
  assert (Hstep : flush_step w1 step = bad).
  { unfold flush_step, flush_data. rewrite Hty. reflexivity. }
  rewrite Hstep in Hc2.
  refine (rebuild_raises isprintable dict_slice_error keep w2 _ _ bad Hc2
            (dict_get_set_same _ _ _) _ _).
  - apply in_list_insert, in_update.
    rewrite <- (Nat2Z.id (List.length l)). apply Z2Nat.inj_lt; lia.
  - intros a b r. unfold bad. rewrite row_null_text; [discriminate|].
    apply dict_get_set_same.
Qed.

Lemma cleared_text_breaks_step_list_witness :
  exists e,
    StepList._rebuild_step_list (fun _ => true) TypeError true
      (fst (_add_step (fun _ => true) (lit "dialog")
              (fst (Events.dialog_field_changed (lit " ") 0 (lit "text")
                      (mk (JDict [(lit "steps", JList [new_dialog_step])])
                          None 0 false PuzzleEditor.init
                          (JList [DialogEditor.blank_line]))))))
    = Raise e.
Proof.
  assert (Hi : 0 <= 0 < Z.of_nat 1)
    by (split; [intros H; discriminate H|reflexivity]).
  pose proof (cleared_text_breaks_step_list (fun _ => true) TypeError true
                (lit "dialog")
                (mk (JDict [(lit "steps", JList [new_dialog_step])])
                    None 0 false PuzzleEditor.init
                    (JList [DialogEditor.blank_line]))
                _ [new_dialog_step] new_dialog_step _ [] (lit " ")
                eq_refl eq_refl eq_refl Hi eq_refl eq_refl eq_refl eq_refl)
    as H.
  cbv zeta in H.
  destruct (StepList._rebuild_step_list _ _ _ _) as [r|e].
  - destruct (H r eq_refl).
  - now exists e.
Defined.

Lemma rows_length isprintable dict_slice_error l : forall a b labels,
  StepList.rows isprintable dict_slice_error a b l = Ok labels ->
  List.length labels = List.length l.
Proof.
  induction l as [|s l IH]; intros a b labels; cbn [StepList.rows].
  - now intros [= <-].
  - destruct (StepList.row isprintable dict_slice_error a b s)
      as [[[x y] label]|e]; [|discriminate].
    cbn [rbind].
    destruct (StepList.rows isprintable dict_slice_error x y l)
      as [labels'|e] eqn:E; [|discriminate].
    intros [= <-]. cbn [List.length]. now rewrite (IH x y labels' E).
Qed.

(** Only a list of steps, or something empty, can be listed. *)
Lemma rows_of_items isprintable dict_slice_error steps items labels :
  iter steps = Ok items ->
  StepList.rows isprintable dict_slice_error 0 0 items = Ok labels ->
  items = match steps with JList l => l | _ => [] end.
Proof.
  destruct steps as [| | |s|l|d]; try discriminate; intros [= <-];
    [|reflexivity|].
  - destruct s as [|c s]; [reflexivity|]. discriminate.
  - destruct d as [|[k v] d]; [reflexivity|]. discriminate.
Qed.

(** X20: when the step list is rebuilt there is one row for each step of
    the document; with [keep_selection] the row selected is that of the
    active step, and without it, or without an active step, no row
    is. *)
Theorem rebuilt_rows_match_steps isprintable dict_slice_error keep w
    labels sel :
  StepList._rebuild_step_list isprintable dict_slice_error keep w
  = Ok (labels, sel) ->
  List.length labels = List.length (steps_of w)
  /\ (idx_ok w ->
      sel = if keep && (0 <=? _current_idx w) then Some (_current_idx w)
            else None).
Proof.
  unfold StepList._rebuild_step_list, idx_ok, steps_of.
  destruct (truthy (_chapter w)) eqn:Ht; cbn [negb].
  - destruct (get (_chapter w) (lit "steps") (JList [])) as [steps|e];
      [|discriminate].
    cbn [rbind].
    destruct (iter steps) as [items|e] eqn:Hit; [|discriminate].
    cbn [rbind].
    destruct (StepList.rows isprintable dict_slice_error 0 0 items)
      as [labels'|e] eqn:Hrows; [|discriminate].
    cbn [rbind].
    pose proof (rows_length _ _ _ _ _ _ Hrows) as Hlen.
    pose proof (rows_of_items _ _ _ _ _ Hit Hrows) as Hitems.
    assert (Hsteps : List.length labels'
                     = List.length match steps with
                                   | JList l => l
                                   | _ => []
                                   end) by now rewrite Hlen, Hitems.
    destruct (keep && (0 <=? _current_idx w)) eqn:Hk.
    + destruct (len steps) as [n|e] eqn:Hn; [|discriminate].
      cbn [rbind]. intros [= <- <-]. split; [exact Hsteps|].
      intros [Hi|Hi].
      { apply andb_prop in Hk as [_ Hk]. rewrite Hi in Hk.
        discriminate Hk. }
      destruct steps as [| | |s|l|d]; cbn [List.length] in Hi; try lia.
      cbn [len] in Hn. injection Hn as <-.
      rewrite Z.min_l by lia. rewrite Hsteps.
      destruct (Z.leb_spec 0 (_current_idx w)); [|lia].
      destruct (Z.ltb_spec (_current_idx w) (Z.of_nat (List.length l)));
        [reflexivity|lia].
    + intros [= <- <-]. split; [exact Hsteps|reflexivity].
  - intros [= <- <-]. split.
    + destruct (_chapter w) as [| | | | |[|kv d]]; try reflexivity.
      discriminate Ht.
    + intros [Hi|Hi]; [rewrite Hi; now rewrite andb_false_r|].
      exfalso.
      destruct (_chapter w) as [| | | | |[|kv d]]; cbn in Hi; try lia.
      discriminate Ht.
Qed.

Lemma rebuilt_rows_match_steps_witness :
  List.length [128172%N :: lit "  " ++ [8212%N] ++ lit ": "]
  = List.length
      (steps_of (mk (JDict [(lit "steps", JList [new_dialog_step])])
                    None 0 false PuzzleEditor.init
                    (JList [DialogEditor.blank_line]))).
Proof.
  exact (proj1 (rebuilt_rows_match_steps (fun _ => true) TypeError true
                  (mk (JDict [(lit "steps", JList [new_dialog_step])])
                      None 0 false PuzzleEditor.init
                      (JList [DialogEditor.blank_line]))
                  _ (Some 0) eq_refl)).
Defined.

(** ** Play and the save before it *)

Lemma flush_dirty w : _dirty (fst (_flush w)) = _dirty w.
Proof.
  destruct (flush_cases w) as [->|(d & l & step & data & _ & _ & _ & _ & _
                                   & ->)]; reflexivity.
Qed.

(** What [_save_file] does on a window with a document and a path, the
    flush having returned. *)
Lemma save_file_cases w disk path :
  truthy (_chapter w) = true -> _filepath w = Some path -> path <> [] ->
  snd (_flush w) = Ok tt ->
  _save_file (w, disk)
  = if Disk.writable disk path
    then ((set_dirty false (fst (_flush w)),
           Disk.write path (Json.dump (_chapter (fst (_flush w))) ++ [10%N])
                      disk), Ok tt)
    else ((fst (_flush w), disk), Ok tt).
Proof.
  intros Ht Hp Hne Hf.
  pose proof (flush_frame w) as (_ & Hpath & _).
  unfold _save_file, bind, read, zoom, no_filepath.
  cbn [fst snd]. rewrite Ht, Hp. cbn [negb].
  destruct path as [|c path]; [congruence|]. cbv beta iota. cbn [fst snd].
  destruct (_flush w) as [w1 r]. cbn [fst snd] in *. subst r.
  rewrite Hpath, Hp.
  destruct (Disk.writable disk (c :: path)); reflexivity.
Qed.

(** X21: Play tells a failed save by the dirty mark alone.  When the file
    cannot be written, Play stops if the window was marked dirty; if it
    was not, Play goes on to launch the server for the flushed document,
    with the file on the disk as it was. *)
Theorem play_tells_failed_save_by_dirty_mark
    root cwd script_dir executable isprintable w disk path :
  truthy (_chapter w) = true -> _filepath w = Some path -> path <> [] ->
  snd (_flush w) = Ok tt ->
  let w1 := fst (_flush w) in
  Play._play_in_browser root cwd script_dir executable isprintable (w, disk)
  = if Disk.writable disk path
    then ((set_dirty false w1,
           Disk.write path (Json.dump (_chapter w1) ++ [10%N]) disk),
          Some (Play.command root cwd script_dir executable isprintable
                             w1 path))
    else ((w1, disk),
          if _dirty w then None
          else Some (Play.command root cwd script_dir executable
                                  isprintable w1 path)).
Proof.
  intros Ht Hp Hne Hf w1. unfold Play._play_in_browser. cbn [fst].
  rewrite Ht. unfold no_filepath at 1. rewrite Hp.
  destruct path as [|c path]; [congruence|]. cbn [negb orb].
  rewrite (save_file_cases w disk (c :: path) Ht Hp Hne Hf). fold w1.
  pose proof (flush_frame w) as (_ & Hpath & _). fold w1 in Hpath.
  pose proof (flush_dirty w) as Hdirty. fold w1 in Hdirty.
  destruct (Disk.writable disk (c :: path)); cbn [fst snd].
  - cbn [_dirty set_dirty _filepath]. rewrite Hpath, Hp. reflexivity.
  - rewrite Hdirty, Hpath, Hp. now destruct (_dirty w).
Qed.

Lemma play_tells_failed_save_by_dirty_mark_witness :
  exists cmd,
    Play._play_in_browser example_tree []
      [lit "srv"; lit "wachesaw"; lit "tools"] (lit "/usr/bin/python3")
      (fun _ => true)
      (set_filepath (Some (lit "/srv/wachesaw/data/story/chapter_1.json"))
                    (example_window 0),
       Disk.mk (fun _ => None) (fun _ => false))
    = ((fst (_flush
               (set_filepath
                  (Some (lit "/srv/wachesaw/data/story/chapter_1.json"))
                  (example_window 0))),
        Disk.mk (fun _ => None) (fun _ => false)),
       Some (Play.Launch cmd)).
Proof.
  eexists.
  rewrite (play_tells_failed_save_by_dirty_mark example_tree []
             [lit "srv"; lit "wachesaw"; lit "tools"]
             (lit "/usr/bin/python3") (fun _ => true)
             (set_filepath
                (Some (lit "/srv/wachesaw/data/story/chapter_1.json"))
                (example_window 0))
             (Disk.mk (fun _ => None) (fun _ => false))
             (lit "/srv/wachesaw/data/story/chapter_1.json")
             eq_refl eq_refl);
    [|discriminate|reflexivity].
  vm_compute. reflexivity.
Defined.

(** ** The index page with the watch configuration *)

Lemma startswith_prefix s p :
  startswith s p = true -> s = p ++ skipn (List.length p) s.
Proof.
  revert s. induction p as [|c p IH]; intros s H; [reflexivity|].
  destruct s as [|x s]; [discriminate|]. cbn [startswith] in H.
  apply andb_prop in H as [Hx H]. apply N.eqb_eq in Hx. subst x.
  cbn [app List.length skipn]. now rewrite <- (IH s H).
Qed.

Lemma replace_first_absent old new s :
  (forall a b, s <> a ++ old ++ b) ->
  DevPages.replace_first old new s = s.
Proof.
  induction s as [|c s IH]; intros H.
  - cbn [DevPages.replace_first].
    destruct (startswith [] old) eqn:E; [|reflexivity].
    apply startswith_prefix in E.
    now destruct (H [] (skipn (List.length old) [])).
  - cbn [DevPages.replace_first].
    destruct (startswith (c :: s) old) eqn:E.
    + apply startswith_prefix in E.
      now destruct (H [] (skipn (List.length old) (c :: s))).
    + rewrite IH; [reflexivity|]. intros a b ->.
      now destruct (H (c :: a) b).
Qed.

Lemma replace_first_at old new a : forall b,
  (forall a' b', a ++ old ++ b = a' ++ old ++ b' ->
                 (List.length a <= List.length a')%nat) ->
  DevPages.replace_first old new (a ++ old ++ b) = a ++ new ++ b.
Proof.
  induction a as [|c a IH]; intros b Hmin.
  - cbn [app]. destruct old as [|o old].
    + now destruct b.
    + cbn [app DevPages.replace_first].
      change (o :: old ++ b) with ((o :: old) ++ b).
      rewrite startswith_app. rewrite skipn_app, skipn_all, Nat.sub_diag.
      reflexivity.
  - cbn [app DevPages.replace_first].
    destruct (startswith (c :: a ++ old ++ b) old) eqn:E.
    + apply startswith_prefix in E.
      specialize (Hmin [] _ E). cbn in Hmin. lia.
    + rewrite IH; [reflexivity|]. intros a' b' H.
      specialize (Hmin (c :: a') b'). cbn [app List.length] in Hmin.
      rewrite H in Hmin. specialize (Hmin eq_refl). lia.
Qed.

(** X22: with a watch path configured, the request for [/] or
    [/index.html] is answered with the index page of the web build and
    the configuration script put right before its first [</head>], the
    rest of the page as it is; a page without [</head>] is sent
    unchanged, without the configuration. *)
Theorem patched_index_page root project_root c html parsed_path :
  DevServer.WATCH_PATH c <> [] ->
  parsed_path = lit "/" \/ parsed_path = lit "/index.html" ->
  exists page,
    DevPages.do_GET root project_root c (Some (Ok html)) parsed_path
    = DevPages.Page page
    /\ (forall a b,
          html = a ++ lit "</head>" ++ b ->
          (forall a' b', html = a' ++ lit "</head>" ++ b' ->
                         (List.length a <= List.length a')%nat) ->
          page = a ++ DevServer._build_config_script c ++ lit "</head>" ++ b)
    /\ ((forall a b, html <> a ++ lit "</head>" ++ b) -> page = html).
Proof.
  intros Hw Hp. eexists. split; [|split].
  - unfold DevPages.do_GET, DevPages._CONFIG_SCRIPT,
      DevServer._build_config_script.
    destruct (DevServer.WATCH_PATH c) as [|x p]; [congruence|].
    destruct Hp as [->| ->]; reflexivity.
  - intros a b -> Hmin. unfold DevPages._CONFIG_SCRIPT.
    rewrite replace_first_at by exact Hmin. now rewrite <- app_assoc.
  - intros Hno. now apply replace_first_absent.
Qed.

Lemma patched_index_page_witness :
  DevPages.do_GET example_tree example_project_root
    (DevServer.mk 8001 (lit "story/chapter_1.json") [])
    (Some (Ok (lit "<head></head>"))) (lit "/")
  = DevPages.Page
      (lit "<head>"
       ++ DevServer._build_config_script
            (DevServer.mk 8001 (lit "story/chapter_1.json") [])
       ++ lit "</head>" ++ []).
Proof.
  destruct (patched_index_page example_tree example_project_root
              (DevServer.mk 8001 (lit "story/chapter_1.json") [])
              (lit "<head></head>") (lit "/"))
    as (page & Hpage & Hfirst & _); [discriminate|now left|].
  rewrite Hpage. f_equal. apply Hfirst; [reflexivity|].
  intros a' b' H.
  do 6 (destruct a' as [|? a']; [cbv in H; discriminate H|]).
  cbn [List.length]. change (List.length (lit "<head>")) with 6%nat. lia.
Defined.

(** ** The buttons of the board *)

Section BoardButtons.

Variable capitalize : str -> str.
Variable isprintable : N -> bool.

Lemma getitem_list cells c0 :
  0 <= c0 ->
  getitem (JList cells) c0
  = match nth_error cells (Z.to_nat c0) with
    | Some x => Ok x
    | None => Raise IndexError
    end.
Proof.
  intros H. cbn [getitem]. unfold index.
  destruct (Z.ltb_spec c0 (Z.of_nat (List.length cells))) as [Hlt|Hge].
  - destruct (Z.leb_spec 0 c0); [|lia]. reflexivity.
  - rewrite andb_false_r.
    destruct (Z.ltb_spec c0 0); [lia|]. rewrite andb_false_r. cbn [rbind].
    destruct (nth_error cells (Z.to_nat c0)) eqn:E; [|reflexivity].
    assert (Z.to_nat c0 < List.length cells)%nat
      by (apply nth_error_Some; congruence).
    lia.
Qed.

Lemma getitem_grid g r0 :
  0 <= r0 ->
  getitem (BoardGrid.grid_json g) r0
  = match nth_error g (Z.to_nat r0) with
    | Some cells => Ok (JList cells)
    | None => Raise IndexError
    end.
Proof.
  intros H. unfold BoardGrid.grid_json. rewrite getitem_list by exact H.
  rewrite nth_error_map. now destruct (nth_error g (Z.to_nat r0)).
Qed.

(** What [_place] has done when it returns for a row and a column that
    are not negative. *)
Lemma place_returns g g' row col piece :
  0 <= row -> 0 <= col ->
  BoardGrid._place row col piece g = (g', Ok tt) ->
  exists cells,
    nth_error g (Z.to_nat row) = Some cells
    /\ (Z.to_nat col < List.length cells)%nat
    /\ g' = update g (Z.to_nat row) (update cells (Z.to_nat col) piece).
Proof.
  intros Hr Hc. unfold BoardGrid._place, index.
  destruct (Z.ltb_spec row (Z.of_nat (List.length g))).
  - destruct (Z.leb_spec 0 row); [|lia]. cbn [andb].
    destruct (nth_error g (Z.to_nat row)) as [cells|] eqn:En;
      [|discriminate].
    destruct (Z.ltb_spec col (Z.of_nat (List.length cells))).
    + destruct (Z.leb_spec 0 col); [|lia]. cbn [andb].
      intros [= <-]. exists cells. repeat split. lia.
    + rewrite andb_false_r. destruct (Z.ltb_spec col 0); [lia|].
      rewrite andb_false_r. discriminate.
  - rewrite andb_false_r. destruct (Z.ltb_spec row 0); [lia|].
    rewrite andb_false_r. discriminate.
Qed.

(** The cell a button reads after a piece was placed. *)
Lemma cell_after_place g g' row col piece r0 c0 :
  0 <= row -> 0 <= col -> 0 <= r0 -> 0 <= c0 ->
  BoardGrid._place row col piece g = (g', Ok tt) ->
  rbind (getitem (BoardGrid.grid_json g') r0) (fun r => getitem r c0)
  = if (r0 =? row) && (c0 =? col) then Ok piece
    else rbind (getitem (BoardGrid.grid_json g) r0)
               (fun r => getitem r c0).
Proof.
  intros Hr Hc Hr0 Hc0 Hp.
  destruct (place_returns g g' row col piece Hr Hc Hp)
    as (cells & Hn & Hlen & ->).
  assert (Hrow : (Z.to_nat row < List.length g)%nat)
    by (apply nth_error_Some; congruence).
  rewrite !getitem_grid by exact Hr0.
  destruct (Z.eqb_spec r0 row) as [->|Hne].
  - rewrite nth_error_update_same by exact Hrow. rewrite Hn.
    cbn [rbind andb]. rewrite !getitem_list by exact Hc0.
    destruct (Z.eqb_spec c0 col) as [->|Hne].
    + now rewrite nth_error_update_same by exact Hlen.
    + rewrite nth_error_update_other; [reflexivity|].
      intros E. apply Z2Nat.inj in E; lia.
  - cbn [andb]. rewrite nth_error_update_other; [reflexivity|].
    intros E. apply Z2Nat.inj in E; lia.
Qed.

Lemma refresh_from_place g g' row col piece x keys :
  0 <= row -> 0 <= col ->
  BoardGrid._place row col piece g = (g', Ok tt) ->
  BoardView.button capitalize isprintable piece = Ok x ->
  (forall k, In k keys -> 0 <= fst k /\ 0 <= snd k) ->
  forall shown,
    BoardView.refresh_from capitalize isprintable (BoardGrid.grid_json g)
                           keys = Ok shown ->
    BoardView.refresh_from capitalize isprintable (BoardGrid.grid_json g')
                           keys
    = Ok (map (fun ks => if (fst (fst ks) =? row) && (snd (fst ks) =? col)
                         then x else snd ks)
              (combine keys shown)).
Proof.
  intros Hr Hc Hp Hx.
  induction keys as [|[r0 c0] keys IH]; intros Hk shown.
  { now intros [= <-]. }
  destruct (Hk (r0, c0) (or_introl eq_refl)) as [Hr0 Hc0].
  cbn [fst snd] in Hr0, Hc0.
  assert (Hk' : forall k, In k keys -> 0 <= fst k /\ 0 <= snd k)
    by (intros k Hin; apply Hk; now right).
  cbn [BoardView.refresh_from].
  pose proof (cell_after_place g g' row col piece r0 c0 Hr Hc Hr0 Hc0 Hp)
    as Hcell.
  destruct (getitem (BoardGrid.grid_json g) r0) as [r|e] eqn:E1;
    cbn [rbind] in *.
  - destruct (getitem r c0) as [cell|e] eqn:E2; cbn [rbind];
      [|discriminate].
    destruct (BoardView.button capitalize isprintable cell) as [y|e]
      eqn:E3; cbn [rbind]; [|discriminate].
    destruct (BoardView.refresh_from capitalize isprintable
                (BoardGrid.grid_json g) keys) as [ys|e] eqn:E4;
      cbn [rbind]; [|discriminate].
    intros [= <-]. specialize (IH Hk' ys eq_refl).
    destruct (getitem (BoardGrid.grid_json g') r0) as [r'|e'];
      cbn [rbind] in Hcell; cbn [rbind].
    + rewrite Hcell. cbn [combine map fst snd].
      destruct ((r0 =? row) && (c0 =? col)); cbn [rbind].
      * rewrite Hx. cbn [rbind]. now rewrite IH.
      * rewrite E3. cbn [rbind]. now rewrite IH.
    + destruct ((r0 =? row) && (c0 =? col)); discriminate Hcell.
  - discriminate.
Qed.

Lemma refresh_from_length keys : forall b shown,
  BoardView.refresh_from capitalize isprintable b keys = Ok shown ->
  List.length shown = List.length keys.
Proof.
  induction keys as [|[r0 c0] keys IH]; intros b shown;
    cbn [BoardView.refresh_from].
  - now intros [= <-].
  - destruct (getitem b r0) as [r|e]; [|discriminate]. cbn [rbind].
    destruct (getitem r c0) as [cell|e]; [|discriminate]. cbn [rbind].
    destruct (BoardView.button capitalize isprintable cell) as [y|e];
      [|discriminate]. cbn [rbind].
    destruct (BoardView.refresh_from capitalize isprintable b keys)
      as [ys|e] eqn:E; [|discriminate]. cbn [rbind].
    intros [= <-]. cbn [List.length]. now rewrite (IH b ys E).
Qed.

End BoardButtons.

(** X23: when a piece is placed on the cell of a button, the board being
    shown and the piece having a symbol and a tooltip, the buttons are
    refreshed without an error; the button of that cell shows the piece
    and every other button shows what it showed. *)
Theorem place_changes_one_button capitalize isprintable g g' row col piece
    shown x :
  0 <= row < 5 -> 0 <= col < 5 ->
  BoardGrid._place row col piece g = (g', Ok tt) ->
  BoardView._refresh capitalize isprintable (BoardGrid.grid_json g)
  = Ok shown ->
  BoardView.button capitalize isprintable piece = Ok x ->
  BoardView._refresh capitalize isprintable (BoardGrid.grid_json g')
  = Ok (update shown (Z.to_nat (5 * row + col)) x).
Proof.
  intros Hr Hc Hp Hs Hx. unfold BoardView._refresh in *.
  pose proof (refresh_from_length capitalize isprintable _ _ _ Hs) as Hlen.
  rewrite (refresh_from_place capitalize isprintable g g' row col piece x
             BoardView._buttons (proj1 Hr) (proj1 Hc) Hp Hx)
    with (shown := shown);
    [|intros k Hin; vm_compute in Hin;
      repeat (destruct Hin as [<-|Hin]; [split; discriminate|]);
      destruct Hin|exact Hs].
  f_equal.
  change (List.length BoardView._buttons) with 25%nat in Hlen.
  do 25 (destruct shown as [|? shown]; [discriminate Hlen|]).
  destruct shown; [|discriminate Hlen].
  assert (Hrow : row = 0 \/ row = 1 \/ row = 2 \/ row = 3 \/ row = 4)
    by lia.
  assert (Hcol : col = 0 \/ col = 1 \/ col = 2 \/ col = 3 \/ col = 4)
    by lia.
  destruct Hrow as [->|[->|[->|[->| ->]]]];
    destruct Hcol as [->|[->|[->|[->| ->]]]]; reflexivity.
Qed.

Lemma place_changes_one_button_witness :
  let piece := JDict [(lit "type", JStr (lit "CHIEF"));
                      (lit "player", JStr (lit "white"))] in
  let empty := (BoardView.markup [],
                lit "Empty " ++ 8212%N :: lit " click to place a piece") in
  BoardView._refresh (fun s => s) (fun _ => true)
    (BoardGrid.grid_json
       (fst (BoardGrid._place 1 2 piece (repeat (repeat JNull 5) 5))))
  = Ok (update (repeat empty 25) 7
          (BoardView.markup [9812%N],
           lit "white Chief " ++ 8212%N :: lit " click to change")).
Proof.
  assert (H1 : 0 <= 1 < 5) by (split; [intros H; discriminate H|reflexivity]).
  assert (H2 : 0 <= 2 < 5) by (split; [intros H; discriminate H|reflexivity]).
  exact (place_changes_one_button (fun s => s) (fun _ => true)
           (repeat (repeat JNull 5) 5) _ 1 2
           (JDict [(lit "type", JStr (lit "CHIEF"));
                   (lit "player", JStr (lit "white"))])
           _ _ H1 H2 eq_refl eq_refl eq_refl).
Defined.
